(** * MirrorMind: interview scoring routes and the speech-feedback contract

    The development embeds
    - [evaluateAnswer] of the interview-responses route
      (app/api/interview/[sessionId]/responses),
    - the score / XP / level arithmetic of the interview-complete route
      (app/api/interview/[sessionId]/complete),
    - the threshold and voice-activity contracts of the speech-analysis
      service, whose Python sources are not part of the repository files
      and are therefore modelled from the specification,
    - the rest of the two routes (achievements, skills, the responses
      handler), the stand-alone evaluate route (app/api/evaluate), the
      level progress of the stats route and the streak of the profile
      route.

    JavaScript numbers are modelled by exact rationals ([Q]) where the
    routes compute on finite numbers and only compare the results with
    constants or round them. [JSNumber] adds NaN and the infinities for
    [evaluateAnswer] on a difficulty that is any number, and [Double]
    computes in IEEE 754 doubles where the rounding of a double shows in
    the result (the progress of the stats route, the XP for a difficulty
    that is no integer). *)

From Stdlib Require Import ZArith QArith Qround String Ascii List Bool Lia Lqa.
From Stdlib Require Import SpecFloat Permutation Sorted.
Import ListNotations.

Local Open Scope Q_scope.

(* ------------------------------------------------------------------ *)
(** ** JavaScript primitives used by the routes *)

Module JS.

(** [Math.round]: the nearest integer, ties towards plus infinity. *)
Definition round (x : Q) : Z := Qfloor (x + (1 # 2)).

(** [Math.floor] on an integer quotient [a / b] with [b > 0]. *)
Definition floor_div (a b : Z) : Z := (a / b)%Z.

(** [Math.max] and [Math.min] on two finite numbers. *)
Definition max (a b : Q) : Q := if Qle_bool a b then b else a.
Definition min (a b : Q) : Q := if Qle_bool a b then a else b.

(** Number comparisons. *)
Definition ltb (a b : Q) : bool := negb (Qle_bool b a).
Definition gtb (a b : Q) : bool := ltb b a.

Definition of_nat (n : nat) : Q := inject_Z (Z.of_nat n).

(** Strings are sequences of 8-bit code units. *)

(** [s.split(c).length] for a one-character separator [c]: one more
    than the number of occurrences of [c]; [''.split(c)] is [['']]. *)
Fixpoint count_char (c : ascii) (s : string) : nat :=
  match s with
  | EmptyString => 0
  | String a s' => (if Ascii.eqb a c then 1 else 0) + count_char c s'
  end.

Definition split_length (c : ascii) (s : string) : nat :=
  S (count_char c s).

(** [String.prototype.toLowerCase] on one code unit: A-Z, and the
    Latin-1 capitals 0xC0-0xDE except the multiplication sign 0xD7. *)
Definition lower_char (a : ascii) : ascii :=
  let n := nat_of_ascii a in
  if ((65 <=? n) && (n <=? 90))%nat then ascii_of_nat (n + 32)
  else if ((192 <=? n) && (n <=? 222) && negb (n =? 215))%nat
       then ascii_of_nat (n + 32)
  else a.

Fixpoint toLowerCase (s : string) : string :=
  match s with
  | EmptyString => EmptyString
  | String a s' => String (lower_char a) (toLowerCase s')
  end.

(** [hay.includes(needle)]. *)
Fixpoint includes (needle hay : string) : bool :=
  String.prefix needle hay ||
  match hay with
  | EmptyString => false
  | String _ hay' => includes needle hay'
  end.

(** Regular expressions of the shape [/\b(w1|w2|...)\b/gi]. *)

(** [\w] without the unicode flag. *)
Definition is_word_char (a : ascii) : bool :=
  let n := nat_of_ascii a in
  (((48 <=? n) && (n <=? 57)) || ((65 <=? n) && (n <=? 90)) ||
   ((97 <=? n) && (n <=? 122)) || (n =? 95))%nat.

Definition is_word (o : option ascii) : bool :=
  match o with
  | Some a => is_word_char a
  | None => false
  end.

Definition head (s : string) : option ascii :=
  match s with
  | EmptyString => None
  | String a _ => Some a
  end.

(** [\b] between the code unit [prev] and the rest [s]. *)
Definition boundary (prev : option ascii) (s : string) : bool :=
  xorb (is_word prev) (is_word (head s)).

(** Case-insensitive comparison of one pattern letter (the patterns are
    lower-case ASCII letters and spaces) with one input code unit. *)
Definition ci_eqb (p a : ascii) : bool :=
  let n := nat_of_ascii a in
  Ascii.eqb p (if ((65 <=? n) && (n <=? 90))%nat
               then ascii_of_nat (n + 32) else a).

(** Match the word [w] at the start of [s], then [\b]; [prev] is the
    code unit before [s]. *)
Fixpoint match_word_then_boundary
         (w : string) (prev : option ascii) (s : string) : bool :=
  match w with
  | EmptyString => boundary prev s
  | String p w' =>
      match s with
      | EmptyString => false
      | String a s' =>
          ci_eqb p a && match_word_then_boundary w' (Some a) s'
      end
  end.

(** One attempt of [\b(w1|...|wn)\b] at the current position. *)
Definition match_here (ws : list string) (prev : option ascii)
           (s : string) : bool :=
  boundary prev s &&
  existsb (fun w => match_word_then_boundary w prev s) ws.

(** [re.test(s)] for a fresh regular expression: some position matches. *)
Fixpoint test_from (ws : list string) (prev : option ascii)
         (s : string) : bool :=
  match_here ws prev s ||
  match s with
  | EmptyString => false
  | String a s' => test_from ws (Some a) s'
  end.

Definition test_words (ws : list string) (s : string) : bool :=
  test_from ws None s.

End JS.

(* ------------------------------------------------------------------ *)
(** ** The interview-responses route: [evaluateAnswer] *)

Module Responses.

Local Open Scope string_scope.

(** The request body. [questionDifficulty] and [responseTime] are
    finite numbers here ([AnyNumber] takes the difficulty from all
    numbers); the identifiers and texts are strings. *)
Record EvaluationRequest : Type := {
  questionId : string;
  questionText : string;
  questionCategory : string;
  questionDifficulty : Q;
  responseText : string;
  responseTime : Q
}.

Record DetailedAnalysis : Type := {
  clarity : Z;
  relevance : Z;
  depth : Z;
  communication : Z
}.

Record EvaluationResponse : Type := {
  score : Z;
  feedback : string;
  strengths : list string;
  improvements : list string;
  detailedAnalysis : DetailedAnalysis
}.

Definition technical_terms : list string :=
  ["api"; "database"; "framework"; "algorithm"; "design"; "user"; "data";
   "system"; "code"; "development"; "testing"; "deployment";
   "architecture"; "scalability"; "performance"; "security"].

Definition detail_markers : list string :=
  ["specifically"; "particularly"; "for instance"; "such as";
   "including"; "like"].

Definition wordCount (req : EvaluationRequest) : nat :=
  JS.split_length " "%char (responseText req).

Definition hasExamples (req : EvaluationRequest) : bool :=
  JS.includes "example" (JS.toLowerCase (responseText req)) ||
  JS.includes "experience" (JS.toLowerCase (responseText req)) ||
  JS.includes "project" (JS.toLowerCase (responseText req)).

Definition hasTechnicalTerms (req : EvaluationRequest) : bool :=
  JS.test_words technical_terms (responseText req).

Definition hasStructure (req : EvaluationRequest) : bool :=
  JS.includes "." (responseText req) &&
  (2 <? JS.split_length "."%char (responseText req))%nat.

Definition hasSpecificDetails (req : EvaluationRequest) : bool :=
  JS.test_words detail_markers (responseText req).

(** The four component scores before the difficulty adjustment. *)
Record Components : Type := {
  c_clarity : Q;
  c_relevance : Q;
  c_depth : Q;
  c_communication : Q
}.

Definition add_if (b : bool) (d x : Q) : Q := if b then x + d else x.

Definition base_clarity (req : EvaluationRequest) : Q :=
  let wc := wordCount req in
  let c := JS.min 100 (JS.max 20 ((JS.of_nat wc / 80) * 100)) in
  let c := add_if (hasStructure req) 10 c in
  add_if (150 <? wc)%nat 5 c.

Definition base_relevance (req : EvaluationRequest) : Q :=
  let wc := wordCount req in
  let r := if hasTechnicalTerms req then 85 else 60 in
  let r := add_if (String.eqb (questionCategory req) "Technical"
                   && hasTechnicalTerms req) 10 r in
  let r := add_if (String.eqb (questionCategory req) "Communication"
                   && (100 <? wc)%nat) 5 r in
  add_if (String.eqb (questionCategory req) "Leadership"
          && JS.includes "team" (JS.toLowerCase (responseText req))) 10 r.

Definition base_depth (req : EvaluationRequest) : Q :=
  let wc := wordCount req in
  let d := if hasExamples req then 90 else 70 in
  let d := add_if (hasSpecificDetails req) 10 d in
  add_if (200 <? wc)%nat 5 d.

Definition base_communication (req : EvaluationRequest) : Q :=
  let wc := wordCount req in
  let m := if (50 <? wc)%nat then 85 else 60 in
  let m := add_if (hasStructure req) 10 m in
  add_if (hasExamples req) 5 m.

Definition base_scores (req : EvaluationRequest) : Components :=
  {| c_clarity := base_clarity req;
     c_relevance := base_relevance req;
     c_depth := base_depth req;
     c_communication := base_communication req |}.

Definition difficultyMultiplier (req : EvaluationRequest) : Q :=
  1 + (questionDifficulty req - 3) * (1 # 10).

(** [Math.min(100, Math.max(0, x * difficultyMultiplier))]. *)
Definition adjust (m x : Q) : Q := JS.min 100 (JS.max 0 (x * m)).

Definition adjusted_scores (req : EvaluationRequest) : Components :=
  let m := difficultyMultiplier req in
  let b := base_scores req in
  {| c_clarity := adjust m (c_clarity b);
     c_relevance := adjust m (c_relevance b);
     c_depth := adjust m (c_depth b);
     c_communication := adjust m (c_communication b) |}.

Definition overallScore (c : Components) : Z :=
  JS.round ((c_clarity c + c_relevance c + c_depth c + c_communication c) / 4).

(** [if (cond) xs.push(msg)] over an accumulator kept in push order. *)
Definition push_if (b : bool) (msg : string) (xs : list string)
  : list string :=
  if b then xs ++ [msg] else xs.

Definition msg_clarity : string :=
  "Structure your answer more clearly with logical flow".
Definition msg_relevance : string :=
  "Include more relevant details specific to the question".
Definition msg_depth : string :=
  "Provide specific examples from your experience".
Definition msg_communication : string :=
  "Expand on your answer with more detail and context".
Definition msg_length : string :=
  "Provide more comprehensive answers".
Definition msg_examples : string :=
  "Include concrete examples to illustrate your points".

Definition build_strengths (req : EvaluationRequest) (c : Components)
  : list string :=
  let s := [] in
  let s := push_if (JS.gtb (c_clarity c) 80)
             "Clear and well-structured response" s in
  let s := push_if (JS.gtb (c_relevance c) 80)
             "Relevant technical knowledge demonstrated" s in
  let s := push_if (JS.gtb (c_depth c) 80)
             "Good use of examples and specific details" s in
  let s := push_if (JS.gtb (c_communication c) 80)
             "Strong communication skills" s in
  let s := push_if (hasExamples req)
             "Excellent use of real-world examples" s in
  push_if (hasTechnicalTerms req
           && String.eqb (questionCategory req) "Technical")
          "Appropriate technical terminology" s.

Definition build_improvements (req : EvaluationRequest) (c : Components)
  : list string :=
  let i := [] in
  let i := push_if (JS.ltb (c_clarity c) 70) msg_clarity i in
  let i := push_if (JS.ltb (c_relevance c) 70) msg_relevance i in
  let i := push_if (JS.ltb (c_depth c) 70) msg_depth i in
  let i := push_if (JS.ltb (c_communication c) 70) msg_communication i in
  let i := push_if (wordCount req <? 50)%nat msg_length i in
  push_if (negb (hasExamples req)) msg_examples i.

Definition feedback_for (overall : Z) : string :=
  if (90 <=? overall)%Z then
    "Excellent response! You demonstrated strong knowledge, clear communication, and provided relevant examples. This is exactly what interviewers want to hear."
  else if (80 <=? overall)%Z then
    "Great answer with solid understanding and good structure. Minor improvements in detail or examples could make it even stronger."
  else if (70 <=? overall)%Z then
    "Good response that shows understanding. Focus on providing more specific examples and structuring your answer more clearly."
  else if (60 <=? overall)%Z then
    "Decent foundation, but your answer needs more development. Add specific examples, technical details, and clearer structure."
  else
    "Your answer needs significant improvement. Focus on providing specific examples, relevant details, and clearer explanations to demonstrate your expertise.".

Definition evaluateAnswer (req : EvaluationRequest) : EvaluationResponse :=
  let c := adjusted_scores req in
  let overall := overallScore c in
  {| score := overall;
     feedback := feedback_for overall;
     strengths := build_strengths req c;
     improvements := build_improvements req c;
     detailedAnalysis :=
       {| clarity := JS.round (c_clarity c);
          relevance := JS.round (c_relevance c);
          depth := JS.round (c_depth c);
          communication := JS.round (c_communication c) |} |}.

End Responses.

(* ------------------------------------------------------------------ *)
(** ** The interview-complete route: score, XP and level *)

Module Complete.

(** The columns of an [interview_responses] row the route reads. *)
Record ResponseRow : Type := {
  evaluation_score : Q;
  question_difficulty : Q
}.

(** The columns of a [users] row the route reads and writes. *)
Record UserProfile : Type := {
  total_xp : Z;
  level : Z
}.

(** The columns of an [interview_sessions] row the route writes. *)
Record SessionRow : Type := {
  completed : bool;
  total_duration : Q;
  overall_score : Z;
  questions_count : nat;
  responses_count : nat;
  xp_earned : Z
}.

Record DB : Type := {
  responses : list ResponseRow;
  session : SessionRow;
  user : option UserProfile
}.

(** What the backend does with the route's queries. *)
Record Env : Type := {
  authorized : bool;
  responsesError : bool;
  updateError : bool
}.

Inductive HttpResponse : Type :=
| Json401
| Json400
| Json500
| Json200 (overallScore xpEarned : Z) (totalResponses : nat).

(** [responses.reduce((sum, r) => sum + f(r), 0)]. *)
Definition reduce_sum (f : ResponseRow -> Q) (rs : list ResponseRow) : Q :=
  fold_left (fun sum r => sum + f r) rs 0.

Definition overallScore (rs : list ResponseRow) : Z :=
  JS.round (reduce_sum evaluation_score rs / JS.of_nat (length rs)).

Definition baseXP : Q := 100.

Definition scoreMultiplier (rs : list ResponseRow) : Q :=
  inject_Z (overallScore rs) / 100.

Definition difficultyBonus (rs : list ResponseRow) : Q :=
  reduce_sum (fun r => question_difficulty r * 10) rs.

(** In exact arithmetic, which is what the doubles of the route give
    for integer difficulties ([CompleteDouble] computes in doubles). *)
Definition xpEarned (rs : list ResponseRow) : Z :=
  JS.round (baseXP * scoreMultiplier rs + difficultyBonus rs).

(** The [users] update: 1000 XP per level. *)
Definition award (xp : Z) (u : UserProfile) : UserProfile :=
  let newTotalXP := (total_xp u + xp)%Z in
  {| total_xp := newTotalXP;
     level := (JS.floor_div newTotalXP 1000 + 1)%Z |}.

(** The profile [createUserProfile] inserts for a new user. *)
Definition new_profile : UserProfile := {| total_xp := 0; level := 1 |}.

(** The route handler, as a transition of the three tables it touches.
    [env] says how the backend answers: whether the bearer token names a
    user, whether the responses query fails, whether the session update
    fails. The [users] update, whose result the route does not inspect,
    is applied when the profile row exists. The achievements and skills
    tables, written after the [users] update, are not part of the
    state. *)
Definition POST (env : Env) (totalDuration : Q) (db : DB)
  : HttpResponse * DB :=
  if negb (authorized env) then (Json401, db)
  else
    let rs := responses db in
    if responsesError env || (length rs =? 0)%nat then (Json400, db)
    else
      let score := overallScore rs in
      let xp := xpEarned rs in
      if updateError env then (Json500, db)
      else
        let session' :=
          {| completed := true;
             total_duration := totalDuration;
             overall_score := score;
             questions_count := length rs;
             responses_count := length rs;
             xp_earned := xp |} in
        (Json200 score xp (length rs),
         {| responses := rs;
            session := session';
            user := option_map (award xp) (user db) |}).

(** The profile's level agrees with its XP: what [new_profile] starts
    with and every [award] re-establishes. *)
Definition level_consistent (u : UserProfile) : Prop :=
  level u = (JS.floor_div (total_xp u) 1000 + 1)%Z.



(** The stored level is not above the level of the stored XP. *)
Definition level_not_ahead (u : UserProfile) : Prop :=
  (level u <= JS.floor_div (total_xp u) 1000 + 1)%Z.

End Complete.

(* ------------------------------------------------------------------ *)
(** ** The speech-analysis service: audio gate and feedback thresholds

    The Python sources of the service (audio_processor.py,
    feedback_generator.py, settings.py) are not among the repository
    files; this module follows the specification's component contracts
    and the threshold constants quoted in the service README. *)

Module Speech.

(** Modelled from the spec: the pipeline's error taxonomy (sections 4
    and 7), whose Python definitions are missing. *)
Inductive PipelineError : Type :=
| UnsupportedFormat
| EmptyAudio
| FeatureStreamUnavailable (stream : string)
| DimensionMismatch
| ModelNotLoaded
| InferenceError
| InvalidThreshold.

(** Modelled from the spec: a fallible stage returns a value or one of
    the errors above. *)
Inductive result (A : Type) : Type :=
| Ok (a : A)
| Err (e : PipelineError).
Arguments Ok {A} a.
Arguments Err {A} e.

(** Modelled from the spec: AudioSample of section 3 (waveform, sample
    rate, channel count); audio_processor.py is missing. *)
Record AudioSample : Type := {
  waveform : list Q;
  sample_rate : Z;
  channel_count : Z
}.

(** Modelled from the spec: VoiceSegment of section 3 (start and end
    offsets in seconds, confidence). *)
Record VoiceSegment : Type := {
  seg_start : Q;
  seg_end : Q;
  seg_confidence : Q
}.

(** Modelled from the spec: the length of a voiced segment. *)
Definition duration (s : VoiceSegment) : Q := seg_end s - seg_start s.

(** Modelled from the spec: the five prediction dimensions. *)
Inductive Dimension : Type :=
| Nervousness | Confidence | Fluency | Pace | Tone.

(** Modelled from the spec: the dimensions in the order the spec lists
    them. *)
Definition dimensions : list Dimension :=
  [Nervousness; Confidence; Fluency; Pace; Tone].

(** Modelled from the spec: PredictionSet of section 3, five scalars
    always present. *)
Record PredictionSet : Type := {
  nervousness : Q;
  confidence : Q;
  fluency : Q;
  pace : Q;
  tone : Q
}.

(** Modelled from the spec: the value a PredictionSet holds for a
    dimension. *)
Definition prediction (p : PredictionSet) (d : Dimension) : Q :=
  match d with
  | Nervousness => nervousness p
  | Confidence => confidence p
  | Fluency => fluency p
  | Pace => pace p
  | Tone => tone p
  end.

(** Modelled from the spec: the per-dimension thresholds of the
    configuration surface (settings.py is missing). *)
Record Thresholds : Type := {
  confidence_threshold : Q;
  nervousness_threshold : Q;
  fluency_threshold : Q;
  pace_threshold : Q;
  tone_threshold : Q
}.

(** Modelled from the spec: the default thresholds, with the values of
    the README's settings.py excerpt (CONFIDENCE_THRESHOLD = 0.7,
    NERVOUSNESS_THRESHOLD = 0.6, FLUENCY_THRESHOLD = 0.6,
    PACE_THRESHOLD = 0.5, TONE_THRESHOLD = 0.5). *)
Definition default_thresholds : Thresholds :=
  {| confidence_threshold := 7 # 10;
     nervousness_threshold := 6 # 10;
     fluency_threshold := 6 # 10;
     pace_threshold := 5 # 10;
     tone_threshold := 5 # 10 |}.

(** Modelled from the spec: the threshold configured for a dimension. *)
Definition threshold (t : Thresholds) (d : Dimension) : Q :=
  match d with
  | Nervousness => nervousness_threshold t
  | Confidence => confidence_threshold t
  | Fluency => fluency_threshold t
  | Pace => pace_threshold t
  | Tone => tone_threshold t
  end.

(** Modelled from the spec: optional per-user threshold overrides
    (section 6), one optional value per dimension. *)
Definition Overrides : Type := Dimension -> option Q.

(** Modelled from the spec: no override at all. *)
Definition no_overrides : Overrides := fun _ => None.

(** Modelled from the spec: equality of dimensions, decided. *)
Definition dim_eqb (d d' : Dimension) : bool :=
  match d, d' with
  | Nervousness, Nervousness => true
  | Confidence, Confidence => true
  | Fluency, Fluency => true
  | Pace, Pace => true
  | Tone, Tone => true
  | _, _ => false
  end.

(** Modelled from the spec: override one dimension on top of [o]. *)
Definition override (d : Dimension) (v : Q) (o : Overrides) : Overrides :=
  fun d' => if dim_eqb d d' then Some v else o d'.

(** Modelled from the spec: a dimension's threshold after overrides:
    the override when there is one, the default otherwise. *)
Definition configured (o : Overrides) (d : Dimension) : Q :=
  match o d with
  | Some v => v
  | None => threshold default_thresholds d
  end.

(** Modelled from the spec: a threshold is valid when it lies in
    [0,1]. *)
Definition valid_threshold (v : Q) : bool :=
  Qle_bool 0 v && Qle_bool v 1.

(** Modelled from the spec: configuration load; a threshold outside
    [0,1] is rejected with InvalidThreshold, at load time. *)
Definition load_thresholds (o : Overrides) : result Thresholds :=
  if forallb (fun d => valid_threshold (configured o d)) dimensions
  then Ok {| confidence_threshold := configured o Confidence;
             nervousness_threshold := configured o Nervousness;
             fluency_threshold := configured o Fluency;
             pace_threshold := configured o Pace;
             tone_threshold := configured o Tone |}
  else Err InvalidThreshold.

(** Modelled from the spec: the pass/fail comparison of section 4.5:
    nervousness passes at or below its threshold, the other four at or
    above theirs. *)
Definition passes (t : Thresholds) (p : PredictionSet) (d : Dimension)
  : bool :=
  match d with
  | Nervousness => Qle_bool (prediction p d) (threshold t d)
  | _ => Qle_bool (threshold t d) (prediction p d)
  end.

(** Modelled from the spec: the per-dimension pass/fail part of the
    Feedback record that [generate] returns; the suggestion table and
    the summary wording are not given by the spec. *)
Definition generate_verdicts (t : Thresholds) (p : PredictionSet)
  : list (Dimension * bool) :=
  map (fun d => (d, passes t p d)) dimensions.

Section AudioGate.

(** Modelled from the spec: the undecoded input and the signal
    processing steps of AudioProcessor (decoding, resampling and
    normalisation, voice-activity detection, filler-word scan), and
    the later pipeline stages, all taken as given. *)
Variable RawAudio : Type.
Variable decode : RawAudio -> option AudioSample.
Variable normalize : AudioSample -> AudioSample.
Variable detect_voice : AudioSample -> list VoiceSegment.
Variable count_fillers : AudioSample -> list VoiceSegment -> nat.
Variable Analysis : Type.
Variable later_stages :
  AudioSample -> list VoiceSegment -> nat -> result Analysis.

(** Modelled from the spec: the configured minimum voiced duration,
    in seconds. *)
Variable min_duration : Q.

(** Modelled from the spec: segments shorter than the minimum
    duration are discarded. *)
Definition keep_segments (segs : list VoiceSegment)
  : list VoiceSegment :=
  filter (fun s => Qle_bool min_duration (duration s)) segs.

(** Modelled from the spec: AudioProcessor.process of section 4.1:
    UnsupportedFormat when the input cannot be decoded, EmptyAudio
    when no voiced segment is left after detection. *)
Definition process (raw : RawAudio)
  : result (AudioSample * list VoiceSegment * nat) :=
  match decode raw with
  | None => Err UnsupportedFormat
  | Some a =>
      let n := normalize a in
      match keep_segments (detect_voice n) with
      | [] => Err EmptyAudio
      | segs => Ok (n, segs, count_fillers n segs)
      end
  end.

(** Modelled from the spec: what one analysis request returns: the
    analysis, a flagged low-confidence result without predictions,
    or a reported failure. *)
Inductive PipelineResult : Type :=
| Analysed (a : Analysis)
| LowConfidence (flag : PipelineError)
| Failed (e : PipelineError).

(** Modelled from the spec: the pipeline of section 2; EmptyAudio
    short-circuits to the flagged low-confidence result. *)
Definition analyze (raw : RawAudio) : PipelineResult :=
  match process raw with
  | Err EmptyAudio => LowConfidence EmptyAudio
  | Err e => Failed e
  | Ok (n, segs, fillers) =>
      match later_stages n segs fillers with
      | Ok a => Analysed a
      | Err e => Failed e
      end
  end.

End AudioGate.

End Speech.

(* ------------------------------------------------------------------ *)
(** ** Orderings of the improvement list, and sample inputs *)

Module Ranking.

Import Responses.

(** The component score a suggestion addresses, when it addresses one
    of the four scored components. *)
Definition addressed_score (c : Components) (msg : string) : option Q :=
  if String.eqb msg msg_clarity then Some (c_clarity c)
  else if String.eqb msg msg_relevance then Some (c_relevance c)
  else if String.eqb msg msg_depth then Some (c_depth c)
  else if String.eqb msg msg_communication then Some (c_communication c)
  else None.

Fixpoint addressed_scores (c : Components) (msgs : list string) : list Q :=
  match msgs with
  | [] => []
  | m :: msgs' =>
      match addressed_score c m with
      | Some q => q :: addressed_scores c msgs'
      | None => addressed_scores c msgs'
      end
  end.

(** Scores that never decrease along the list: the worst one first. *)
Fixpoint ascending (l : list Q) : bool :=
  match l with
  | [] => true
  | x :: t =>
      match t with
      | [] => true
      | y :: _ => Qle_bool x y && ascending t
      end
  end.

(** "Worst-performing dimensions first": the suggestions that address a
    scored component come in ascending order of that component's score. *)
Definition worst_first (req : EvaluationRequest) : bool :=
  ascending (addressed_scores (adjusted_scores req)
                              (improvements (evaluateAnswer req))).

(** The six suggestions in the order the route tests them. *)
Definition all_improvements : list string :=
  [msg_clarity; msg_relevance; msg_depth; msg_communication;
   msg_length; msg_examples].

(** The condition under which each of the six is issued. *)
Definition improvement_conditions (req : EvaluationRequest) : list bool :=
  let c := adjusted_scores req in
  [JS.ltb (c_clarity c) 70; JS.ltb (c_relevance c) 70;
   JS.ltb (c_depth c) 70; JS.ltb (c_communication c) 70;
   (wordCount req <? 50)%nat; negb (hasExamples req)].

(** The entries of [xs] whose flag in [bs] is set, in the order of [xs]. *)
Fixpoint select (bs : list bool) (xs : list string) : list string :=
  match bs, xs with
  | b :: bs', x :: xs' =>
      if b then x :: select bs' xs' else select bs' xs'
  | _, _ => []
  end.

(** [l] is obtained from [m] by deleting entries. *)
Inductive subsequence : list string -> list string -> Prop :=
| sub_nil : forall m, subsequence [] m
| sub_keep : forall x l m, subsequence l m -> subsequence (x :: l) (x :: m)
| sub_skip : forall x l m, subsequence l m -> subsequence l (x :: m).

End Ranking.

Module Samples.

Local Open Scope string_scope.

(** A three-word answer to an easy (difficulty 1) technical question. *)
Definition terse_request : Responses.EvaluationRequest :=
  {| Responses.questionId := "q1";
     Responses.questionText := "How would you design a cache?";
     Responses.questionCategory := "Technical";
     Responses.questionDifficulty := 1;
     Responses.responseText := "I dont know";
     Responses.responseTime := 5 |}.

(** Two stored responses of one session. *)
Definition two_responses : list Complete.ResponseRow :=
  [ {| Complete.evaluation_score := 75; Complete.question_difficulty := 2 |};
    {| Complete.evaluation_score := 42; Complete.question_difficulty := 4 |} ].

Definition fresh_db : Complete.DB :=
  {| Complete.responses := two_responses;
     Complete.session :=
       {| Complete.completed := false;
          Complete.total_duration := 0;
          Complete.overall_score := 0;
          Complete.questions_count := 2;
          Complete.responses_count := 2;
          Complete.xp_earned := 0 |};
     Complete.user := Some Complete.new_profile |}.



Definition healthy_env : Complete.Env :=
  {| Complete.authorized := true;
     Complete.responsesError := false;
     Complete.updateError := false |}.

(** Half a second of detected speech in a three-second clip. *)
Definition short_clip : Speech.AudioSample :=
  {| Speech.waveform := [0; 1 # 10; 0];
     Speech.sample_rate := 16000%Z;
     Speech.channel_count := 1%Z |}.

Definition half_second : Speech.VoiceSegment :=
  {| Speech.seg_start := 1;
     Speech.seg_end := 3 # 2;
     Speech.seg_confidence := 9 # 10 |}.

End Samples.

(* ------------------------------------------------------------------ *)
(** ** Views of [evaluateAnswer] used by the properties *)

Module Feedback.

Import Responses Ranking.

(** The request with another difficulty. *)
Definition with_difficulty (d : Q) (req : EvaluationRequest)
  : EvaluationRequest :=
  {| questionId := questionId req;
     questionText := questionText req;
     questionCategory := questionCategory req;
     questionDifficulty := d;
     responseText := responseText req;
     responseTime := responseTime req |}.

(** The six strengths in the order the route tests them, and the
    condition under which each is issued. *)
Definition all_strengths : list string :=
  ["Clear and well-structured response"%string;
   "Relevant technical knowledge demonstrated"%string;
   "Good use of examples and specific details"%string;
   "Strong communication skills"%string;
   "Excellent use of real-world examples"%string;
   "Appropriate technical terminology"%string].

Definition strength_conditions (req : EvaluationRequest) : list bool :=
  let c := adjusted_scores req in
  [JS.gtb (c_clarity c) 80; JS.gtb (c_relevance c) 80;
   JS.gtb (c_depth c) 80; JS.gtb (c_communication c) 80;
   hasExamples req;
   hasTechnicalTerms req && String.eqb (questionCategory req) "Technical"].

(** The message is in the list. *)
Definition issued (msg : string) (l : list string) : bool :=
  existsb (String.eqb msg) l.

End Feedback.

(* ------------------------------------------------------------------ *)
(** ** [evaluateAnswer] on every value of the type number *)

(** The values of the type number. A finite number is kept as the exact
    rational it stands for; the sign of zero is not kept, and a finite
    result too large for a double keeps its value where the double would
    be an infinity. [evaluateAnswer] clamps and rounds both alike. *)
Module JSNumber.

Inductive number : Type :=
| Fin (q : Q)
| PosInf
| NegInf
| NaN.

Definition opp (a : number) : number :=
  match a with
  | Fin x => Fin (- x)
  | PosInf => NegInf
  | NegInf => PosInf
  | NaN => NaN
  end.

Definition add (a b : number) : number :=
  match a, b with
  | NaN, _ | _, NaN => NaN
  | Fin x, Fin y => Fin (x + y)
  | PosInf, NegInf | NegInf, PosInf => NaN
  | PosInf, _ | _, PosInf => PosInf
  | NegInf, _ | _, NegInf => NegInf
  end.

Definition sub (a b : number) : number := add a (opp b).

(** The product of the finite [x] and an infinity: [0 * Infinity] is
    NaN. *)
Definition times_infinity (x : Q) (positive : bool) : number :=
  match x ?= 0 with
  | Gt => if positive then PosInf else NegInf
  | Lt => if positive then NegInf else PosInf
  | Eq => NaN
  end.

Definition mul (a b : number) : number :=
  match a, b with
  | NaN, _ | _, NaN => NaN
  | Fin x, Fin y => Fin (x * y)
  | Fin x, PosInf | PosInf, Fin x => times_infinity x true
  | Fin x, NegInf | NegInf, Fin x => times_infinity x false
  | PosInf, PosInf | NegInf, NegInf => PosInf
  | PosInf, NegInf | NegInf, PosInf => NegInf
  end.

(** [a / y] for a finite, non-zero literal [y]. *)
Definition div_by (a : number) (y : Q) : number :=
  match a with
  | Fin x => Fin (x / y)
  | PosInf => times_infinity y true
  | NegInf => times_infinity y false
  | NaN => NaN
  end.

(** [a <= b]; every comparison with NaN is false. *)
Definition leb (a b : number) : bool :=
  match a, b with
  | NaN, _ | _, NaN => false
  | Fin x, Fin y => Qle_bool x y
  | NegInf, _ | _, PosInf => true
  | PosInf, _ | _, NegInf => false
  end.

Definition geb (a b : number) : bool := leb b a.

Definition ltb (a b : number) : bool :=
  match a, b with
  | NaN, _ | _, NaN => false
  | _, _ => negb (leb b a)
  end.

Definition gtb (a b : number) : bool := ltb b a.

(** [Math.max] and [Math.min]: NaN when an argument is NaN. *)
Definition max (a b : number) : number :=
  match a, b with
  | NaN, _ | _, NaN => NaN
  | _, _ => if leb a b then b else a
  end.

Definition min (a b : number) : number :=
  match a, b with
  | NaN, _ | _, NaN => NaN
  | _, _ => if leb a b then a else b
  end.

(** [Math.round]: NaN and the infinities are returned as they are. *)
Definition round (a : number) : number :=
  match a with
  | Fin x => Fin (inject_Z (JS.round x))
  | PosInf => PosInf
  | NegInf => NegInf
  | NaN => NaN
  end.

(** The number is an integer between [lo] and [hi]. *)
Definition integer_in (lo hi : Z) (a : number) : Prop :=
  exists n : Z, a = Fin (inject_Z n) /\ (lo <= n <= hi)%Z.

End JSNumber.

Module AnyNumber.

Import JSNumber.

Local Open Scope string_scope.

(** The request body with a [questionDifficulty] that is any number:
    the value [questionDifficulty - 3] is computed from, which is NaN
    when the body has no [questionDifficulty] or one that is no
    number. *)
Record EvaluationRequest : Type := {
  questionId : string;
  questionText : string;
  questionCategory : string;
  questionDifficulty : number;
  responseText : string;
  responseTime : Q
}.

Record DetailedAnalysis : Type := {
  clarity : number;
  relevance : number;
  depth : number;
  communication : number
}.

Record EvaluationResponse : Type := {
  score : number;
  feedback : string;
  strengths : list string;
  improvements : list string;
  detailedAnalysis : DetailedAnalysis
}.

(** The request with the finite difficulty [d]. *)
Definition finite (d : Q) (req : EvaluationRequest)
  : Responses.EvaluationRequest :=
  {| Responses.questionId := questionId req;
     Responses.questionText := questionText req;
     Responses.questionCategory := questionCategory req;
     Responses.questionDifficulty := d;
     Responses.responseText := responseText req;
     Responses.responseTime := responseTime req |}.

(** The texts and the category of the request: what the word count, the
    four tests of the answer text and the base scores are computed
    from. They do not read the difficulty. *)
Definition texts (req : EvaluationRequest) : Responses.EvaluationRequest :=
  finite 0 req.

Definition wordCount (req : EvaluationRequest) : nat :=
  Responses.wordCount (texts req).

Definition hasExamples (req : EvaluationRequest) : bool :=
  Responses.hasExamples (texts req).

Definition hasTechnicalTerms (req : EvaluationRequest) : bool :=
  Responses.hasTechnicalTerms (texts req).

(** The four component scores before the difficulty adjustment: finite
    numbers. *)
Definition base_scores (req : EvaluationRequest) : Responses.Components :=
  Responses.base_scores (texts req).

(** The four component scores after it. *)
Record Components : Type := {
  c_clarity : number;
  c_relevance : number;
  c_depth : number;
  c_communication : number
}.

Definition difficultyMultiplier (req : EvaluationRequest) : number :=
  add (Fin 1) (mul (sub (questionDifficulty req) (Fin 3)) (Fin (1 # 10))).

(** [Math.min(100, Math.max(0, x * difficultyMultiplier))]. *)
Definition adjust (m : number) (x : Q) : number :=
  min (Fin 100) (max (Fin 0) (mul (Fin x) m)).

Definition adjusted_scores (req : EvaluationRequest) : Components :=
  let m := difficultyMultiplier req in
  let b := base_scores req in
  {| c_clarity := adjust m (Responses.c_clarity b);
     c_relevance := adjust m (Responses.c_relevance b);
     c_depth := adjust m (Responses.c_depth b);
     c_communication := adjust m (Responses.c_communication b) |}.

Definition overallScore (c : Components) : number :=
  round (div_by (add (add (add (c_clarity c) (c_relevance c)) (c_depth c))
                     (c_communication c)) 4).

Definition build_strengths (req : EvaluationRequest) (c : Components)
  : list string :=
  let s := [] in
  let s := Responses.push_if (gtb (c_clarity c) (Fin 80))
             "Clear and well-structured response" s in
  let s := Responses.push_if (gtb (c_relevance c) (Fin 80))
             "Relevant technical knowledge demonstrated" s in
  let s := Responses.push_if (gtb (c_depth c) (Fin 80))
             "Good use of examples and specific details" s in
  let s := Responses.push_if (gtb (c_communication c) (Fin 80))
             "Strong communication skills" s in
  let s := Responses.push_if (hasExamples req)
             "Excellent use of real-world examples" s in
  Responses.push_if (hasTechnicalTerms req
                     && String.eqb (questionCategory req) "Technical")
                    "Appropriate technical terminology" s.

Definition build_improvements (req : EvaluationRequest) (c : Components)
  : list string :=
  let i := [] in
  let i := Responses.push_if (ltb (c_clarity c) (Fin 70))
             Responses.msg_clarity i in
  let i := Responses.push_if (ltb (c_relevance c) (Fin 70))
             Responses.msg_relevance i in
  let i := Responses.push_if (ltb (c_depth c) (Fin 70))
             Responses.msg_depth i in
  let i := Responses.push_if (ltb (c_communication c) (Fin 70))
             Responses.msg_communication i in
  let i := Responses.push_if (wordCount req <? 50)%nat
             Responses.msg_length i in
  Responses.push_if (negb (hasExamples req)) Responses.msg_examples i.

(** The feedback text: the chain of [overallScore >= ...] tests, all
    false for NaN. *)
Definition feedback_for (overall : number) : string :=
  if geb overall (Fin 90) then Responses.feedback_for 90
  else if geb overall (Fin 80) then Responses.feedback_for 80
  else if geb overall (Fin 70) then Responses.feedback_for 70
  else if geb overall (Fin 60) then Responses.feedback_for 60
  else Responses.feedback_for 0.

Definition evaluateAnswer (req : EvaluationRequest) : EvaluationResponse :=
  let c := adjusted_scores req in
  let overall := overallScore c in
  {| score := overall;
     feedback := feedback_for overall;
     strengths := build_strengths req c;
     improvements := build_improvements req c;
     detailedAnalysis :=
       {| clarity := round (c_clarity c);
          relevance := round (c_relevance c);
          depth := round (c_depth c);
          communication := round (c_communication c) |} |}.

(** The response of [Responses.evaluateAnswer] as numbers. *)
Definition of_response (r : Responses.EvaluationResponse)
  : EvaluationResponse :=
  {| score := Fin (inject_Z (Responses.score r));
     feedback := Responses.feedback r;
     strengths := Responses.strengths r;
     improvements := Responses.improvements r;
     detailedAnalysis :=
       {| clarity :=
            Fin (inject_Z (Responses.clarity (Responses.detailedAnalysis r)));
          relevance :=
            Fin (inject_Z (Responses.relevance (Responses.detailedAnalysis r)));
          depth :=
            Fin (inject_Z (Responses.depth (Responses.detailedAnalysis r)));
          communication :=
            Fin (inject_Z
                   (Responses.communication (Responses.detailedAnalysis r)))
       |} |}.

End AnyNumber.

(* ------------------------------------------------------------------ *)
(** ** The interview-complete route: achievements and skills *)

Module Achievements.

Local Open Scope string_scope.

(** A [user_achievements] row without the user id and the icon. *)
Record Achievement : Type := {
  achievement_id : string;
  achievement_name : string;
  achievement_description : string;
  xp_reward : Z;
  category : string
}.

Definition first_interview : Achievement :=
  {| achievement_id := "first-interview";
     achievement_name := "First Steps";
     achievement_description := "Complete your first interview";
     xp_reward := 50;
     category := "milestone" |}.

Definition high_scorer : Achievement :=
  {| achievement_id := "high-scorer";
     achievement_name := "Excellence";
     achievement_description := "Score 80% or higher in an interview";
     xp_reward := 100;
     category := "performance" |}.

Definition perfect_score : Achievement :=
  {| achievement_id := "perfect-score";
     achievement_name := "Perfection";
     achievement_description := "Score 95% or higher in an interview";
     xp_reward := 200;
     category := "performance" |}.

Definition level_5 : Achievement :=
  {| achievement_id := "level-5";
     achievement_name := "Rising Star";
     achievement_description := "Reach level 5";
     xp_reward := 150;
     category := "progression" |}.

Definition level_10 : Achievement :=
  {| achievement_id := "level-10";
     achievement_name := "Expert";
     achievement_description := "Reach level 10";
     xp_reward := 300;
     category := "progression" |}.

(** [if (cond) achievements.push(a)]. *)
Definition push_when (b : bool) (a : Achievement) (xs : list Achievement)
  : list Achievement :=
  if b then (xs ++ [a])%list else xs.

(** The achievements [checkAndUnlockAchievements] tries to insert, in the
    order it inserts them. *)
Definition candidates (score : Z) (questionsAnswered : nat) (userLevel : Z)
  : list Achievement :=
  let a := [] in
  let a := push_when (1 <=? questionsAnswered)%nat first_interview a in
  let a := push_when (80 <=? score)%Z high_scorer a in
  let a := push_when (95 <=? score)%Z perfect_score a in
  let a := push_when (5 <=? userLevel)%Z level_5 a in
  push_when (10 <=? userLevel)%Z level_10 a.

Definition unlocked (id : string) (table : list Achievement) : bool :=
  existsb (fun a => String.eqb (achievement_id a) id) table.

(** One insert into [user_achievements], the user's rows being [table]:
    the table's UNIQUE(user_id, achievement_id) constraint refuses a
    second row with the same id, and the route ignores the refusal. *)
Definition insert_achievement (table : list Achievement) (a : Achievement)
  : list Achievement :=
  if unlocked (achievement_id a) table then table else (table ++ [a])%list.

Definition checkAndUnlockAchievements
           (table : list Achievement)
           (score : Z) (questionsAnswered : nat) (userLevel : Z)
  : list Achievement :=
  fold_left insert_achievement
            (candidates score questionsAnswered userLevel) table.

Definition ids (table : list Achievement) : list string :=
  map achievement_id table.

Definition total_reward (l : list Achievement) : Z :=
  fold_right (fun a s => (xp_reward a + s)%Z) 0%Z l.

End Achievements.

(** The part of the database schema (supabase-schema.sql) that decides
    whether a row update is applied. *)
Module Schema.

Local Open Scope string_scope.

(** The columns of the tables the routes update. *)
Definition users : list string :=
  ["id"; "email"; "display_name"; "photo_url"; "total_xp"; "level";
   "subscription_tier"; "created_at"; "updated_at"; "last_login_at";
   "preferences"].

Definition interview_sessions : list string :=
  ["id"; "user_id"; "role_id"; "role_name"; "status"; "started_at";
   "completed_at"; "total_duration"; "overall_score"; "questions_count";
   "responses_count"; "xp_earned"; "metadata"].

Definition user_skills : list string :=
  ["id"; "user_id"; "skill_name"; "skill_category"; "current_level";
   "current_xp"; "total_xp"; "last_updated"; "progress_history"].

(** The tables with a BEFORE UPDATE trigger, which runs
    [update_updated_at_column] for each row. *)
Definition stamped_tables : list string := ["users"; "user_skills"].

(** The column [update_updated_at_column] assigns in [NEW]. *)
Definition stamped_column : string := "updated_at".

(** Whether an update of a row of [table] passes the table's trigger:
    the assignment [NEW.updated_at = NOW()] raises an error when the row
    has no such column, and the update is then not applied. *)
Definition update_passes (table : string) (columns : list string) : bool :=
  negb (existsb (String.eqb table) stamped_tables)
  || existsb (String.eqb stamped_column) columns.

End Schema.

Module Skills.

Local Open Scope string_scope.

(** [skillMappings]: question category to skill names. *)
Definition skillMappings : list (string * list string) :=
  [("Technical", ["Technical Skills"; "Problem Solving"]);
   ("Communication", ["Communication"; "Emotional Intelligence"]);
   ("Leadership", ["Leadership"; "Communication"]);
   ("Problem Solving", ["Problem Solving"; "Technical Skills"]);
   ("Behavioral", ["Emotional Intelligence"; "Communication"]);
   ("System Design", ["Technical Skills"; "Problem Solving"]);
   ("Database", ["Technical Skills"]);
   ("Best Practices", ["Technical Skills"; "Communication"]);
   ("UI/UX", ["Technical Skills"; "Communication"]);
   ("Architecture", ["Technical Skills"; "Problem Solving"]);
   ("Methodology", ["Problem Solving"; "Communication"]);
   ("Statistics", ["Technical Skills"; "Problem Solving"]);
   ("Strategy", ["Leadership"; "Problem Solving"]);
   ("Execution", ["Leadership"; "Communication"]);
   ("Decision Making", ["Leadership"; "Problem Solving"]);
   ("Collaboration", ["Communication"; "Emotional Intelligence"]);
   ("Process", ["Problem Solving"; "Communication"]);
   ("Research", ["Problem Solving"; "Communication"]);
   ("Accessibility", ["Technical Skills"; "Communication"]);
   ("CI/CD", ["Technical Skills"]);
   ("Monitoring", ["Technical Skills"; "Problem Solving"]);
   ("Infrastructure", ["Technical Skills"]);
   ("Troubleshooting", ["Problem Solving"; "Technical Skills"])].

(** [categories] of [getSkillCategory]: skill name to skill category. *)
Definition categories : list (string * string) :=
  [("Communication", "soft-skills");
   ("Technical Skills", "technical");
   ("Leadership", "soft-skills");
   ("Problem Solving", "technical");
   ("Emotional Intelligence", "soft-skills")].

(** The property names every object literal inherits from
    [Object.prototype]; a lookup [obj[key]] with one of them yields the
    inherited function or object, which is truthy. *)
Definition inherited_keys : list string :=
  ["constructor"; "__defineGetter__"; "__defineSetter__"; "hasOwnProperty";
   "__lookupGetter__"; "__lookupSetter__"; "isPrototypeOf";
   "propertyIsEnumerable"; "toString"; "valueOf"; "__proto__";
   "toLocaleString"].

Definition is_inherited (key : string) : bool :=
  existsb (String.eqb key) inherited_keys.

(** The own property [key] of an object literal. *)
Fixpoint own {A : Type} (table : list (string * A)) (key : string)
  : option A :=
  match table with
  | [] => None
  | (k, v) :: table' => if String.eqb k key then Some v else own table' key
  end.

(** The value of [obj[key] || fallback] for an object literal [obj] whose
    own values are all truthy. *)
Inductive Lookup (A : Type) : Type :=
| Value (a : A)
| InheritedMember.
Arguments Value {A} a.
Arguments InheritedMember {A}.

Definition get_or {A : Type} (table : list (string * A)) (key : string)
           (fallback : A) : Lookup A :=
  match own table key with
  | Some v => Value v
  | None => if is_inherited key then InheritedMember else Value fallback
  end.

(** [getSkillCategory]: [InheritedMember] stands for a result that is no
    string. *)
Definition getSkillCategory (skillName : string) : Lookup string :=
  get_or categories skillName "general".

(** [skillMappings[question_category] || ['Communication']]. *)
Definition skills_for (question_category : string) : Lookup (list string) :=
  get_or skillMappings question_category ["Communication"].

(** The columns of an [interview_responses] row [updateUserSkills] reads. *)
Record ResponseRow : Type := {
  evaluation_score : Q;
  question_category : string
}.

(** A value of the [skillUpdates] map. *)
Record SkillData : Type := {
  totalScore : Q;
  count : nat;
  xpGained : Z
}.

(** The [skillUpdates] map, in insertion order. *)
Definition SkillMap : Type := list (string * SkillData).

Definition has (m : SkillMap) (skillName : string) : bool :=
  existsb (fun kv => String.eqb (fst kv) skillName) m.

(** Change the entry of [skillName] in place. *)
Fixpoint adjust_entry (f : SkillData -> SkillData) (skillName : string)
         (m : SkillMap) : SkillMap :=
  match m with
  | [] => []
  | (k, v) :: m' =>
      if String.eqb k skillName then (k, f v) :: m'
      else (k, v) :: adjust_entry f skillName m'
  end.

Definition fresh : SkillData :=
  {| totalScore := 0; count := 0; xpGained := 0 |}.

(** What [skills.forEach] adds to a skill's entry: 1 XP per 10 points. *)
Definition bump (score : Q) (d : SkillData) : SkillData :=
  {| totalScore := totalScore d + score;
     count := S (count d);
     xpGained := (xpGained d + JS.round (score / 10))%Z |}.

(** The body of [skills.forEach]. *)
Definition credit (score : Q) (m : SkillMap) (skillName : string)
  : SkillMap :=
  let m := if has m skillName then m else (m ++ [(skillName, fresh)])%list in
  adjust_entry (bump score) skillName m.

(** The body of [responses.forEach]; [None] when [skills.forEach] is not
    a function and the call throws a TypeError. *)
Definition credit_response (m : SkillMap) (r : ResponseRow)
  : option SkillMap :=
  match skills_for (question_category r) with
  | Value skills => Some (fold_left (credit (evaluation_score r)) skills m)
  | InheritedMember => None
  end.

(** The first loop of [updateUserSkills]. *)
Fixpoint collect (m : SkillMap) (responses : list ResponseRow)
  : option SkillMap :=
  match responses with
  | [] => Some m
  | r :: responses' =>
      match credit_response m r with
      | Some m' => collect m' responses'
      | None => None
      end
  end.

(** One entry of [progress_history]; its date and source are left out. *)
Definition ProgressEntry : Type := Z.

(** A [user_skills] row of the user. *)
Record SkillRow : Type := {
  skill_name : string;
  skill_category : Lookup string;
  current_level : Z;
  current_xp : Z;
  total_xp : Z;
  progress_history : list ProgressEntry
}.

(** The select of the row named [skillName]. *)
Fixpoint existing (table : list SkillRow) (skillName : string)
  : option SkillRow :=
  match table with
  | [] => None
  | row :: table' =>
      if String.eqb (skill_name row) skillName then Some row
      else existing table' skillName
  end.

(** The update of the row named [skillName]. *)
Fixpoint replace_row (row' : SkillRow) (skillName : string)
         (table : list SkillRow) : list SkillRow :=
  match table with
  | [] => []
  | row :: table' =>
      if String.eqb (skill_name row) skillName then row' :: table'
      else row :: replace_row row' skillName table'
  end.

(** The row the route sends for an existing one: 100 XP per skill level. *)
Definition updated_row (existingSkill : SkillRow) (currentXP : Z)
  : SkillRow :=
  let newTotalXP := (total_xp existingSkill + currentXP)%Z in
  let newLevel := (JS.floor_div newTotalXP 100 + 1)%Z in
  {| skill_name := skill_name existingSkill;
     skill_category := skill_category existingSkill;
     current_level := newLevel;
     current_xp := Z.rem newTotalXP 100;
     total_xp := newTotalXP;
     progress_history :=
       (progress_history existingSkill ++ [currentXP])%list |}.

(** The row inserted for a skill that has none. *)
Definition inserted_row (skillName : string) (currentXP : Z) : SkillRow :=
  let currentLevel := (JS.floor_div currentXP 100 + 1)%Z in
  {| skill_name := skillName;
     skill_category := getSkillCategory skillName;
     current_level := currentLevel;
     current_xp := currentXP;
     total_xp := currentXP;
     progress_history := [currentXP] |}.

(** The update the route sends for an existing row, as the database
    answers it: applied when it passes the trigger of [user_skills],
    refused otherwise. The route does not look at the answer. *)
Definition run_update (row' : SkillRow) (skillName : string)
           (table : list SkillRow) : list SkillRow :=
  if Schema.update_passes "user_skills" Schema.user_skills
  then replace_row row' skillName table
  else table.

(** The body of the second loop: update the skill's row or insert it. *)
Definition write_skill (table : list SkillRow) (entry : string * SkillData)
  : list SkillRow :=
  let skillName := fst entry in
  let currentXP := xpGained (snd entry) in
  match existing table skillName with
  | Some existingSkill =>
      run_update (updated_row existingSkill currentXP) skillName table
  | None => (table ++ [inserted_row skillName currentXP])%list
  end.

(** [updateUserSkills] on the user's [user_skills] rows; [None] when the
    first loop throws, before any row is written. *)
Definition updateUserSkills (table : list SkillRow)
           (responses : list ResponseRow) : option (list SkillRow) :=
  match collect [] responses with
  | Some skillUpdates => Some (fold_left write_skill skillUpdates table)
  | None => None
  end.

(** The response [r] counts for the skill [skillName]. *)
Definition credits (skillName : string) (r : ResponseRow) : bool :=
  match skills_for (question_category r) with
  | Value skills => existsb (String.eqb skillName) skills
  | InheritedMember => false
  end.

(** [skillUpdates.get(skillName)] right after the map's entry was made
    sure of: the entry, or the fresh one. *)
Definition entry_or_fresh (o : option SkillData) : SkillData :=
  match o with Some d => d | None => fresh end.

(** What one response does to the entry of the skill [skillName]. *)
Definition step (skillName : string) (o : option SkillData)
           (r : ResponseRow) : option SkillData :=
  if credits skillName r
  then Some (bump (evaluation_score r) (entry_or_fresh o))
  else o.

(** The skill names [categories] knows. *)
Definition known_skill (name : string) : bool :=
  existsb (String.eqb name) (map fst categories).

(** The responses that count for the skill [skillName], in order. *)
Definition counted (skillName : string) (responses : list ResponseRow)
  : list ResponseRow :=
  filter (credits skillName) responses.

(** The XP the responses [rs] bring to one skill. *)
Definition xp_of (rs : list ResponseRow) : Z :=
  fold_right (fun r s => (JS.round (evaluation_score r / 10) + s)%Z) 0%Z rs.

(** The sum of the scores of [rs]. *)
Definition score_of (rs : list ResponseRow) : Q :=
  fold_right (fun r s => evaluation_score r + s) 0 rs.

(** The row of a skill after one write: the row it had, or the one
    inserted. *)
Definition written (old : option SkillRow) (name : string) (xp : Z)
  : SkillRow :=
  match old with
  | Some row => row
  | None => inserted_row name xp
  end.

(** The rows inserted for the entries of [skillUpdates] whose skill has
    no row in [table]. *)
Definition inserted (table : list SkillRow) (skillUpdates : SkillMap)
  : list SkillRow :=
  map (fun entry => inserted_row (fst entry) (xpGained (snd entry)))
      (filter (fun entry =>
                 match existing table (fst entry) with
                 | Some _ => false
                 | None => true
                 end) skillUpdates).

Definition skill_names (table : list SkillRow) : list string :=
  map skill_name table.

Definition history_total (h : list ProgressEntry) : Z :=
  fold_right Z.add 0%Z h.

(** What the rows of the table keep: the total is the sum of the
    history entries and the level is computed from the total. *)
Definition row_consistent (row : SkillRow) : Prop :=
  total_xp row = history_total (progress_history row) /\
  current_level row = (total_xp row / 100 + 1)%Z.

End Skills.

(* ------------------------------------------------------------------ *)
(** ** The interview-responses route handler and a whole interview *)

Module Session.

(** An [interview_responses] row of the session, without its ids, audio
    url and transcript. *)
Record StoredResponse : Type := {
  question_id : string;
  question_text : string;
  question_category : string;
  question_difficulty : Q;
  response_text : string;
  response_time : Q;
  evaluation : Responses.EvaluationResponse
}.

(** What the backend does with the responses route's queries: whether
    the token names a user, whether the insert fails, whether the select
    of the session's response ids fails. *)
Record SubmitEnv : Type := {
  submit_authorized : bool;
  insertError : bool;
  countError : bool
}.

Inductive SubmitResponse : Type :=
| Submit401
| Submit400
| Submit500
| Submit200 (evaluation : Responses.EvaluationResponse).

(** The session as the responses route sees it: its response rows and
    the two counters of its [interview_sessions] row. *)
Record Submitted : Type := {
  rows : list StoredResponse;
  responses_count : nat;
  questions_count : nat
}.

(** [!s] for a string. *)
Definition missing (s : string) : bool :=
  match s with
  | EmptyString => true
  | String _ _ => false
  end.

Definition store (body : Responses.EvaluationRequest)
           (e : Responses.EvaluationResponse) : StoredResponse :=
  {| question_id := Responses.questionId body;
     question_text := Responses.questionText body;
     question_category := Responses.questionCategory body;
     question_difficulty := Responses.questionDifficulty body;
     response_text := Responses.responseText body;
     response_time := Responses.responseTime body;
     evaluation := e |}.

(** The responses route handler. The session update, whose result the
    route does not inspect, is applied. *)
Definition submit (env : SubmitEnv) (body : Responses.EvaluationRequest)
           (st : Submitted) : SubmitResponse * Submitted :=
  if negb (submit_authorized env) then (Submit401, st)
  else if missing (Responses.questionId body)
          || missing (Responses.questionText body)
          || missing (Responses.responseText body)
  then (Submit400, st)
  else
    let evaluation := Responses.evaluateAnswer body in
    if insertError env then (Submit500, st)
    else
      let rows' := rows st ++ [store body evaluation] in
      let n := if countError env then 0%nat else length rows' in
      (Submit200 evaluation,
       {| rows := rows'; responses_count := n; questions_count := n |}).

(** A session just started: no response, both counters 0. *)
Definition started : Submitted :=
  {| rows := []; responses_count := 0; questions_count := 0 |}.

(** Any number of requests to the responses route, one after another. *)
Definition submit_all (st : Submitted)
           (requests : list (SubmitEnv * Responses.EvaluationRequest))
  : Submitted :=
  fold_left (fun st er => snd (submit (fst er) (snd er) st)) requests st.

(** The row as the complete route reads it. *)
Definition scored (r : StoredResponse) : Complete.ResponseRow :=
  {| Complete.evaluation_score := inject_Z (Responses.score (evaluation r));
     Complete.question_difficulty := question_difficulty r |}.

(** The row as [updateUserSkills] reads it. *)
Definition skilled (r : StoredResponse) : Skills.ResponseRow :=
  {| Skills.evaluation_score := inject_Z (Responses.score (evaluation r));
     Skills.question_category := question_category r |}.

(** Everything the complete route reads and writes for one user and one
    session. *)
Record State : Type := {
  stored : list StoredResponse;
  session_row : Complete.SessionRow;
  profile : option Complete.UserProfile;
  achievements : list Achievements.Achievement;
  skills : list Skills.SkillRow
}.

Definition tables (st : State) : Complete.DB :=
  {| Complete.responses := map scored (stored st);
     Complete.session := session_row st;
     Complete.user := profile st |}.

(** The complete route handler on a body read with the number
    [totalDuration] ([POST] below starts from the request), with its two
    follow-up steps: after the [users] update it unlocks achievements
    and updates skills, when the profile row exists; an exception in
    [updateUserSkills] is caught by the handler's [try] and answered
    with 500, after the earlier writes. *)
Definition complete (env : Complete.Env) (totalDuration : Q) (st : State)
  : Complete.HttpResponse * State :=
  match Complete.POST env totalDuration (tables st) with
  | (Complete.Json200 overallScore xpEarned n, db') =>
      match Complete.user db' with
      | Some u' =>
          let achievements' :=
            Achievements.checkAndUnlockAchievements
              (achievements st) overallScore n (Complete.level u') in
          match Skills.updateUserSkills (skills st)
                                        (map skilled (stored st)) with
          | Some skills' =>
              (Complete.Json200 overallScore xpEarned n,
               {| stored := stored st;
                  session_row := Complete.session db';
                  profile := Some u';
                  achievements := achievements';
                  skills := skills' |})
          | None =>
              (Complete.Json500,
               {| stored := stored st;
                  session_row := Complete.session db';
                  profile := Some u';
                  achievements := achievements';
                  skills := skills st |})
          end
      | None =>
          (Complete.Json200 overallScore xpEarned n,
           {| stored := stored st;
              session_row := Complete.session db';
              profile := None;
              achievements := achievements st;
              skills := skills st |})
      end
  | (response, _) => (response, st)
  end.

(** What the complete route finds in the request body: [request.json()]
    rejects a body that is no JSON, destructuring the value [null]
    throws, and a body with a number as [totalDuration] is read. *)
Inductive CompleteBody : Type :=
| NoJson
| JsonNull
| Duration (totalDuration : Q).

Definition unreadable (body : CompleteBody) : bool :=
  match body with
  | Duration _ => false
  | NoJson | JsonNull => true
  end.

(** The complete route handler from the request on. The bearer token is
    checked before the body is read; [request.json()] and the
    destructuring of its value sit inside the handler's [try], so a body
    that cannot be read is answered 500 by the [catch], before any
    query. *)
Definition POST (env : Complete.Env) (body : CompleteBody) (st : State)
  : Complete.HttpResponse * State :=
  if negb (Complete.authorized env) then (Complete.Json401, st)
  else
    match body with
    | Duration totalDuration => complete env totalDuration st
    | NoJson | JsonNull => (Complete.Json500, st)
    end.

(** The request passes the checks of the responses route and its row is
    inserted. *)
Definition kept (er : SubmitEnv * Responses.EvaluationRequest) : bool :=
  submit_authorized (fst er)
  && negb (missing (Responses.questionId (snd er))
           || missing (Responses.questionText (snd er))
           || missing (Responses.responseText (snd er)))
  && negb (insertError (fst er)).

(** The row the responses route inserts for a request. *)
Definition stored_row (er : SubmitEnv * Responses.EvaluationRequest)
  : StoredResponse :=
  store (snd er) (Responses.evaluateAnswer (snd er)).

(** The value of the session's counters after the requests [kept_requests]
    were stored: the count of the last of them, 0 when its count query
    gave no rows. *)
Definition counted_last
           (kept_requests : list (SubmitEnv * Responses.EvaluationRequest))
  : nat :=
  match rev kept_requests with
  | [] => 0
  | er :: _ => if countError (fst er) then 0 else length kept_requests
  end.

(** What every row stored by the responses route satisfies. *)
Definition well_stored (r : StoredResponse) : Prop :=
  question_id r <> EmptyString /\
  question_text r <> EmptyString /\
  response_text r <> EmptyString /\
  evaluation r
  = Responses.evaluateAnswer
      {| Responses.questionId := question_id r;
         Responses.questionText := question_text r;
         Responses.questionCategory := question_category r;
         Responses.questionDifficulty := question_difficulty r;
         Responses.responseText := response_text r;
         Responses.responseTime := response_time r |} /\
  (0 <= Responses.score (evaluation r) <= 100)%Z.

Definition counters_agree (st : Submitted) : Prop :=
  questions_count st = responses_count st /\
  (responses_count st = length (rows st) \/ responses_count st = 0%nat).

(** Some stored response has a category that object literals inherit. *)
Definition has_inherited_category (st : State) : bool :=
  existsb (fun r => Skills.is_inherited (question_category r)) (stored st).

(** The user has a profile row. *)
Definition has_profile (st : State) : bool :=
  match profile st with
  | Some _ => true
  | None => false
  end.

End Session.

(* ------------------------------------------------------------------ *)
(** ** The stand-alone evaluate route, the stats route and the streak *)

Module Evaluate.

Local Open Scope string_scope.

Record EvaluationRequest : Type := {
  question : string;
  answer : string;
  category : string;
  roleId : string
}.

Definition technical_terms : list string :=
  ["api"; "database"; "framework"; "algorithm"; "design"; "user"; "data";
   "system"].

Definition wordCount (req : EvaluationRequest) : nat :=
  JS.split_length " "%char (answer req).

Definition hasExamples (req : EvaluationRequest) : bool :=
  JS.includes "example" (JS.toLowerCase (answer req)) ||
  JS.includes "experience" (JS.toLowerCase (answer req)).

Definition hasTechnicalTerms (req : EvaluationRequest) : bool :=
  JS.test_words technical_terms (answer req).

(** The category adjustments. *)
Definition technical_bonus (req : EvaluationRequest) : bool :=
  String.eqb (category req) "Technical" && hasTechnicalTerms req.

Definition communication_bonus (req : EvaluationRequest) : bool :=
  String.eqb (category req) "Communication" && (100 <? wordCount req)%nat.

(** The four scores, which this route does not clamp after adjusting. *)
Definition scores (req : EvaluationRequest) : Responses.Components :=
  let wc := wordCount req in
  let clarity := JS.min 100 ((JS.of_nat wc / 50) * 100) in
  let relevance := if hasTechnicalTerms req then 85 else 60 in
  let depth := if hasExamples req then 90 else 70 in
  let communication := if (30 <? wc)%nat then 85 else 60 in
  let relevance := Responses.add_if (technical_bonus req) 10 relevance in
  let depth := Responses.add_if (technical_bonus req) 5 depth in
  let communication :=
    Responses.add_if (communication_bonus req) 10 communication in
  let clarity := Responses.add_if (communication_bonus req) 5 clarity in
  {| Responses.c_clarity := clarity;
     Responses.c_relevance := relevance;
     Responses.c_depth := depth;
     Responses.c_communication := communication |}.

Definition advice_clarity : string :=
  "Try to structure your answer more clearly".
Definition advice_relevance : string :=
  "Include more relevant technical details".
Definition advice_depth : string :=
  "Provide specific examples from your experience".
Definition advice_communication : string :=
  "Expand on your answer with more detail".

Definition build_strengths (c : Responses.Components) : list string :=
  let s := [] in
  let s := Responses.push_if (JS.gtb (Responses.c_clarity c) 80)
             "Clear and well-structured response" s in
  let s := Responses.push_if (JS.gtb (Responses.c_relevance c) 80)
             "Relevant technical knowledge demonstrated" s in
  let s := Responses.push_if (JS.gtb (Responses.c_depth c) 80)
             "Good use of examples and experience" s in
  Responses.push_if (JS.gtb (Responses.c_communication c) 80)
                    "Strong communication skills" s.

Definition build_improvements (c : Responses.Components) : list string :=
  let i := [] in
  let i := Responses.push_if (JS.ltb (Responses.c_clarity c) 70)
             advice_clarity i in
  let i := Responses.push_if (JS.ltb (Responses.c_relevance c) 70)
             advice_relevance i in
  let i := Responses.push_if (JS.ltb (Responses.c_depth c) 70)
             advice_depth i in
  Responses.push_if (JS.ltb (Responses.c_communication c) 70)
                    advice_communication i.

Definition feedback_for (overall : Z) : string :=
  if (90 <=? overall)%Z then
    "Excellent response! You demonstrated strong knowledge and communication skills."
  else if (80 <=? overall)%Z then
    "Good answer with solid understanding. Minor improvements could make it even stronger."
  else if (70 <=? overall)%Z then
    "Decent response, but there's room for improvement in depth and clarity."
  else
    "Your answer needs more development. Focus on providing specific examples and clearer explanations.".

Definition evaluateAnswer (req : EvaluationRequest)
  : Responses.EvaluationResponse :=
  let c := scores req in
  let overall := Responses.overallScore c in
  {| Responses.score := overall;
     Responses.feedback := feedback_for overall;
     Responses.strengths := build_strengths c;
     Responses.improvements := build_improvements c;
     Responses.detailedAnalysis :=
       {| Responses.clarity := JS.round (Responses.c_clarity c);
          Responses.relevance := JS.round (Responses.c_relevance c);
          Responses.depth := JS.round (Responses.c_depth c);
          Responses.communication :=
            JS.round (Responses.c_communication c) |} |}.

End Evaluate.

(** IEEE 754 binary64, the format of a JavaScript number, for the one
    computation below whose rounding shows in the result. *)
Module Double.

Definition prec : Z := 53.
Definition emax : Z := 1024.

(** The double of an integer literal or integer column value: the
    integer itself when it is below 2^53 in absolute value. *)
Definition of_Z (z : Z) : spec_float := binary_normalize prec emax z 0 false.

(** [a / b] and [a * b], rounded to the nearest double, ties to even. *)
Definition div (a b : spec_float) : spec_float := SFdiv prec emax a b.
Definition mul (a b : spec_float) : spec_float := SFmul prec emax a b.

(** [a + b], rounded likewise. *)
Definition add (a b : spec_float) : spec_float := SFadd prec emax a b.

(** The double nearest to a rational whose numerator and denominator are
    below 2^53. *)
Definition of_Q (q : Q) : spec_float :=
  div (of_Z (Qnum q)) (of_Z (Zpos (Qden q))).

(** The rational a finite double stands for. *)
Definition to_Q (x : spec_float) : option Q :=
  match x with
  | S754_zero _ => Some 0
  | S754_finite s m e => Some (inject_Z (cond_Zopp s (Zpos m)) * Qpower 2 e)
  | S754_infinity _ | S754_nan => None
  end.

(** [Math.round] of a finite double, as an integer; [None] for NaN and
    the infinities, which [Math.round] returns unchanged. *)
Definition round (x : spec_float) : option Z := option_map JS.round (to_Q x).

End Double.

(** The score and XP arithmetic of the complete route in doubles. *)
Module CompleteDouble.

(** [responses.reduce((sum, r) => sum + f(r), 0)]. *)
Definition reduce_sum (f : Complete.ResponseRow -> spec_float)
           (rs : list Complete.ResponseRow) : spec_float :=
  fold_left (fun sum r => Double.add sum (f r)) rs (Double.of_Z 0).

Definition overallScore (rs : list Complete.ResponseRow) : option Z :=
  Double.round
    (Double.div
       (reduce_sum (fun r => Double.of_Q (Complete.evaluation_score r)) rs)
       (Double.of_Z (Z.of_nat (length rs)))).

Definition difficultyBonus (rs : list Complete.ResponseRow) : spec_float :=
  reduce_sum (fun r => Double.mul
                         (Double.of_Q (Complete.question_difficulty r))
                         (Double.of_Z 10)) rs.

Definition xpEarned (rs : list Complete.ResponseRow) : option Z :=
  match overallScore rs with
  | Some overallScore =>
      let baseXP := Double.of_Z 100 in
      let scoreMultiplier :=
        Double.div (Double.of_Z overallScore) (Double.of_Z 100) in
      Double.round
        (Double.add (Double.mul baseXP scoreMultiplier) (difficultyBonus rs))
  | None => None
  end.

End CompleteDouble.

Module Stats.

(** [userProfile?.total_xp || 0] and [userProfile?.level || 1]; both are
    INTEGER columns. *)
Definition totalXP (p : option Complete.UserProfile) : Z :=
  match p with
  | Some u => Complete.total_xp u
  | None => 0
  end.

Definition currentLevel (p : option Complete.UserProfile) : Z :=
  match p with
  | Some u => if (Complete.level u =? 0)%Z then 1 else Complete.level u
  | None => 1
  end.

Definition xpForNextLevel (p : option Complete.UserProfile) : Z :=
  (currentLevel p * 1000)%Z.

(** [((totalXP % 1000) / 1000) * 100] for the remainder [r] of
    [totalXP % 1000], which is exact on integers: the quotient and the
    product are each rounded to a double. *)
Definition percent (r : Z) : spec_float :=
  Double.mul (Double.div (Double.of_Z r) (Double.of_Z 1000))
             (Double.of_Z 100).

(** The [progressToNextLevel] the stats route returns, rounded. *)
Definition progressToNextLevel (p : option Complete.UserProfile)
  : option Z :=
  Double.round (percent (Z.rem (totalXP p) 1000)).

(** The XP amounts within a level at which the exact percentage ends in
    .5 and the double product lies just below it. *)
Definition falls_short (gained : Z) : bool :=
  existsb (Z.eqb gained) [145; 285; 565; 575]%Z.

(** The percentage of [gained] XP out of 1000, rounded half up, less one
    where the double falls short. *)
Definition shown (gained : Z) : Z :=
  ((gained + 5) / 10 - (if falls_short gained then 1 else 0))%Z.

End Stats.

Module Streak.

(** An [interview_sessions] row as [calculateStreak] reads it: whether
    its status is 'completed', and [completed_at] as the milliseconds
    [new Date(...).getTime()] gives for a value that parses as a date
    (an unparsable one gives NaN, which is left out here). *)
Record SessionRow : Type := {
  is_completed : bool;
  completed_at : Z
}.

Definition day : Z := 1000 * 60 * 60 * 24.

(** Sorting by [b - a] on the times: latest first. The streak reads
    nothing but the times of the sorted rows. *)
Fixpoint insert_desc (t : Z) (l : list Z) : list Z :=
  match l with
  | [] => [t]
  | y :: l' => if (y <=? t)%Z then t :: l else y :: insert_desc t l'
  end.

Definition sort_desc (l : list Z) : list Z := fold_right insert_desc [] l.

Definition completed_times (sessions : list SessionRow) : list Z :=
  sort_desc (map completed_at (filter is_completed sessions)).

(** The loop from [i = 1]: [currentDate], the rows left, the streak. *)
Fixpoint count_from (currentDate : Z) (rest : list Z) (streak : nat) : nat :=
  match rest with
  | [] => streak
  | sessionDate :: rest' =>
      if (JS.floor_div (currentDate - sessionDate) day =? 1)%Z
      then count_from sessionDate rest' (S streak)
      else streak
  end.

Definition calculateStreak (sessions : list SessionRow) : nat :=
  match completed_times sessions with
  | [] => 0
  | first :: rest => count_from first rest 1
  end.

(** Each of the first [k] times of the list lies at least one day and
    less than two days after the next one. *)
Fixpoint daily (times : list Z) (k : nat) : Prop :=
  match k, times with
  | O, _ => True
  | S k', a :: ((b :: _) as rest) =>
      (day <= a - b < 2 * day)%Z /\ daily rest k'
  | S _, _ => False
  end.

End Streak.

(* ------------------------------------------------------------------ *)
(** ** More sample inputs *)

Module Cases.

Local Open Scope string_scope.

(** Three responses of one session: the first and the third count for
    "Technical Skills", the second has a category [skillMappings] does
    not list. *)
Definition three_responses : list Skills.ResponseRow :=
  [ {| Skills.evaluation_score := 75;
       Skills.question_category := "Technical" |};
    {| Skills.evaluation_score := 42;
       Skills.question_category := "Teamwork" |};
    {| Skills.evaluation_score := 100;
       Skills.question_category := "Database" |} ].

(** The skill rows a user without any has after [three_responses]. *)
Definition first_skills : list Skills.SkillRow :=
  [ {| Skills.skill_name := "Technical Skills";
       Skills.skill_category := Skills.Value "technical";
       Skills.current_level := 1;
       Skills.current_xp := 18;
       Skills.total_xp := 18;
       Skills.progress_history := [18%Z] |};
    {| Skills.skill_name := "Problem Solving";
       Skills.skill_category := Skills.Value "technical";
       Skills.current_level := 1;
       Skills.current_xp := 8;
       Skills.total_xp := 8;
       Skills.progress_history := [8%Z] |};
    {| Skills.skill_name := "Communication";
       Skills.skill_category := Skills.Value "soft-skills";
       Skills.current_level := 1;
       Skills.current_xp := 4;
       Skills.total_xp := 4;
       Skills.progress_history := [4%Z] |} ].

(** The only skill row of a user who practised before. *)
Definition lone_skill : list Skills.SkillRow :=
  [ {| Skills.skill_name := "Technical Skills";
       Skills.skill_category := Skills.Value "technical";
       Skills.current_level := 1;
       Skills.current_xp := 30;
       Skills.total_xp := 30;
       Skills.progress_history := [30%Z] |} ].

(** The rows of that user after [three_responses]: the row that was
    there, and two new ones. *)
Definition second_skills : list Skills.SkillRow :=
  [ {| Skills.skill_name := "Technical Skills";
       Skills.skill_category := Skills.Value "technical";
       Skills.current_level := 1;
       Skills.current_xp := 30;
       Skills.total_xp := 30;
       Skills.progress_history := [30%Z] |};
    {| Skills.skill_name := "Problem Solving";
       Skills.skill_category := Skills.Value "technical";
       Skills.current_level := 1;
       Skills.current_xp := 8;
       Skills.total_xp := 8;
       Skills.progress_history := [8%Z] |};
    {| Skills.skill_name := "Communication";
       Skills.skill_category := Skills.Value "soft-skills";
       Skills.current_level := 1;
       Skills.current_xp := 4;
       Skills.total_xp := 4;
       Skills.progress_history := [4%Z] |} ].

(** The terse answer in a body without a questionDifficulty, and in one
    whose questionDifficulty is too large for a double. *)
Definition unrated_request : AnyNumber.EvaluationRequest :=
  {| AnyNumber.questionId := "q1";
     AnyNumber.questionText := "How would you design a cache?";
     AnyNumber.questionCategory := "Technical";
     AnyNumber.questionDifficulty := JSNumber.NaN;
     AnyNumber.responseText := "I dont know";
     AnyNumber.responseTime := 5 |}.

Definition overrated_request : AnyNumber.EvaluationRequest :=
  {| AnyNumber.questionId := "q1";
     AnyNumber.questionText := "How would you design a cache?";
     AnyNumber.questionCategory := "Technical";
     AnyNumber.questionDifficulty := JSNumber.PosInf;
     AnyNumber.responseText := "I dont know";
     AnyNumber.responseTime := 5 |}.

Definition open_env : Session.SubmitEnv :=
  {| Session.submit_authorized := true;
     Session.insertError := false;
     Session.countError := false |}.

(** The terse answer, filed under a category named like an inherited
    property. *)
Definition odd_request : Responses.EvaluationRequest :=
  {| Responses.questionId := "q2";
     Responses.questionText := "What does new do?";
     Responses.questionCategory := "constructor";
     Responses.questionDifficulty := 2;
     Responses.responseText := "I dont know";
     Responses.responseTime := 7 |}.

Definition state_of (requests : list Responses.EvaluationRequest)
  : Session.State :=
  {| Session.stored :=
       Session.rows
         (Session.submit_all Session.started
            (map (fun r => (open_env, r)) requests));
     Session.session_row := Complete.session Samples.fresh_db;
     Session.profile := Some Complete.new_profile;
     Session.achievements := [];
     Session.skills := [] |}.

End Cases.

(* ------------------------------------------------------------------ *)
(** * Properties *)

(** ** Arithmetic of the JavaScript primitives *)

Module JSFacts.

Lemma max_spec (a b : Q) :
  JS.max a b == a /\ b <= a \/ JS.max a b == b /\ a <= b.
Proof.
  unfold JS.max. destruct (Qle_bool a b) eqn:E.
  - right. split; [reflexivity | now apply Qle_bool_iff].
  - left. split; [reflexivity|].
    apply Qlt_le_weak, Qnot_le_lt. intro H.
    apply Qle_bool_iff in H. congruence.
Qed.

Lemma min_spec (a b : Q) :
  JS.min a b == a /\ a <= b \/ JS.min a b == b /\ b <= a.
Proof.
  unfold JS.min. destruct (Qle_bool a b) eqn:E.
  - left. split; [reflexivity | now apply Qle_bool_iff].
  - right. split; [reflexivity|].
    apply Qlt_le_weak, Qnot_le_lt. intro H.
    apply Qle_bool_iff in H. congruence.
Qed.

Lemma round_nonneg (x : Q) : 0 <= x -> (0 <= JS.round x)%Z.
Proof.
  intros H. unfold JS.round.
  change 0%Z with (Qfloor (1 # 2)). apply Qfloor_resp_le. lra.
Qed.

Lemma round_range (x : Q) :
  0 <= x -> x <= 100 -> (0 <= JS.round x <= 100)%Z.
Proof.
  intros H0 H1. split; [now apply round_nonneg|].
  unfold JS.round.
  change 100%Z with (Qfloor (100 + (1 # 2))). apply Qfloor_resp_le. lra.
Qed.

End JSFacts.

(** ** [evaluateAnswer] *)

Module ResponsesFacts.

Import Responses Ranking.

Lemma adjust_range (m x : Q) : 0 <= adjust m x /\ adjust m x <= 100.
Proof.
  unfold adjust.
  destruct (JSFacts.max_spec 0 (x * m)) as [[E1 H1]|[E1 H1]];
    destruct (JSFacts.min_spec 100 (JS.max 0 (x * m)))
      as [[E2 H2]|[E2 H2]]; lra.
Qed.

Lemma push_if_length (b : bool) (msg : string) (xs : list string) :
  (length (push_if b msg xs) <= S (length xs))%nat.
Proof.
  destruct b; simpl; [rewrite length_app; simpl|]; lia.
Qed.

Lemma feedback_for_nonempty (overall : Z) :
  feedback_for overall <> EmptyString.
Proof.
  unfold feedback_for.
  destruct (90 <=? overall)%Z; [discriminate|].
  destruct (80 <=? overall)%Z; [discriminate|].
  destruct (70 <=? overall)%Z; [discriminate|].
  destruct (60 <=? overall)%Z; discriminate.
Qed.

Lemma select_subsequence (bs : list bool) (xs : list string) :
  subsequence (select bs xs) xs.
Proof.
  revert bs. induction xs as [|x xs IH]; intros [|b bs]; simpl;
    try apply sub_nil.
  destruct b; [apply sub_keep | apply sub_skip]; apply IH.
Qed.

(** For a finite difficulty, [evaluateAnswer] returns an overall score
    and four detailed-analysis components that are integers between 0
    and 100: each component is the rounding of its base score multiplied
    by the difficulty multiplier and clamped to [0,100], and the overall
    score is the rounded mean of the four clamped components. *)
Theorem evaluateAnswer_scores_in_range (req : EvaluationRequest) :
  let r := evaluateAnswer req in
  let m := difficultyMultiplier req in
  let b := base_scores req in
  let c := adjusted_scores req in
  ((0 <= score r <= 100)%Z /\
   (0 <= clarity (detailedAnalysis r) <= 100)%Z /\
   (0 <= relevance (detailedAnalysis r) <= 100)%Z /\
   (0 <= depth (detailedAnalysis r) <= 100)%Z /\
   (0 <= communication (detailedAnalysis r) <= 100)%Z) /\
  (c_clarity c = JS.min 100 (JS.max 0 (c_clarity b * m)) /\
   c_relevance c = JS.min 100 (JS.max 0 (c_relevance b * m)) /\
   c_depth c = JS.min 100 (JS.max 0 (c_depth b * m)) /\
   c_communication c = JS.min 100 (JS.max 0 (c_communication b * m))) /\
  (clarity (detailedAnalysis r) = JS.round (c_clarity c) /\
   relevance (detailedAnalysis r) = JS.round (c_relevance c) /\
   depth (detailedAnalysis r) = JS.round (c_depth c) /\
   communication (detailedAnalysis r) = JS.round (c_communication c)) /\
  score r =
    JS.round ((c_clarity c + c_relevance c + c_depth c + c_communication c)
              / 4).
Proof.
  intros r m b c.
  assert (Hc : 0 <= c_clarity c /\ c_clarity c <= 100)
    by apply adjust_range.
  assert (Hr : 0 <= c_relevance c /\ c_relevance c <= 100)
    by apply adjust_range.
  assert (Hd : 0 <= c_depth c /\ c_depth c <= 100)
    by apply adjust_range.
  assert (Hm : 0 <= c_communication c /\ c_communication c <= 100)
    by apply adjust_range.
  assert (Hmean :
            0 <= (c_clarity c + c_relevance c + c_depth c
                  + c_communication c) / 4 /\
            (c_clarity c + c_relevance c + c_depth c
             + c_communication c) / 4 <= 100).
  { split; [apply Qle_shift_div_l | apply Qle_shift_div_r];
      try reflexivity; lra. }
  split; [|split; [|split]].
  - repeat split; apply JSFacts.round_range; tauto.
  - repeat split.
  - repeat split.
  - reflexivity.
Qed.

(** C8 (as stated) fails: the terse answer receives six improvement
    suggestions, more than five. *)
Lemma six_improvements_for_terse_answer :
  improvements (evaluateAnswer Samples.terse_request) = all_improvements /\
  ~ (length (improvements (evaluateAnswer Samples.terse_request)) <= 5)%nat.
Proof.
  assert (E : improvements (evaluateAnswer Samples.terse_request)
              = all_improvements) by (vm_compute; reflexivity).
  split; [exact E|]. rewrite E. simpl. lia.
Qed.

(** C8 (amended). For every request, the feedback summary is a
    non-empty string and the improvement list has at most six entries. *)
Theorem evaluateAnswer_feedback_nonempty_improvements_bounded
        (req : EvaluationRequest) :
  feedback (evaluateAnswer req) <> EmptyString /\
  (length (improvements (evaluateAnswer req)) <= 6)%nat.
Proof.
  split.
  - apply feedback_for_nonempty.
  - change (improvements (evaluateAnswer req))
      with (build_improvements req (adjusted_scores req)).
    unfold build_improvements.
    repeat (etransitivity; [apply push_if_length|apply le_n_S]).
    simpl. lia.
Qed.

(** C5 (as stated) fails: for the terse answer the depth suggestion
    (score 56) is listed before the communication suggestion (score 48),
    so the list is not ordered worst component first. *)
Lemma improvements_not_worst_first :
  addressed_scores (adjusted_scores Samples.terse_request)
                   (improvements (evaluateAnswer Samples.terse_request))
    = [c_clarity (adjusted_scores Samples.terse_request);
       c_relevance (adjusted_scores Samples.terse_request);
       c_depth (adjusted_scores Samples.terse_request);
       c_communication (adjusted_scores Samples.terse_request)] /\
  c_communication (adjusted_scores Samples.terse_request)
    < c_depth (adjusted_scores Samples.terse_request) /\
  worst_first Samples.terse_request = false.
Proof.
  split; [vm_compute; reflexivity|].
  split; [vm_compute; reflexivity|].
  vm_compute; reflexivity.
Qed.

(** C5 (amended). For every request, the improvement list consists of
    the suggestions whose condition holds, always in the fixed order
    clarity, relevance, depth, communication, answer length, examples;
    the order does not depend on the scores. *)
Theorem improvements_in_fixed_order (req : EvaluationRequest) :
  improvements (evaluateAnswer req)
    = select (improvement_conditions req) all_improvements /\
  subsequence (improvements (evaluateAnswer req)) all_improvements.
Proof.
  assert (E : improvements (evaluateAnswer req)
              = select (improvement_conditions req) all_improvements).
  { change (improvements (evaluateAnswer req))
      with (build_improvements req (adjusted_scores req)).
    unfold build_improvements, improvement_conditions.
    generalize (adjusted_scores req). intros c.
    destruct (JS.ltb (c_clarity c) 70);
      destruct (JS.ltb (c_relevance c) 70);
      destruct (JS.ltb (c_depth c) 70);
      destruct (JS.ltb (c_communication c) 70);
      destruct (wordCount req <? 50)%nat;
      destruct (negb (hasExamples req)); reflexivity. }
  split; [exact E|]. rewrite E. apply select_subsequence.
Qed.

End ResponsesFacts.

(** ** The interview-complete route *)

Module CompleteFacts.

Import Complete.

Lemma fold_sum_nonneg (f : ResponseRow -> Q) (rs : list ResponseRow) :
  Forall (fun r => 0 <= f r) rs ->
  forall acc, 0 <= acc -> 0 <= fold_left (fun sum r => sum + f r) rs acc.
Proof.
  induction 1 as [|r rs Hr _ IH]; intros acc Hacc; simpl.
  - exact Hacc.
  - apply IH. lra.
Qed.

Lemma reduce_sum_nonneg (f : ResponseRow -> Q) (rs : list ResponseRow) :
  Forall (fun r => 0 <= f r) rs -> 0 <= reduce_sum f rs.
Proof.
  intros H. unfold reduce_sum. apply fold_sum_nonneg; [exact H | lra].
Qed.




(** A 200 response means the route ran to its end on a non-empty
    response list. *)
Lemma POST_success (env : Env) (dur : Q) (db db' : DB)
      (os xp : Z) (n : nat) :
  POST env dur db = (Json200 os xp n, db') ->
  responses db <> [] /\
  os = overallScore (responses db) /\
  xp = xpEarned (responses db) /\
  n = length (responses db) /\
  user db' = option_map (award xp) (user db).
Proof.
  unfold POST.
  destruct (negb (authorized env)); [discriminate|].
  destruct (responsesError env || (length (responses db) =? 0)%nat)
    eqn:E; [discriminate|].
  destruct (updateError env); [discriminate|].
  intros H. injection H as <- <- <- <-.
  apply orb_false_iff in E. destruct E as [_ E].
  apply Nat.eqb_neq in E.
  repeat split; try reflexivity.
  intros Hnil. rewrite Hnil in E. simpl in E. congruence.
Qed.

(** With a valid token, working queries and at least one response the
    route answers 200 and awards the XP to the profile. *)
Lemma POST_succeeds (dur : Q) (db : DB) :
  responses db <> [] ->
  POST {| authorized := true; responsesError := false;
          updateError := false |} dur db
  = (Json200 (overallScore (responses db)) (xpEarned (responses db))
             (length (responses db)),
     {| responses := responses db;
        session :=
          {| completed := true;
             total_duration := dur;
             overall_score := overallScore (responses db);
             questions_count := length (responses db);
             responses_count := length (responses db);
             xp_earned := xpEarned (responses db) |};
        user := option_map (award (xpEarned (responses db))) (user db) |}).
Proof.
  intros Hne. unfold POST. simpl.
  destruct (responses db) as [|r rs]; [congruence|reflexivity].
Qed.

(** Every profile the system writes has a level that agrees with its
    XP: the one inserted at sign-up and the one every award writes. *)
Lemma new_profile_consistent : level_consistent new_profile.
Proof. reflexivity. Qed.

Lemma award_consistent (xp : Z) (u : UserProfile) :
  level_consistent (award xp u).
Proof. reflexivity. Qed.

Lemma level_consistent_not_ahead (u : UserProfile) :
  level_consistent u -> level_not_ahead u.
Proof. unfold level_consistent, level_not_ahead. lia. Qed.




End CompleteFacts.

(** ** The speech-analysis contracts *)

Module SpeechFacts.

Import Speech.

Lemma load_thresholds_valid (o : Overrides) :
  (forall d, valid_threshold (configured o d) = true) ->
  exists t, load_thresholds o = Ok t /\
            forall d, threshold t d = configured o d.
Proof.
  intros H. unfold load_thresholds.
  replace (forallb (fun d => valid_threshold (configured o d)) dimensions)
    with true.
  - eexists. split; [reflexivity|]. intros []; reflexivity.
  - symmetry. apply forallb_forall. intros d _. apply H.
Qed.

Lemma keep_segments_all_short (min_duration : Q)
      (segs : list VoiceSegment) :
  Forall (fun s => duration s < min_duration) segs ->
  keep_segments min_duration segs = [].
Proof.
  induction 1 as [|s segs Hs _ IH]; simpl; [reflexivity|].
  destruct (Qle_bool min_duration (duration s)) eqn:E.
  - apply Qle_bool_iff in E. lra.
  - exact IH.
Qed.

(** C4. Feedback generation compares every dimension with its own
    threshold: nervousness passes at or below it, confidence, fluency,
    pace and tone at or above it. Without overrides the thresholds are
    0.7 (confidence), 0.6 (nervousness), 0.6 (fluency), 0.5 (pace) and
    0.5 (tone); any valid override replaces the threshold of its
    dimension, and one verdict per dimension is produced. *)
Theorem generate_compares_with_configured_thresholds
        (o : Overrides) (p : PredictionSet) :
  (forall d, valid_threshold (configured o d) = true) ->
  (load_thresholds no_overrides = Ok default_thresholds /\
   confidence_threshold default_thresholds == 7 # 10 /\
   nervousness_threshold default_thresholds == 6 # 10 /\
   fluency_threshold default_thresholds == 6 # 10 /\
   pace_threshold default_thresholds == 5 # 10 /\
   tone_threshold default_thresholds == 5 # 10) /\
  exists t,
    load_thresholds o = Ok t /\
    (forall d, threshold t d = match o d with
                               | Some v => v
                               | None => threshold default_thresholds d
                               end) /\
    generate_verdicts t p =
      [(Nervousness, passes t p Nervousness);
       (Confidence, passes t p Confidence);
       (Fluency, passes t p Fluency);
       (Pace, passes t p Pace);
       (Tone, passes t p Tone)] /\
    (passes t p Confidence = true
       <-> confidence_threshold t <= confidence p) /\
    (passes t p Nervousness = true
       <-> nervousness p <= nervousness_threshold t) /\
    (passes t p Fluency = true <-> fluency_threshold t <= fluency p) /\
    (passes t p Pace = true <-> pace_threshold t <= pace p) /\
    (passes t p Tone = true <-> tone_threshold t <= tone p).
Proof.
  intros Hvalid. split.
  - split; [reflexivity|]. repeat split; reflexivity.
  - destruct (load_thresholds_valid o Hvalid) as (t & Ht & Hd).
    exists t. split; [exact Ht|]. split; [exact Hd|].
    split; [reflexivity|].
    repeat split; try apply Qle_bool_iff;
      intros H; apply Qle_bool_iff; exact H.
Qed.

(** The theorem applies to a configuration that raises the confidence
    threshold to 0.9 and leaves the other four at their defaults. *)
Lemma generate_compares_witness :
  exists t,
    load_thresholds (override Confidence (9 # 10) no_overrides) = Ok t /\
    threshold t Confidence = 9 # 10 /\
    threshold t Tone = 5 # 10.
Proof.
  destruct (generate_compares_with_configured_thresholds
              (override Confidence (9 # 10) no_overrides)
              {| nervousness := 3 # 10; confidence := 8 # 10;
                 fluency := 7 # 10; pace := 6 # 10; tone := 9 # 10 |})
    as (_ & t & Ht & Hd & _).
  - intros []; reflexivity.
  - exists t. split; [exact Ht|].
    split; [exact (Hd Confidence) | exact (Hd Tone)].
Defined.

(** C7. For a sample whose confidence prediction is 0.75, raising only
    the confidence threshold from the default 0.7 to 0.9 turns the
    confidence verdict from pass into fail and leaves the verdicts of
    nervousness, fluency, pace and tone as they were. *)
Theorem confidence_override_flips_only_confidence (p : PredictionSet) :
  confidence p == 3 # 4 ->
  load_thresholds no_overrides = Ok default_thresholds /\
  exists t,
    load_thresholds (override Confidence (9 # 10) no_overrides) = Ok t /\
    passes default_thresholds p Confidence = true /\
    passes t p Confidence = false /\
    passes t p Nervousness = passes default_thresholds p Nervousness /\
    passes t p Fluency = passes default_thresholds p Fluency /\
    passes t p Pace = passes default_thresholds p Pace /\
    passes t p Tone = passes default_thresholds p Tone.
Proof.
  intros Hc. split; [reflexivity|].
  eexists. split; [reflexivity|].
  split; [|split; [|repeat split]].
  - apply Qle_bool_iff.
    change (7 # 10 <= confidence p). lra.
  - apply not_true_is_false. intros H. apply Qle_bool_iff in H.
    change (9 # 10 <= confidence p) in H. lra.
Qed.

(** The theorem applies to the sample with confidence 75/100. *)
Lemma confidence_override_witness :
  passes default_thresholds
         {| nervousness := 4 # 10; confidence := 75 # 100;
            fluency := 65 # 100; pace := 1 # 2; tone := 3 # 10 |}
         Confidence = true.
Proof.
  destruct (confidence_override_flips_only_confidence
              {| nervousness := 4 # 10; confidence := 75 # 100;
                 fluency := 65 # 100; pace := 1 # 2; tone := 3 # 10 |})
    as (_ & t & _ & Hpass & _).
  - reflexivity.
  - exact Hpass.
Defined.

(** C3. When the input decodes and voice-activity detection finds no
    segment of at least the configured minimum duration,
    AudioProcessor.process fails with EmptyAudio and the pipeline
    returns the low-confidence result flagged EmptyAudio, whatever the
    later stages would have computed. *)
Theorem no_voiced_segment_short_circuits
        (RawAudio : Type) (decode : RawAudio -> option AudioSample)
        (normalize : AudioSample -> AudioSample)
        (detect_voice : AudioSample -> list VoiceSegment)
        (count_fillers : AudioSample -> list VoiceSegment -> nat)
        (Analysis : Type)
        (later_stages :
           AudioSample -> list VoiceSegment -> nat -> result Analysis)
        (min_duration : Q) (raw : RawAudio) (a : AudioSample) :
  decode raw = Some a ->
  Forall (fun s => duration s < min_duration)
         (detect_voice (normalize a)) ->
  process RawAudio decode normalize detect_voice count_fillers
          min_duration raw = Err EmptyAudio /\
  analyze RawAudio decode normalize detect_voice count_fillers
          Analysis later_stages min_duration raw
    = LowConfidence Analysis EmptyAudio.
Proof.
  intros Hdec Hshort.
  assert (E : process RawAudio decode normalize detect_voice
                      count_fillers min_duration raw = Err EmptyAudio).
  { unfold process. rewrite Hdec.
    rewrite (keep_segments_all_short _ _ Hshort). reflexivity. }
  split; [exact E|]. unfold analyze. rewrite E. reflexivity.
Qed.

(** The theorem applies to a clip with half a second of detected speech
    under a one-second minimum. *)
Lemma no_voiced_segment_witness :
  analyze (list Q) (fun _ => Some Samples.short_clip) (fun a => a)
          (fun _ => [Samples.half_second]) (fun _ segs => length segs)
          PredictionSet (fun _ _ _ => Err ModelNotLoaded) 1 [0; 0; 0]
    = LowConfidence PredictionSet EmptyAudio.
Proof.
  refine (proj2 (no_voiced_segment_short_circuits
                   (list Q) (fun _ => Some Samples.short_clip)
                   (fun a => a) (fun _ => [Samples.half_second])
                   (fun _ segs => length segs) PredictionSet
                   (fun _ _ _ => Err ModelNotLoaded) 1 [0; 0; 0]
                   Samples.short_clip eq_refl _)).
  repeat constructor.
Defined.

End SpeechFacts.

(** ** Rounding *)

Module RoundFacts.

Lemma round_mono (x y : Q) : x <= y -> (JS.round x <= JS.round y)%Z.
Proof. intros H. unfold JS.round. apply Qfloor_resp_le. lra. Qed.

Lemma round_comp (x y : Q) : x == y -> JS.round x = JS.round y.
Proof.
  intros H. unfold JS.round. apply Qfloor_comp. rewrite H. reflexivity.
Qed.

(** Rounding an integer gives the integer. *)
Lemma round_int (z : Z) (x : Q) : x == inject_Z z -> JS.round x = z.
Proof.
  intros H. unfold JS.round.
  assert (L : (z <= Qfloor (x + (1 # 2)))%Z).
  { rewrite <- (Qfloor_Z z). apply Qfloor_resp_le. lra. }
  assert (U : (Qfloor (x + (1 # 2)) < z + 1)%Z).
  { rewrite Zlt_Qlt, inject_Z_plus. change (inject_Z 1) with 1.
    pose proof (Qfloor_le (x + (1 # 2))). lra. }
  lia.
Qed.

Lemma round_lower (lo : Z) (x : Q) :
  inject_Z lo <= x -> (lo <= JS.round x)%Z.
Proof.
  intros H. apply Z.le_trans with (JS.round (inject_Z lo)).
  - now rewrite (round_int lo (inject_Z lo)) by reflexivity.
  - now apply round_mono.
Qed.

Lemma round_upper (hi : Z) (x : Q) :
  x <= inject_Z hi -> (JS.round x <= hi)%Z.
Proof.
  intros H. apply Z.le_trans with (JS.round (inject_Z hi)).
  - now apply round_mono.
  - now rewrite (round_int hi (inject_Z hi)) by reflexivity.
Qed.

End RoundFacts.

(** ** More on [evaluateAnswer] *)

Module AnswerFacts.

Import Responses Ranking Feedback.

Lemma clamp20 (y : Q) :
  20 <= JS.min 100 (JS.max 20 y) /\ JS.min 100 (JS.max 20 y) <= 100.
Proof.
  destruct (JSFacts.max_spec 20 y) as [[E1 H1]|[E1 H1]];
  destruct (JSFacts.min_spec 100 (JS.max 20 y)) as [[E2 H2]|[E2 H2]]; lra.
Qed.

Lemma add_if_bounds (b : bool) (d x : Q) :
  0 <= d -> x <= add_if b d x /\ add_if b d x <= x + d.
Proof. destruct b; simpl; lra. Qed.

Lemma base_clarity_bounds (req : EvaluationRequest) :
  20 <= base_clarity req /\ base_clarity req <= 115.
Proof.
  unfold base_clarity.
  pose proof (clamp20 (JS.of_nat (wordCount req) / 80 * 100)) as [H1 H2].
  set (c := JS.min 100 _) in *.
  destruct (hasStructure req), (150 <? wordCount req)%nat; simpl; lra.
Qed.
Lemma base_relevance_bounds (req : EvaluationRequest) :
  60 <= base_relevance req /\ base_relevance req <= 110.
Proof.
  unfold base_relevance.
  destruct (hasTechnicalTerms req);
  destruct (String.eqb (questionCategory req) "Technical") eqn:E1;
  destruct (String.eqb (questionCategory req) "Communication") eqn:E2;
  destruct (String.eqb (questionCategory req) "Leadership") eqn:E3;
  destruct (100 <? wordCount req)%nat;
  destruct (JS.includes "team" (JS.toLowerCase (responseText req)));
  simpl; try lra;
  apply String.eqb_eq in E1; rewrite E1 in *; discriminate.
Qed.
Lemma base_depth_bounds (req : EvaluationRequest) :
  70 <= base_depth req /\ base_depth req <= 105.
Proof.
  unfold base_depth.
  destruct (hasExamples req), (hasSpecificDetails req),
    (200 <? wordCount req)%nat; simpl; lra.
Qed.
Lemma base_communication_bounds (req : EvaluationRequest) :
  60 <= base_communication req /\ base_communication req <= 100.
Proof.
  unfold base_communication.
  destruct (50 <? wordCount req)%nat, (hasExamples req),
    (hasStructure req); simpl; lra.
Qed.

Lemma adjust_mono (m1 m2 x : Q) :
  0 <= x -> m1 <= m2 -> adjust m1 x <= adjust m2 x.
Proof.
  intros Hx Hm. unfold adjust.
  assert (H : x * m1 <= x * m2) by nra.
  destruct (JSFacts.max_spec 0 (x * m1)) as [[E1 H1]|[E1 H1]];
  destruct (JSFacts.max_spec 0 (x * m2)) as [[E3 H3]|[E3 H3]];
  destruct (JSFacts.min_spec 100 (JS.max 0 (x * m1))) as [[E2 H2]|[E2 H2]];
  destruct (JSFacts.min_spec 100 (JS.max 0 (x * m2))) as [[E4 H4]|[E4 H4]]; lra.
Qed.
Lemma adjust_ge (m x L : Q) :
  0 <= L -> L <= 100 -> L <= x -> 1 <= m -> L <= adjust m x.
Proof.
  intros H0 H1 Hx Hm. unfold adjust.
  assert (H : x <= x * m) by nra.
  destruct (JSFacts.max_spec 0 (x * m)) as [[E1 H1']|[E1 H1']];
  destruct (JSFacts.min_spec 100 (JS.max 0 (x * m))) as [[E2 H2]|[E2 H2]]; lra.
Qed.
Lemma adjust_zero (m x : Q) : 0 <= x -> m <= 0 -> adjust m x == 0.
Proof.
  intros Hx Hm. unfold adjust.
  assert (H : x * m <= 0) by nra.
  destruct (JSFacts.max_spec 0 (x * m)) as [[E1 H1']|[E1 H1']];
  destruct (JSFacts.min_spec 100 (JS.max 0 (x * m))) as [[E2 H2]|[E2 H2]]; lra.
Qed.

Lemma adjusted_with_difficulty (d : Q) (req : EvaluationRequest) :
  adjusted_scores (with_difficulty d req)
  = {| c_clarity := adjust (1 + (d - 3) * (1 # 10)) (base_clarity req);
       c_relevance := adjust (1 + (d - 3) * (1 # 10)) (base_relevance req);
       c_depth := adjust (1 + (d - 3) * (1 # 10)) (base_depth req);
       c_communication :=
         adjust (1 + (d - 3) * (1 # 10)) (base_communication req) |}.
Proof. reflexivity. Qed.

(** X1. For the same answer and category, a higher question difficulty
    never lowers the overall score or any of the four components. *)
Theorem evaluateAnswer_monotone_in_difficulty
        (req : EvaluationRequest) (d1 d2 : Q) :
  d1 <= d2 ->
  let r1 := evaluateAnswer (with_difficulty d1 req) in
  let r2 := evaluateAnswer (with_difficulty d2 req) in
  (score r1 <= score r2)%Z /\
  (clarity (detailedAnalysis r1) <= clarity (detailedAnalysis r2))%Z /\
  (relevance (detailedAnalysis r1) <= relevance (detailedAnalysis r2))%Z /\
  (depth (detailedAnalysis r1) <= depth (detailedAnalysis r2))%Z /\
  (communication (detailedAnalysis r1)
   <= communication (detailedAnalysis r2))%Z.
Proof.
  intros Hd r1 r2.
  pose proof (base_clarity_bounds req) as [Hc _].
  pose proof (base_relevance_bounds req) as [Hr _].
  pose proof (base_depth_bounds req) as [Hp _].
  pose proof (base_communication_bounds req) as [Hm _].
  assert (Hmul : 1 + (d1 - 3) * (1 # 10) <= 1 + (d2 - 3) * (1 # 10)) by lra.
  pose proof (adjust_mono _ _ (base_clarity req) ltac:(lra) Hmul) as Mc.
  pose proof (adjust_mono _ _ (base_relevance req) ltac:(lra) Hmul) as Mr.
  pose proof (adjust_mono _ _ (base_depth req) ltac:(lra) Hmul) as Mp.
  pose proof (adjust_mono _ _ (base_communication req) ltac:(lra) Hmul) as Mm.
  subst r1 r2. unfold evaluateAnswer. rewrite !adjusted_with_difficulty.
  cbn [score detailedAnalysis clarity relevance depth communication
       c_clarity c_relevance c_depth c_communication overallScore].
  repeat split; try (apply RoundFacts.round_mono; assumption).
  unfold overallScore. cbn [c_clarity c_relevance c_depth c_communication].
  apply RoundFacts.round_mono.
  apply Qmult_le_compat_r; [lra | discriminate].
Qed.

(** The theorem applies to the terse answer at difficulties 1 and 3. *)
Lemma evaluateAnswer_monotone_witness :
  (score (evaluateAnswer (with_difficulty 1 Samples.terse_request))
   <= score (evaluateAnswer (with_difficulty 3 Samples.terse_request)))%Z.
Proof.
  refine (proj1 (evaluateAnswer_monotone_in_difficulty
                   Samples.terse_request 1 3 _)).
  lra.
Defined.

Lemma adjusted_eq (req : EvaluationRequest) :
  adjusted_scores req
  = {| c_clarity := adjust (difficultyMultiplier req) (base_clarity req);
       c_relevance := adjust (difficultyMultiplier req) (base_relevance req);
       c_depth := adjust (difficultyMultiplier req) (base_depth req);
       c_communication :=
         adjust (difficultyMultiplier req) (base_communication req) |}.
Proof. reflexivity. Qed.

(** X2. At difficulty 3 or more every answer, whatever its text, scores
    at least 53 overall, with clarity at least 20, relevance at least 60,
    depth at least 70 and communication at least 60. *)
Theorem evaluateAnswer_floor_at_standard_difficulty
        (req : EvaluationRequest) :
  3 <= questionDifficulty req ->
  let r := evaluateAnswer req in
  (53 <= score r)%Z /\
  (20 <= clarity (detailedAnalysis r))%Z /\
  (60 <= relevance (detailedAnalysis r))%Z /\
  (70 <= depth (detailedAnalysis r))%Z /\
  (60 <= communication (detailedAnalysis r))%Z.
Proof.
  intros Hd r.
  assert (Hm : 1 <= difficultyMultiplier req)
    by (unfold difficultyMultiplier; lra).
  pose proof (base_clarity_bounds req) as [Hc _].
  pose proof (base_relevance_bounds req) as [Hr _].
  pose proof (base_depth_bounds req) as [Hp _].
  pose proof (base_communication_bounds req) as [Hk _].
  pose proof (adjust_ge _ (base_clarity req) 20
                        ltac:(lra) ltac:(lra) Hc Hm) as Ac.
  pose proof (adjust_ge _ (base_relevance req) 60
                        ltac:(lra) ltac:(lra) Hr Hm) as Ar.
  pose proof (adjust_ge _ (base_depth req) 70
                        ltac:(lra) ltac:(lra) Hp Hm) as Ap.
  pose proof (adjust_ge _ (base_communication req) 60
                        ltac:(lra) ltac:(lra) Hk Hm) as Ak.
  subst r. unfold evaluateAnswer. rewrite adjusted_eq.
  cbn [score detailedAnalysis clarity relevance depth communication].
  unfold overallScore.
  cbn [c_clarity c_relevance c_depth c_communication].
  split; [|split; [|split; [|split]]].
  - apply Z.le_trans with (JS.round (105 # 2)); [discriminate|].
    apply RoundFacts.round_mono.
    apply Qle_shift_div_l; [reflexivity | lra].
  - now apply (RoundFacts.round_lower 20).
  - now apply (RoundFacts.round_lower 60).
  - now apply (RoundFacts.round_lower 70).
  - now apply (RoundFacts.round_lower 60).
Qed.

(** The theorem applies to the terse answer at difficulty 3. *)
Lemma evaluateAnswer_floor_witness :
  (53 <= score (evaluateAnswer (with_difficulty 3 Samples.terse_request)))%Z.
Proof.
  refine (proj1 (evaluateAnswer_floor_at_standard_difficulty
                   (with_difficulty 3 Samples.terse_request) _)).
  simpl. lra.
Defined.

Lemma feedback_score (req : EvaluationRequest) :
  feedback (evaluateAnswer req) = feedback_for (score (evaluateAnswer req)).
Proof. unfold evaluateAnswer. cbn [feedback score]. reflexivity. Qed.

(** X3. At difficulty -7 or less (a multiplier of 0 or less) every
    answer scores 0 overall and in all four components, and gets the
    lowest feedback. *)
Theorem evaluateAnswer_zero_at_low_difficulty (req : EvaluationRequest) :
  questionDifficulty req <= -7 ->
  let r := evaluateAnswer req in
  score r = 0%Z /\
  clarity (detailedAnalysis r) = 0%Z /\
  relevance (detailedAnalysis r) = 0%Z /\
  depth (detailedAnalysis r) = 0%Z /\
  communication (detailedAnalysis r) = 0%Z /\
  feedback r = feedback_for 0.
Proof.
  intros Hd r.
  assert (Hm : difficultyMultiplier req <= 0)
    by (unfold difficultyMultiplier; lra).
  pose proof (base_clarity_bounds req) as [Hc _].
  pose proof (base_relevance_bounds req) as [Hr _].
  pose proof (base_depth_bounds req) as [Hp _].
  pose proof (base_communication_bounds req) as [Hk _].
  pose proof (adjust_zero _ (base_clarity req) ltac:(lra) Hm) as Ac.
  pose proof (adjust_zero _ (base_relevance req) ltac:(lra) Hm) as Ar.
  pose proof (adjust_zero _ (base_depth req) ltac:(lra) Hm) as Ap.
  pose proof (adjust_zero _ (base_communication req) ltac:(lra) Hm) as Ak.
  assert (Hs : score (evaluateAnswer req) = 0%Z).
  { unfold evaluateAnswer. rewrite adjusted_eq.
    cbn [score]. unfold overallScore.
    cbn [c_clarity c_relevance c_depth c_communication].
    apply RoundFacts.round_int. rewrite Ac, Ar, Ap, Ak. reflexivity. }
  subst r. split; [exact Hs|].
  rewrite feedback_score, Hs. unfold evaluateAnswer. rewrite adjusted_eq.
  cbn [detailedAnalysis clarity relevance depth communication
       c_clarity c_relevance c_depth c_communication].
  repeat split; now apply RoundFacts.round_int.
Qed.

(** The theorem applies to the terse answer at difficulty -7. *)
Lemma evaluateAnswer_zero_witness :
  score (evaluateAnswer (with_difficulty (-7) Samples.terse_request)) = 0%Z.
Proof.
  refine (proj1 (evaluateAnswer_zero_at_low_difficulty
                   (with_difficulty (-7) Samples.terse_request) _)).
  simpl. lra.
Defined.

Lemma improvements_select (req : EvaluationRequest) :
  improvements (evaluateAnswer req)
  = select (improvement_conditions req) all_improvements.
Proof.
  change (improvements (evaluateAnswer req))
    with (build_improvements req (adjusted_scores req)).
  unfold build_improvements, improvement_conditions.
  generalize (adjusted_scores req). intros c.
  destruct (JS.ltb (c_clarity c) 70), (JS.ltb (c_relevance c) 70),
    (JS.ltb (c_depth c) 70), (JS.ltb (c_communication c) 70),
    (wordCount req <? 50)%nat, (negb (hasExamples req)); reflexivity.
Qed.

Lemma strengths_select (req : EvaluationRequest) :
  strengths (evaluateAnswer req)
  = select (strength_conditions req) all_strengths.
Proof.
  change (strengths (evaluateAnswer req))
    with (build_strengths req (adjusted_scores req)).
  unfold build_strengths, strength_conditions.
  generalize (adjusted_scores req). intros c.
  destruct (JS.gtb (c_clarity c) 80), (JS.gtb (c_relevance c) 80),
    (JS.gtb (c_depth c) 80), (JS.gtb (c_communication c) 80),
    (hasExamples req),
    (hasTechnicalTerms req && String.eqb (questionCategory req) "Technical");
    reflexivity.
Qed.

Lemma issued_improvement (b1 b2 b3 b4 b5 b6 : bool) :
  let l := select [b1; b2; b3; b4; b5; b6] all_improvements in
  issued msg_clarity l = b1 /\
  issued msg_relevance l = b2 /\
  issued msg_depth l = b3 /\
  issued msg_communication l = b4 /\
  issued msg_length l = b5 /\
  issued msg_examples l = b6.
Proof.
  destruct b1, b2, b3, b4, b5, b6; vm_compute; repeat split.
Qed.

Lemma issued_strength (b1 b2 b3 b4 b5 b6 : bool) :
  let l := select [b1; b2; b3; b4; b5; b6] all_strengths in
  issued (nth 0 all_strengths EmptyString) l = b1 /\
  issued (nth 1 all_strengths EmptyString) l = b2 /\
  issued (nth 2 all_strengths EmptyString) l = b3 /\
  issued (nth 3 all_strengths EmptyString) l = b4 /\
  issued (nth 4 all_strengths EmptyString) l = b5 /\
  issued (nth 5 all_strengths EmptyString) l = b6.
Proof.
  destruct b1, b2, b3, b4, b5, b6; vm_compute; repeat split.
Qed.

Lemma gt80_not_lt70 (x : Q) : JS.gtb x 80 && JS.ltb x 70 = false.
Proof.
  unfold JS.gtb, JS.ltb.
  destruct (Qle_bool x 80) eqn:E1; [reflexivity|].
  destruct (Qle_bool 70 x) eqn:E2; [reflexivity|]. exfalso.
  assert (H1 : ~ x <= 80) by (intro H; apply Qle_bool_iff in H; congruence).
  assert (H2 : ~ 70 <= x) by (intro H; apply Qle_bool_iff in H; congruence).
  lra.
Qed.

(** X4. The evaluation never contradicts itself: exactly one of the
    praise "Excellent use of real-world examples" and the advice to
    include concrete examples is issued, and no component gets both its
    praise (score above 80) and its advice (score below 70). *)
Theorem praise_and_advice_never_conflict (req : EvaluationRequest) :
  let r := evaluateAnswer req in
  issued "Excellent use of real-world examples" (strengths r)
    = negb (issued msg_examples (improvements r)) /\
  issued "Clear and well-structured response" (strengths r)
    && issued msg_clarity (improvements r) = false /\
  issued "Relevant technical knowledge demonstrated" (strengths r)
    && issued msg_relevance (improvements r) = false /\
  issued "Good use of examples and specific details" (strengths r)
    && issued msg_depth (improvements r) = false /\
  issued "Strong communication skills" (strengths r)
    && issued msg_communication (improvements r) = false.
Proof.
  intros r. subst r. rewrite improvements_select, strengths_select.
  unfold improvement_conditions, strength_conditions.
  set (c := adjusted_scores req).
  match goal with
  | |- context [select [?a1; ?a2; ?a3; ?a4; ?a5; ?a6] all_improvements] =>
      destruct (issued_improvement a1 a2 a3 a4 a5 a6)
        as (I1 & I2 & I3 & I4 & _ & I6)
  end.
  match goal with
  | |- context [select [?a1; ?a2; ?a3; ?a4; ?a5; ?a6] all_strengths] =>
      destruct (issued_strength a1 a2 a3 a4 a5 a6)
        as (S1 & S2 & S3 & S4 & S5 & _)
  end.
  cbn [nth all_strengths] in S1, S2, S3, S4, S5.
  rewrite I1, I2, I3, I4, I6, S1, S2, S3, S4, S5.
  rewrite negb_involutive.
  repeat split; try reflexivity; apply gt80_not_lt70.
Qed.

End AnswerFacts.

(** ** [evaluateAnswer] on every number *)

Module AnyNumberFacts.

Import JSNumber AnyNumber.

Lemma max_Fin (x y : Q) : max (Fin x) (Fin y) = Fin (JS.max x y).
Proof. unfold max, JS.max, leb. now destruct (Qle_bool x y). Qed.

Lemma min_Fin (x y : Q) : min (Fin x) (Fin y) = Fin (JS.min x y).
Proof. unfold min, JS.min, leb. now destruct (Qle_bool x y). Qed.

Lemma adjust_Fin (m x : Q) : adjust (Fin m) x = Fin (Responses.adjust m x).
Proof.
  unfold adjust, Responses.adjust. cbn [mul]. now rewrite max_Fin, min_Fin.
Qed.

Lemma times_infinity_pos (x : Q) (positive : bool) :
  0 < x ->
  times_infinity x positive = if positive then PosInf else NegInf.
Proof.
  intros H. unfold times_infinity.
  apply Qgt_alt in H. now rewrite H.
Qed.

(** The multiplier is NaN for a NaN difficulty only. *)
Lemma difficultyMultiplier_cases (req : EvaluationRequest) :
  match questionDifficulty req with
  | Fin d =>
      difficultyMultiplier req
      = Fin (Responses.difficultyMultiplier (finite d req))
  | PosInf => difficultyMultiplier req = PosInf
  | NegInf => difficultyMultiplier req = NegInf
  | NaN => difficultyMultiplier req = NaN
  end.
Proof.
  unfold difficultyMultiplier.
  destruct (questionDifficulty req); reflexivity.
Qed.

(** A positive base score, adjusted by a multiplier other than NaN, is a
    finite number between 0 and 100. *)
Lemma adjust_in_range (m : number) (x : Q) :
  m <> NaN -> 0 < x ->
  exists q, adjust m x = Fin q /\ 0 <= q /\ q <= 100.
Proof.
  intros Hm Hx. destruct m as [mq| | |]; [| | |congruence].
  - exists (Responses.adjust mq x). split; [apply adjust_Fin|].
    apply ResponsesFacts.adjust_range.
  - exists 100. unfold adjust. cbn [mul].
    rewrite (times_infinity_pos x true Hx). split; [reflexivity|lra].
  - exists 0. unfold adjust. cbn [mul].
    rewrite (times_infinity_pos x false Hx). split; [reflexivity|lra].
Qed.

Lemma adjust_NaN (x : Q) : adjust NaN x = NaN.
Proof. reflexivity. Qed.

Lemma round_in_range (q : Q) :
  0 <= q -> q <= 100 -> integer_in 0 100 (round (Fin q)).
Proof.
  intros H0 H1. exists (JS.round q). split; [reflexivity|].
  now apply JSFacts.round_range.
Qed.

Lemma base_scores_positive (req : EvaluationRequest) :
  0 < Responses.c_clarity (base_scores req) /\
  0 < Responses.c_relevance (base_scores req) /\
  0 < Responses.c_depth (base_scores req) /\
  0 < Responses.c_communication (base_scores req).
Proof.
  unfold base_scores, Responses.base_scores.
  cbn [Responses.c_clarity Responses.c_relevance Responses.c_depth
       Responses.c_communication].
  pose proof (AnswerFacts.base_clarity_bounds (texts req)).
  pose proof (AnswerFacts.base_relevance_bounds (texts req)).
  pose proof (AnswerFacts.base_depth_bounds (texts req)).
  pose proof (AnswerFacts.base_communication_bounds (texts req)).
  repeat split; lra.
Qed.

Lemma geb_whole (n k : Z) :
  geb (Fin (inject_Z n)) (Fin (inject_Z k)) = (k <=? n)%Z.
Proof.
  unfold geb, leb, Qle_bool. cbn [Qnum Qden inject_Z].
  now rewrite !Z.mul_1_r.
Qed.

Lemma feedback_for_whole (n : Z) :
  feedback_for (Fin (inject_Z n)) = Responses.feedback_for n.
Proof.
  unfold feedback_for.
  change (Fin 90) with (Fin (inject_Z 90)).
  change (Fin 80) with (Fin (inject_Z 80)).
  change (Fin 70) with (Fin (inject_Z 70)).
  change (Fin 60) with (Fin (inject_Z 60)).
  rewrite !geb_whole. unfold Responses.feedback_for.
  destruct (90 <=? n)%Z; [reflexivity|].
  destruct (80 <=? n)%Z; [reflexivity|].
  destruct (70 <=? n)%Z; [reflexivity|].
  destruct (60 <=? n)%Z; reflexivity.
Qed.

Lemma overallScore_Fin (c : Responses.Components) :
  overallScore
    {| c_clarity := Fin (Responses.c_clarity c);
       c_relevance := Fin (Responses.c_relevance c);
       c_depth := Fin (Responses.c_depth c);
       c_communication := Fin (Responses.c_communication c) |}
  = Fin (inject_Z (Responses.overallScore c)).
Proof. reflexivity. Qed.

Lemma builders_Fin (req : EvaluationRequest) (d : Q)
      (c : Responses.Components) :
  let c' := {| c_clarity := Fin (Responses.c_clarity c);
               c_relevance := Fin (Responses.c_relevance c);
               c_depth := Fin (Responses.c_depth c);
               c_communication := Fin (Responses.c_communication c) |} in
  build_strengths req c' = Responses.build_strengths (finite d req) c /\
  build_improvements req c' = Responses.build_improvements (finite d req) c.
Proof. split; reflexivity. Qed.

(** On a finite difficulty the function is [Responses.evaluateAnswer]. *)
Lemma finite_difficulty (req : EvaluationRequest) (d : Q) :
  questionDifficulty req = Fin d ->
  evaluateAnswer req = of_response (Responses.evaluateAnswer (finite d req)).
Proof.
  intros Hd.
  assert (Hc : adjusted_scores req
               = let c := Responses.adjusted_scores (finite d req) in
                 {| c_clarity := Fin (Responses.c_clarity c);
                    c_relevance := Fin (Responses.c_relevance c);
                    c_depth := Fin (Responses.c_depth c);
                    c_communication := Fin (Responses.c_communication c) |}).
  { unfold adjusted_scores.
    pose proof (difficultyMultiplier_cases req) as M. rewrite Hd in M.
    rewrite M. cbn zeta. rewrite !adjust_Fin. reflexivity. }
  unfold evaluateAnswer. rewrite Hc. cbn zeta.
  unfold of_response, Responses.evaluateAnswer. cbn zeta.
  cbn [Responses.score Responses.feedback Responses.strengths
       Responses.improvements Responses.detailedAnalysis
       Responses.clarity Responses.relevance Responses.depth
       Responses.communication].
  generalize (Responses.adjusted_scores (finite d req)). intros c.
  destruct (builders_Fin req d c) as [Hs Hi].
  cbn zeta in Hs, Hi.
  rewrite overallScore_Fin, feedback_for_whole, Hs, Hi. reflexivity.
Qed.

(** C9 (as stated) fails: for the terse answer with a difficulty that is
    NaN, the overall score and the four components are NaN, no integers
    between 0 and 100. *)
Lemma NaN_difficulty_gives_NaN_scores :
  let r := evaluateAnswer Cases.unrated_request in
  score r = NaN /\
  clarity (detailedAnalysis r) = NaN /\
  relevance (detailedAnalysis r) = NaN /\
  depth (detailedAnalysis r) = NaN /\
  communication (detailedAnalysis r) = NaN /\
  ~ integer_in 0 100 (score r).
Proof.
  cbn zeta. repeat (split; [reflexivity|]).
  intros (n & H & _). discriminate H.
Qed.

(** C9 (amended). For every request whose difficulty is not NaN,
    [evaluateAnswer] returns an overall score and four detailed-analysis
    components that are integers between 0 and 100: each component is
    the rounding of its base score multiplied by the difficulty
    multiplier and clamped to [0,100], and the overall score is the
    rounded mean of the four clamped components. *)
Theorem evaluateAnswer_scores_in_range_unless_NaN
        (req : EvaluationRequest) :
  questionDifficulty req <> NaN ->
  let r := evaluateAnswer req in
  let m := difficultyMultiplier req in
  let b := base_scores req in
  let c := adjusted_scores req in
  (integer_in 0 100 (score r) /\
   integer_in 0 100 (clarity (detailedAnalysis r)) /\
   integer_in 0 100 (relevance (detailedAnalysis r)) /\
   integer_in 0 100 (depth (detailedAnalysis r)) /\
   integer_in 0 100 (communication (detailedAnalysis r))) /\
  (c_clarity c
   = min (Fin 100) (max (Fin 0) (mul (Fin (Responses.c_clarity b)) m)) /\
   c_relevance c
   = min (Fin 100) (max (Fin 0) (mul (Fin (Responses.c_relevance b)) m)) /\
   c_depth c
   = min (Fin 100) (max (Fin 0) (mul (Fin (Responses.c_depth b)) m)) /\
   c_communication c
   = min (Fin 100)
         (max (Fin 0) (mul (Fin (Responses.c_communication b)) m))) /\
  (clarity (detailedAnalysis r) = round (c_clarity c) /\
   relevance (detailedAnalysis r) = round (c_relevance c) /\
   depth (detailedAnalysis r) = round (c_depth c) /\
   communication (detailedAnalysis r) = round (c_communication c)) /\
  score r
  = round (div_by (add (add (add (c_clarity c) (c_relevance c)) (c_depth c))
                       (c_communication c)) 4).
Proof.
  intros Hd r m b c.
  assert (Hm : m <> NaN).
  { unfold m. pose proof (difficultyMultiplier_cases req) as M.
    destruct (questionDifficulty req); rewrite M; congruence. }
  destruct (base_scores_positive req) as (P1 & P2 & P3 & P4).
  destruct (adjust_in_range m _ Hm P1) as (q1 & E1 & L1 & U1).
  destruct (adjust_in_range m _ Hm P2) as (q2 & E2 & L2 & U2).
  destruct (adjust_in_range m _ Hm P3) as (q3 & E3 & L3 & U3).
  destruct (adjust_in_range m _ Hm P4) as (q4 & E4 & L4 & U4).
  split; [|repeat split].
  unfold r, evaluateAnswer. cbn zeta.
  cbn [score detailedAnalysis clarity relevance depth communication].
  unfold overallScore, adjusted_scores. cbn zeta.
  cbn [c_clarity c_relevance c_depth c_communication].
  fold m. rewrite E1, E2, E3, E4. cbn [add div_by].
  split; [|split; [|split; [|split]]];
    try (apply round_in_range; assumption).
  apply round_in_range;
    [apply Qle_shift_div_l | apply Qle_shift_div_r];
    try reflexivity; lra.
Qed.

(** The theorem applies to the terse answer with an infinite difficulty
    (a literal such as 1e999 in the body): every score is 100. *)
Lemma evaluateAnswer_scores_unless_NaN_witness :
  integer_in 0 100 (score (evaluateAnswer Cases.overrated_request)) /\
  score (evaluateAnswer Cases.overrated_request) = Fin (inject_Z 100).
Proof.
  split; [|reflexivity].
  refine (proj1 (proj1 (evaluateAnswer_scores_in_range_unless_NaN
                          Cases.overrated_request _))).
  discriminate.
Defined.

End AnyNumberFacts.

(** ** Achievements of the interview-complete route *)

Module AchievementsFacts.

Import Achievements.

Lemma unlocked_In (id : string) (table : list Achievement) :
  unlocked id table = true <-> In id (ids table).
Proof.
  unfold unlocked, ids. rewrite existsb_exists, in_map_iff.
  split; intros (a & H1 & H2).
  - exists a. split; [now apply String.eqb_eq | exact H1].
  - exists a. split; [exact H2 | now apply String.eqb_eq].
Qed.

Lemma unlocked_insert (id : string) (table : list Achievement)
      (a : Achievement) :
  unlocked id (insert_achievement table a)
  = unlocked id table || String.eqb (achievement_id a) id.
Proof.
  unfold insert_achievement.
  destruct (unlocked (achievement_id a) table) eqn:E.
  - destruct (String.eqb (achievement_id a) id) eqn:E'.
    + apply String.eqb_eq in E'. subst id. rewrite E. reflexivity.
    + now rewrite orb_false_r.
  - unfold unlocked. rewrite existsb_app. simpl. now rewrite orb_false_r.
Qed.

Lemma unlocked_fold (id : string) (cands table : list Achievement) :
  unlocked id (fold_left insert_achievement cands table)
  = unlocked id table || unlocked id cands.
Proof.
  revert table. induction cands as [|a cands IH]; intros table; simpl.
  - now rewrite orb_false_r.
  - rewrite IH, unlocked_insert. now rewrite orb_assoc.
Qed.

Lemma insert_extends (table : list Achievement) (a : Achievement) :
  exists added, insert_achievement table a = table ++ added.
Proof.
  unfold insert_achievement.
  destruct (unlocked (achievement_id a) table).
  - exists []. now rewrite app_nil_r.
  - now exists [a].
Qed.

Lemma fold_extends (cands table : list Achievement) :
  exists added, fold_left insert_achievement cands table = table ++ added.
Proof.
  revert table. induction cands as [|a cands IH]; intros table; simpl.
  - exists []. now rewrite app_nil_r.
  - destruct (insert_extends table a) as (x & ->).
    destruct (IH (table ++ x)) as (y & ->).
    exists (x ++ y). now rewrite app_assoc.
Qed.

Lemma insert_NoDup (table : list Achievement) (a : Achievement) :
  NoDup (ids table) -> NoDup (ids (insert_achievement table a)).
Proof.
  intros H. unfold insert_achievement.
  destruct (unlocked (achievement_id a) table) eqn:E; [exact H|].
  assert (Hnot : ~ In (achievement_id a) (ids table)).
  { intros Hin. apply unlocked_In in Hin. congruence. }
  unfold ids in *. rewrite map_app. simpl.
  apply NoDup_app; [exact H | repeat constructor; simpl; tauto |].
  intros x Hin [<-|[]]. contradiction.
Qed.

Lemma fold_NoDup (cands table : list Achievement) :
  NoDup (ids table) ->
  NoDup (ids (fold_left insert_achievement cands table)).
Proof.
  revert table. induction cands as [|a cands IH]; intros table H; simpl.
  - exact H.
  - apply IH. now apply insert_NoDup.
Qed.

(** The candidate list, by the five tests. *)
Lemma candidates_cases (score : Z) (questionsAnswered : nat) (userLevel : Z) :
  candidates score questionsAnswered userLevel
  = (if (1 <=? questionsAnswered)%nat then [first_interview] else [])
    ++ (if (80 <=? score)%Z then [high_scorer] else [])
    ++ (if (95 <=? score)%Z then [perfect_score] else [])
    ++ (if (5 <=? userLevel)%Z then [level_5] else [])
    ++ (if (10 <=? userLevel)%Z then [level_10] else []).
Proof.
  unfold candidates.
  destruct (1 <=? questionsAnswered)%nat, (80 <=? score)%Z,
    (95 <=? score)%Z, (5 <=? userLevel)%Z, (10 <=? userLevel)%Z;
    reflexivity.
Qed.

Lemma unlocked_candidates (score : Z) (questionsAnswered : nat)
      (userLevel : Z) :
  let c := candidates score questionsAnswered userLevel in
  unlocked "first-interview" c = (1 <=? questionsAnswered)%nat /\
  unlocked "high-scorer" c = (80 <=? score)%Z /\
  unlocked "perfect-score" c = (95 <=? score)%Z /\
  unlocked "level-5" c = (5 <=? userLevel)%Z /\
  unlocked "level-10" c = (10 <=? userLevel)%Z.
Proof.
  intros c. subst c. rewrite candidates_cases.
  destruct (1 <=? questionsAnswered)%nat, (80 <=? score)%Z,
    (95 <=? score)%Z, (5 <=? userLevel)%Z, (10 <=? userLevel)%Z;
    vm_compute; repeat split.
Qed.

(** X6. The achievements one completion tries to insert: at most five,
    with pairwise different ids and at most 800 XP of rewards together;
    "perfect-score" never comes without "high-scorer", nor "level-10"
    without "level-5". *)
Theorem candidates_are_distinct_and_nested
        (score : Z) (questionsAnswered : nat) (userLevel : Z) :
  let c := candidates score questionsAnswered userLevel in
  (length c <= 5)%nat /\
  NoDup (ids c) /\
  (total_reward c <= 800)%Z /\
  (In "perfect-score"%string (ids c) -> In "high-scorer"%string (ids c)) /\
  (In "level-10"%string (ids c) -> In "level-5"%string (ids c)).
Proof.
  intros c.
  destruct (unlocked_candidates score questionsAnswered userLevel)
    as (_ & Hh & Hp & H5 & H10). fold c in Hh, Hp, H5, H10.
  assert (Hbase : (length c <= 5)%nat /\ NoDup (ids c)
                  /\ (total_reward c <= 800)%Z).
  { subst c. rewrite candidates_cases.
    destruct (1 <=? questionsAnswered)%nat, (80 <=? score)%Z,
      (95 <=? score)%Z, (5 <=? userLevel)%Z, (10 <=? userLevel)%Z;
      (split; [simpl; lia | split; [|vm_compute; congruence]]);
      repeat constructor; simpl; intuition discriminate. }
  destruct Hbase as (Hl & Hn & Ht).
  split; [exact Hl|]. split; [exact Hn|]. split; [exact Ht|].
  split; intros Hin; apply unlocked_In in Hin; apply unlocked_In.
  - rewrite Hp in Hin. rewrite Hh. apply Z.leb_le in Hin.
    apply Z.leb_le. lia.
  - rewrite H10 in Hin. rewrite H5. apply Z.leb_le in Hin.
    apply Z.leb_le. lia.
Qed.

(** X7. Unlocking keeps the user's achievement rows: the rows that were
    there stay in place, ids that were pairwise different stay so, and an
    id is unlocked afterwards exactly when it was before or its test
    holds now. *)
Theorem checkAndUnlockAchievements_only_adds
        (table : list Achievement)
        (score : Z) (questionsAnswered : nat) (userLevel : Z) :
  NoDup (ids table) ->
  let table' :=
    checkAndUnlockAchievements table score questionsAnswered userLevel in
  (exists added, table' = table ++ added) /\
  NoDup (ids table') /\
  unlocked "first-interview" table'
    = unlocked "first-interview" table || (1 <=? questionsAnswered)%nat /\
  unlocked "high-scorer" table'
    = unlocked "high-scorer" table || (80 <=? score)%Z /\
  unlocked "perfect-score" table'
    = unlocked "perfect-score" table || (95 <=? score)%Z /\
  unlocked "level-5" table'
    = unlocked "level-5" table || (5 <=? userLevel)%Z /\
  unlocked "level-10" table'
    = unlocked "level-10" table || (10 <=? userLevel)%Z.
Proof.
  intros Hn table'. subst table'. unfold checkAndUnlockAchievements.
  destruct (unlocked_candidates score questionsAnswered userLevel)
    as (H1 & H2 & H3 & H4 & H5).
  split; [apply fold_extends|]. split; [now apply fold_NoDup|].
  rewrite !unlocked_fold, H1, H2, H3, H4, H5. repeat split.
Qed.

(** The theorem applies to a user who already has "first-interview" and
    now scores 96 at level 2. *)
Lemma checkAndUnlockAchievements_witness :
  NoDup (ids (checkAndUnlockAchievements [first_interview] 96 3 2)).
Proof.
  refine (proj1 (proj2 (checkAndUnlockAchievements_only_adds
                          [first_interview] 96 3 2 _))).
  repeat constructor. simpl. tauto.
Defined.

End AchievementsFacts.
(** ** Skills of the interview-complete route *)

Module SkillsFacts.

Import Skills.

Lemma has_own (m : SkillMap) (k : string) :
  has m k = match own m k with Some _ => true | None => false end.
Proof.
  induction m as [|[k' v] m IH]; simpl; [reflexivity|].
  destruct (String.eqb k' k); [reflexivity | exact IH].
Qed.

Lemma own_adjust (f : SkillData -> SkillData) (name k : string)
      (m : SkillMap) :
  own (adjust_entry f name m) k
  = if String.eqb name k then option_map f (own m name) else own m k.
Proof.
  induction m as [|[k' v] m IH]; simpl.
  - now destruct (String.eqb name k).
  - destruct (String.eqb k' name) eqn:E1; simpl.
    + apply String.eqb_eq in E1. subst k'.
      destruct (String.eqb name k); reflexivity.
    + destruct (String.eqb k' k) eqn:E2.
      * destruct (String.eqb name k) eqn:E3; [|reflexivity].
        apply String.eqb_eq in E2, E3. subst.
        rewrite String.eqb_refl in E1. discriminate.
      * exact IH.
Qed.

Lemma own_snoc (m : SkillMap) (name k : string) (v : SkillData) :
  own (m ++ [(name, v)]) k
  = match own m k with
    | Some d => Some d
    | None => if String.eqb name k then Some v else None
    end.
Proof.
  induction m as [|[k' v'] m IH]; simpl; [reflexivity|].
  destruct (String.eqb k' k); [reflexivity | exact IH].
Qed.

Lemma own_credit (s : Q) (m : SkillMap) (name k : string) :
  own (credit s m name) k
  = if String.eqb name k then Some (bump s (entry_or_fresh (own m name)))
    else own m k.
Proof.
  unfold credit. rewrite own_adjust, has_own.
  destruct (String.eqb name k) eqn:E.
  - destruct (own m name) eqn:O; simpl.
    + now rewrite O.
    + rewrite own_snoc, O, String.eqb_refl. reflexivity.
  - destruct (own m name) eqn:O; [reflexivity|].
    rewrite own_snoc, E. now destruct (own m k).
Qed.

Lemma own_credit_all (s : Q) (skills : list string) (k : string) :
  NoDup skills ->
  forall m,
    own (fold_left (credit s) skills m) k
    = if existsb (String.eqb k) skills
      then Some (bump s (entry_or_fresh (own m k)))
      else own m k.
Proof.
  induction 1 as [|a l Ha _ IH]; intros m; simpl; [reflexivity|].
  rewrite IH, own_credit.
  destruct (String.eqb k a) eqn:E; simpl.
  - apply String.eqb_eq in E. subst a. rewrite String.eqb_refl.
    replace (existsb (String.eqb k) l) with false; [reflexivity|].
    symmetry. apply not_true_is_false. intros Hex.
    apply existsb_exists in Hex. destruct Hex as (x & Hx & Hk).
    apply String.eqb_eq in Hk. subst x. contradiction.
  - rewrite String.eqb_sym, E. reflexivity.
Qed.

Lemma mappings_NoDup :
  Forall (fun kv => NoDup (snd kv)) skillMappings.
Proof.
  repeat constructor; simpl; intuition discriminate.
Qed.

Lemma own_In {A : Type} (table : list (string * A)) (k : string) (v : A) :
  own table k = Some v -> In (k, v) table.
Proof.
  induction table as [|[k' v'] t IH]; simpl; [discriminate|].
  destruct (String.eqb k' k) eqn:E.
  - apply String.eqb_eq in E. intros [= <-]. subst. now left.
  - intros H. right. now apply IH.
Qed.

Lemma skills_for_NoDup (c : string) (l : list string) :
  skills_for c = Value l -> NoDup l.
Proof.
  unfold skills_for, get_or.
  destruct (own skillMappings c) as [v|] eqn:O.
  - intros [= <-]. apply own_In in O.
    pose proof mappings_NoDup as H. rewrite Forall_forall in H.
    exact (H _ O).
  - destruct (is_inherited c); [discriminate|].
    intros [= <-]. repeat constructor. simpl. tauto.
Qed.

Lemma own_credit_response (m m' : SkillMap) (r : ResponseRow) (k : string) :
  credit_response m r = Some m' -> own m' k = step k (own m k) r.
Proof.
  unfold credit_response, step, credits.
  destruct (skills_for (question_category r)) as [l|] eqn:E;
    [|discriminate].
  intros [= <-]. apply own_credit_all. now apply skills_for_NoDup in E.
Qed.

Lemma own_collect (rs : list ResponseRow) (k : string) :
  forall m m', collect m rs = Some m' ->
               own m' k = fold_left (step k) rs (own m k).
Proof.
  induction rs as [|r rs IH]; intros m m'; simpl.
  - now intros [= <-].
  - destruct (credit_response m r) as [m1|] eqn:E; [|discriminate].
    intros H. rewrite (IH _ _ H).
    now rewrite (own_credit_response _ _ _ k E).
Qed.

(** The entry after the responses that count, from the entry before. *)
Lemma steps_spec (k : string) (rs : list ResponseRow) :
  forall o,
    match fold_left (step k) rs o with
    | None => o = None /\ counted k rs = []
    | Some d =>
        (o = None -> counted k rs <> []) /\
        count d = (count (entry_or_fresh o) + length (counted k rs))%nat /\
        xpGained d
        = (xpGained (entry_or_fresh o) + xp_of (counted k rs))%Z /\
        totalScore d
        == totalScore (entry_or_fresh o) + score_of (counted k rs)
    end.
Proof.
  unfold counted.
  induction rs as [|r rs IH]; intros o; simpl.
  - destruct o as [d|]; simpl.
    + repeat split; try lia; try discriminate. lra.
    + split; reflexivity.
  - specialize (IH (step k o r)).
    destruct (credits k r) eqn:E.
    + assert (Es : step k o r
                   = Some (bump (evaluation_score r) (entry_or_fresh o)))
        by (unfold step; now rewrite E).
      rewrite Es in *.
      destruct (fold_left (step k) rs
                  (Some (bump (evaluation_score r) (entry_or_fresh o))))
        as [d|]; [|destruct IH; discriminate].
      destruct IH as (_ & Hc & Hx & Hs). simpl in *.
      split; [intros _; discriminate|].
      split; [lia|]. split; [lia|]. rewrite Hs. lra.
    + assert (Es : step k o r = o) by (unfold step; now rewrite E).
      rewrite Es in *. exact IH.
Qed.

Lemma has_In (m : SkillMap) (k : string) :
  has m k = true <-> In k (map fst m).
Proof.
  unfold has. rewrite existsb_exists, in_map_iff.
  split; intros (kv & H1 & H2).
  - exists kv. split; [now apply String.eqb_eq | exact H1].
  - exists kv. split; [exact H2 | now apply String.eqb_eq].
Qed.

Lemma keys_adjust (f : SkillData -> SkillData) (name : string)
      (m : SkillMap) :
  map fst (adjust_entry f name m) = map fst m.
Proof.
  induction m as [|[k v] m IH]; simpl; [reflexivity|].
  destruct (String.eqb k name); simpl; [reflexivity | now rewrite IH].
Qed.

Lemma credit_NoDup (s : Q) (m : SkillMap) (name : string) :
  NoDup (map fst m) -> NoDup (map fst (credit s m name)).
Proof.
  intros H. unfold credit. rewrite keys_adjust.
  destruct (has m name) eqn:E; [exact H|].
  rewrite map_app. simpl.
  apply NoDup_app; [exact H | repeat constructor; simpl; tauto |].
  intros x Hin [<-|[]]. apply has_In in Hin. congruence.
Qed.

Lemma collect_NoDup (rs : list ResponseRow) :
  forall m m', NoDup (map fst m) -> collect m rs = Some m' ->
               NoDup (map fst m').
Proof.
  induction rs as [|r rs IH]; intros m m' Hm; simpl.
  - now intros [= <-].
  - unfold credit_response.
    destruct (skills_for (question_category r)) as [l|]; [|discriminate].
    apply IH. clear IH. revert m Hm.
    induction l as [|a l IHl]; intros m Hm; simpl; [exact Hm|].
    apply IHl. now apply credit_NoDup.
Qed.

Lemma mappings_known :
  forallb (fun kv => forallb known_skill (snd kv)) skillMappings = true.
Proof. vm_compute. reflexivity. Qed.

Lemma skills_for_known (c : string) (l : list string) (k : string) :
  skills_for c = Value l -> In k l -> known_skill k = true.
Proof.
  unfold skills_for, get_or.
  destruct (own skillMappings c) as [v|] eqn:O.
  - intros [= <-] Hin. apply own_In in O.
    pose proof mappings_known as H. rewrite forallb_forall in H.
    specialize (H _ O). simpl in H. rewrite forallb_forall in H.
    now apply H.
  - destruct (is_inherited c); [discriminate|].
    intros [= <-] [<-|[]]. reflexivity.
Qed.

Lemma credits_known (k : string) (r : ResponseRow) :
  credits k r = true -> known_skill k = true.
Proof.
  unfold credits.
  destruct (skills_for (question_category r)) as [l|] eqn:E;
    [|discriminate].
  intros H. apply existsb_exists in H. destruct H as (x & Hx & Hk).
  apply String.eqb_eq in Hk. subst x. eapply skills_for_known; eauto.
Qed.

Lemma known_skill_category (k : string) :
  known_skill k = true ->
  getSkillCategory k = Value "technical"%string \/
  getSkillCategory k = Value "soft-skills"%string.
Proof.
  unfold known_skill. simpl. rewrite !orb_true_iff.
  intros [H|[H|[H|[H|[H|H]]]]]; try discriminate;
    apply String.eqb_eq in H; subst k; vm_compute; tauto.
Qed.

Lemma mappings_not_inherited :
  forallb (fun kv => negb (is_inherited (fst kv))) skillMappings = true.
Proof. vm_compute. reflexivity. Qed.

Lemma skills_for_throws (c : string) :
  skills_for c = InheritedMember <-> is_inherited c = true.
Proof.
  unfold skills_for, get_or.
  destruct (own skillMappings c) as [v|] eqn:O.
  - apply own_In in O.
    pose proof mappings_not_inherited as H. rewrite forallb_forall in H.
    specialize (H _ O). simpl in H. apply negb_true_iff in H.
    rewrite H. split; discriminate.
  - destruct (is_inherited c); split; congruence.
Qed.

Lemma collect_throws (rs : list ResponseRow) :
  forall m,
    collect m rs = None
    <-> existsb (fun r => is_inherited (question_category r)) rs = true.
Proof.
  induction rs as [|r rs IH]; intros m; simpl.
  - split; discriminate.
  - unfold credit_response.
    destruct (skills_for (question_category r)) as [l|] eqn:E.
    + rewrite IH.
      destruct (is_inherited (question_category r)) eqn:I.
      * apply skills_for_throws in I. congruence.
      * reflexivity.
    + apply skills_for_throws in E. rewrite E. simpl. tauto.
Qed.

Lemma own_None_keys (m : SkillMap) (k : string) :
  own m k = None <-> ~ In k (map fst m).
Proof.
  rewrite <- has_In, has_own. destruct (own m k); split; congruence.
Qed.

Lemma existing_None_names (table : list SkillRow) (k : string) :
  existing table k = None <-> ~ In k (skill_names table).
Proof.
  induction table as [|row t IH]; simpl; [tauto|].
  destruct (String.eqb (skill_name row) k) eqn:E.
  - apply String.eqb_eq in E. split; [discriminate | tauto].
  - apply String.eqb_neq in E. rewrite IH. tauto.
Qed.

Lemma existing_snoc (table : list SkillRow) (row : SkillRow) (k : string) :
  existing (table ++ [row]) k
  = match existing table k with
    | Some r => Some r
    | None => if String.eqb (skill_name row) k then Some row else None
    end.
Proof.
  induction table as [|r t IH]; simpl; [reflexivity|].
  destruct (String.eqb (skill_name r) k); [reflexivity | exact IH].
Qed.

(** The trigger of [user_skills] refuses every update: the table has a
    [last_updated] column and no [updated_at]. The other two tables the
    routes update pass. *)
Lemma user_skills_update_refused :
  Schema.update_passes "user_skills" Schema.user_skills = false.
Proof. reflexivity. Qed.

Lemma other_updates_pass :
  Schema.update_passes "users" Schema.users = true /\
  Schema.update_passes "interview_sessions" Schema.interview_sessions = true.
Proof. split; reflexivity. Qed.

Lemma run_update_refused (row' : SkillRow) (name : string)
      (table : list SkillRow) :
  run_update row' name table = table.
Proof. unfold run_update. now rewrite user_skills_update_refused. Qed.

Lemma existing_write (table : list SkillRow) (name k : string)
      (d : SkillData) :
  existing (write_skill table (name, d)) k
  = if String.eqb name k
    then Some (written (existing table name) name (xpGained d))
    else existing table k.
Proof.
  unfold write_skill. simpl.
  destruct (existing table name) as [row|] eqn:E.
  - rewrite run_update_refused. simpl.
    destruct (String.eqb name k) eqn:Ek; [|reflexivity].
    apply String.eqb_eq in Ek. subst k. exact E.
  - rewrite existing_snoc. simpl.
    destruct (String.eqb name k) eqn:Ek.
    + apply String.eqb_eq in Ek. subst k. now rewrite E.
    + now destruct (existing table k).
Qed.

Lemma existing_write_all (m : SkillMap) (k : string) :
  NoDup (map fst m) ->
  forall table,
    existing (fold_left write_skill m table) k
    = match own m k with
      | Some d => Some (written (existing table k) k (xpGained d))
      | None => existing table k
      end.
Proof.
  induction m as [|[a d] m IH]; intros Hn table; simpl; [reflexivity|].
  inversion Hn as [|? ? Ha Hm]; subst.
  rewrite (IH Hm), existing_write.
  destruct (String.eqb a k) eqn:E.
  - apply String.eqb_eq in E. subst a.
    apply own_None_keys in Ha. now rewrite Ha.
  - reflexivity.
Qed.

Lemma written_consistent (old : option SkillRow) (name : string) (xp : Z) :
  (forall row, old = Some row -> row_consistent row) ->
  row_consistent (written old name xp).
Proof.
  intros H. destruct old as [row|]; simpl.
  - now apply H.
  - split; [|reflexivity]. simpl. lia.
Qed.

Lemma write_keeps (table : list SkillRow) (entry : string * SkillData) :
  Forall row_consistent table -> NoDup (skill_names table) ->
  Forall row_consistent (write_skill table entry) /\
  NoDup (skill_names (write_skill table entry)) /\
  exists added,
    skill_names (write_skill table entry) = skill_names table ++ added.
Proof.
  intros Hc Hn. unfold write_skill.
  destruct (existing table (fst entry)) as [row|] eqn:E.
  - rewrite run_update_refused.
    split; [exact Hc|]. split; [exact Hn|].
    exists []. now rewrite app_nil_r.
  - split; [|split].
    + apply Forall_app. split; [exact Hc|]. constructor; [|constructor].
      apply (written_consistent None (fst entry)). discriminate.
    + unfold skill_names in *. rewrite map_app. simpl.
      apply NoDup_app; [exact Hn | repeat constructor; simpl; tauto |].
      intros x Hin [<-|[]]. apply existing_None_names in E. contradiction.
    + eexists. unfold skill_names. now rewrite map_app.
Qed.

Lemma write_all_keeps (m : SkillMap) :
  forall table,
    Forall row_consistent table -> NoDup (skill_names table) ->
    Forall row_consistent (fold_left write_skill m table) /\
    NoDup (skill_names (fold_left write_skill m table)) /\
    exists added,
      skill_names (fold_left write_skill m table)
      = skill_names table ++ added.
Proof.
  induction m as [|e m IH]; intros table Hc Hn; simpl.
  - split; [exact Hc|]. split; [exact Hn|].
    exists []. now rewrite app_nil_r.
  - destruct (write_keeps table e Hc Hn) as (Hc' & Hn' & x & Hx).
    destruct (IH _ Hc' Hn') as (Hc2 & Hn2 & y & Hy).
    split; [exact Hc2|]. split; [exact Hn2|].
    exists (x ++ y). now rewrite Hy, Hx, app_assoc.
Qed.

Lemma counted_credits (k : string) (rs : list ResponseRow) :
  counted k rs <> [] -> known_skill k = true.
Proof.
  unfold counted. induction rs as [|r rs IH]; simpl; [congruence|].
  destruct (credits k r) eqn:E; [|exact IH].
  intros _. now apply credits_known in E.
Qed.

Lemma own_collected (rs : list ResponseRow) (m : SkillMap) (k : string) :
  collect [] rs = Some m ->
  match own m k with
  | None => counted k rs = []
  | Some d =>
      counted k rs <> [] /\
      count d = length (counted k rs) /\
      xpGained d = xp_of (counted k rs) /\
      totalScore d == score_of (counted k rs)
  end.
Proof.
  intros H. rewrite (own_collect _ k _ _ H). simpl.
  pose proof (steps_spec k rs None) as S.
  destruct (fold_left (step k) rs None) as [d|].
  - destruct S as (Hne & Hc & Hx & Hs). simpl in *.
    split; [now apply Hne|]. split; [exact Hc|].
    split; [lia|]. rewrite Hs. lra.
  - apply S.
Qed.

Lemma xp_of_bounds (rs : list ResponseRow) :
  Forall (fun r => 0 <= evaluation_score r /\ evaluation_score r <= 100) rs ->
  (0 <= xp_of rs <= 10 * Z.of_nat (length rs))%Z /\
  0 <= score_of rs /\ score_of rs <= 100 * JS.of_nat (length rs).
Proof.
  induction 1 as [|r rs [H0 H1] _ IH].
  - simpl. split; [lia|]. unfold JS.of_nat. simpl. split; [lra | discriminate].
  - destruct IH as (Hx & Hs0 & Hs1).
    assert (Hr : (0 <= JS.round (evaluation_score r / 10) <= 10)%Z).
    { split.
      - apply JSFacts.round_nonneg.
        apply Qle_shift_div_l; [reflexivity | lra].
      - assert (evaluation_score r / 10 <= 10)
          by (apply Qle_shift_div_r; [reflexivity | lra]).
        apply Z.le_trans with (Qfloor (10 + (1 # 2)));
          [|vm_compute; discriminate].
        unfold JS.round. apply Qfloor_resp_le. lra. }
    split; [|split].
    + change (xp_of (r :: rs))
        with (JS.round (evaluation_score r / 10) + xp_of rs)%Z.
      change (length (r :: rs)) with (S (length rs)). lia.
    + simpl. lra.
    + change (score_of (r :: rs)) with (evaluation_score r + score_of rs).
      change (length (r :: rs)) with (S (length rs)).
      unfold JS.of_nat in *. rewrite Nat2Z.inj_succ.
      unfold Z.succ. rewrite inject_Z_plus. change (inject_Z 1) with 1. lra.
Qed.

(** X8. The first loop of updateUserSkills gives every skill the totals
    of exactly the responses whose category maps to it: their number,
    the sum of their scores and one XP per ten points of each (rounded);
    a skill no response maps to gets no entry. *)
Theorem collect_totals_per_skill
        (responses : list ResponseRow) (skillUpdates : SkillMap)
        (skillName : string) :
  collect [] responses = Some skillUpdates ->
  match own skillUpdates skillName with
  | None => counted skillName responses = []
  | Some d =>
      counted skillName responses <> [] /\
      count d = length (counted skillName responses) /\
      xpGained d = xp_of (counted skillName responses) /\
      totalScore d == score_of (counted skillName responses)
  end.
Proof. intros H. exact (own_collected _ _ skillName H). Qed.

(** The theorem applies to three responses none of which counts for
    "Leadership". *)
Lemma collect_totals_witness :
  counted "Leadership" Cases.three_responses = [].
Proof.
  exact (collect_totals_per_skill
           Cases.three_responses _ "Leadership" eq_refl).
Defined.

(** X9. The skills collected from any responses are pairwise different
    and are among the five skills getSkillCategory knows, so every row
    updateUserSkills inserts is categorised "technical" or "soft-skills"
    and never "general". *)
Theorem collected_skills_are_categorised
        (responses : list ResponseRow) (skillUpdates : SkillMap) :
  collect [] responses = Some skillUpdates ->
  NoDup (map fst skillUpdates) /\
  Forall (fun name =>
            getSkillCategory name = Value "technical"%string \/
            getSkillCategory name = Value "soft-skills"%string)
         (map fst skillUpdates).
Proof.
  intros H. split.
  - eapply collect_NoDup; [|exact H]. constructor.
  - apply Forall_forall. intros k Hin.
    apply known_skill_category.
    pose proof (own_collected _ _ k H) as O.
    destruct (own skillUpdates k) as [d|] eqn:E.
    + destruct O as (Hne & _). now apply counted_credits in Hne.
    + apply own_None_keys in E. contradiction.
Qed.

(** The theorem applies to the three sample responses. *)
Lemma collected_skills_witness :
  exists m,
    collect [] Cases.three_responses = Some m /\ NoDup (map fst m).
Proof.
  eexists. split; [reflexivity|].
  exact (proj1 (collected_skills_are_categorised
                  Cases.three_responses _ eq_refl)).
Defined.

(** X10. updateUserSkills throws exactly when some response's category is
    a property name that object literals inherit (such as "constructor"
    or "toString"): the lookup in skillMappings then yields a value that
    has no forEach. It throws in the first loop, before any row is
    written. *)
Theorem updateUserSkills_throws_iff
        (table : list SkillRow) (responses : list ResponseRow) :
  updateUserSkills table responses = None <->
  existsb (fun r => is_inherited (question_category r)) responses = true.
Proof.
  unfold updateUserSkills. rewrite <- (collect_throws responses []).
  destruct (collect [] responses); split; congruence.
Qed.

(** X11. For responses with scores in [0,100], every collected skill entry
    counts between one and all of the responses, gains between 0 and 10
    XP per counted response, and has an average score in [0,100]. *)
Theorem collected_entry_bounds
        (responses : list ResponseRow) (skillUpdates : SkillMap)
        (skillName : string) (d : SkillData) :
  Forall (fun r => 0 <= evaluation_score r /\ evaluation_score r <= 100)
         responses ->
  collect [] responses = Some skillUpdates ->
  own skillUpdates skillName = Some d ->
  (1 <= count d <= length responses)%nat /\
  (0 <= xpGained d <= 10 * Z.of_nat (count d))%Z /\
  0 <= totalScore d / JS.of_nat (count d) /\
  totalScore d / JS.of_nat (count d) <= 100.
Proof.
  intros Hv Hc Ho.
  pose proof (own_collected _ _ skillName Hc) as O. rewrite Ho in O.
  destruct O as (Hne & Hn & Hx & Hs).
  assert (Hv' : Forall (fun r => 0 <= evaluation_score r
                                 /\ evaluation_score r <= 100)
                       (counted skillName responses)).
  { apply Forall_forall. intros r Hr. apply filter_In in Hr.
    rewrite Forall_forall in Hv. now apply Hv. }
  destruct (xp_of_bounds _ Hv') as (Bx & Bs0 & Bs1).
  rewrite <- Hn in Bx, Bs1. rewrite <- Hx in Bx. rewrite <- Hs in Bs0, Bs1.
  assert (Hpos : (1 <= count d)%nat).
  { rewrite Hn. destruct (counted skillName responses); simpl;
      [congruence | lia]. }
  assert (Hq : 0 < JS.of_nat (count d)).
  { unfold JS.of_nat. change 0 with (inject_Z 0). rewrite <- Zlt_Qlt. lia. }
  split; [|split; [exact Bx|split]].
  - split; [exact Hpos|]. rewrite Hn. apply filter_length_le.
  - apply Qle_shift_div_l; [exact Hq | lra].
  - apply Qle_shift_div_r; [exact Hq | lra].
Qed.

(** The theorem applies to the entry of "Technical Skills" after the
    three sample responses. *)
Lemma collected_entry_bounds_witness :
  exists m d,
    collect [] Cases.three_responses = Some m /\
    own m "Technical Skills" = Some d /\
    (1 <= count d <= 3)%nat.
Proof.
  eexists. eexists. split; [reflexivity|]. split; [reflexivity|].
  refine (proj1 (collected_entry_bounds
                   Cases.three_responses _ "Technical Skills" _
                   _ eq_refl eq_refl)).
  repeat constructor; simpl; lra.
Defined.

Lemma existing_after (table table' : list SkillRow)
      (rs : list ResponseRow) (k : string) :
  updateUserSkills table rs = Some table' ->
  existing table' k
  = match counted k rs with
    | [] => existing table k
    | _ => Some (written (existing table k) k (xp_of (counted k rs)))
    end.
Proof.
  unfold updateUserSkills.
  destruct (collect [] rs) as [m|] eqn:C; [|discriminate].
  intros [= <-].
  rewrite existing_write_all
    by (eapply collect_NoDup; [|exact C]; constructor).
  pose proof (own_collected _ _ k C) as O.
  destruct (own m k) as [d|].
  - destruct O as (Hne & _ & Hx & _). rewrite Hx.
    destruct (counted k rs); [congruence | reflexivity].
  - now rewrite O.
Qed.

(** X12. updateUserSkills leaves the row of every skill that no response
    maps to as it was (and creates none for it). *)
Theorem updateUserSkills_leaves_other_skills
        (table table' : list SkillRow) (responses : list ResponseRow)
        (skillName : string) :
  updateUserSkills table responses = Some table' ->
  counted skillName responses = [] ->
  existing table' skillName = existing table skillName.
Proof.
  intros H Hc. rewrite (existing_after _ _ _ skillName H), Hc. reflexivity.
Qed.

(** The theorem applies to "Leadership" under the three sample
    responses. *)
Lemma updateUserSkills_leaves_witness :
  existing Cases.second_skills "Leadership"
  = existing Cases.lone_skill "Leadership".
Proof.
  exact (updateUserSkills_leaves_other_skills
           Cases.lone_skill Cases.second_skills Cases.three_responses
           "Leadership" eq_refl eq_refl).
Defined.

Lemma inserted_snoc (table : list SkillRow) (row : SkillRow)
      (m : SkillMap) :
  ~ In (skill_name row) (map fst m) ->
  inserted (table ++ [row]) m = inserted table m.
Proof.
  intros Hn. unfold inserted. f_equal. apply filter_ext_in.
  intros [k d] Hin. simpl. rewrite existing_snoc.
  destruct (existing table k); [reflexivity|].
  destruct (String.eqb (skill_name row) k) eqn:E; [|reflexivity].
  apply String.eqb_eq in E. exfalso. apply Hn. rewrite E.
  now apply (in_map fst) in Hin.
Qed.

Lemma write_all_appends (m : SkillMap) :
  NoDup (map fst m) ->
  forall table, fold_left write_skill m table = table ++ inserted table m.
Proof.
  induction m as [|[a d] m IH]; intros Hn table.
  - simpl. now rewrite app_nil_r.
  - inversion Hn as [|? ? Ha Hm]; subst.
    cbn [fold_left]. rewrite (IH Hm).
    unfold write_skill, inserted. cbn [fst snd filter map].
    destruct (existing table a) as [row|] eqn:E.
    + now rewrite run_update_refused.
    + rewrite <- app_assoc. cbn [app map]. f_equal. f_equal.
      now apply (inserted_snoc table (inserted_row a (xpGained d)) m).
Qed.

(** X13. updateUserSkills never changes a row that is there: the update
    it sends for the skill (a new total, level and history) is refused by
    the trigger of user_skills, which assigns updated_at, a column the
    table does not have, and the route does not look at the answer. The
    table afterwards is the table before, followed by the rows inserted
    for the collected skills that had none. *)
Theorem updateUserSkills_never_changes_a_row
        (table table' : list SkillRow) (responses : list ResponseRow)
        (skillName : string) (row : SkillRow) :
  updateUserSkills table responses = Some table' ->
  existing table skillName = Some row ->
  existing table' skillName = Some row /\
  exists skillUpdates,
    collect [] responses = Some skillUpdates /\
    table' = table ++ inserted table skillUpdates.
Proof.
  intros H Hrow. split.
  - rewrite (existing_after _ _ _ skillName H), Hrow.
    now destruct (counted skillName responses).
  - unfold updateUserSkills in H.
    destruct (collect [] responses) as [m|] eqn:C; [|discriminate].
    injection H as <-. exists m. split; [reflexivity|].
    apply write_all_appends.
    eapply collect_NoDup; [|exact C]. constructor.
Qed.

(** The theorem applies to "Technical Skills": the row keeps its 30 XP
    although two of the three sample responses count for the skill. *)
Lemma updateUserSkills_never_changes_witness :
  counted "Technical Skills" Cases.three_responses <> [] /\
  exists row,
    existing Cases.second_skills "Technical Skills" = Some row /\
    total_xp row = 30%Z /\ progress_history row = [30%Z].
Proof.
  split; [vm_compute; discriminate|].
  eexists. split.
  - exact (proj1 (updateUserSkills_never_changes_a_row
                    Cases.lone_skill Cases.second_skills
                    Cases.three_responses "Technical Skills" _
                    eq_refl eq_refl)).
  - split; reflexivity.
Defined.

(** X14. For a skill that has no row and that some response maps to,
    updateUserSkills inserts a row whose total_xp and current_xp are both
    the XP of those responses (current_xp is not reduced modulo 100),
    whose level is floor(total_xp / 100) + 1, whose history has that one
    entry and whose category is "technical" or "soft-skills". *)
Theorem updateUserSkills_inserts_missing_row
        (table table' : list SkillRow) (responses : list ResponseRow)
        (skillName : string) :
  updateUserSkills table responses = Some table' ->
  counted skillName responses <> [] ->
  existing table skillName = None ->
  exists row',
    existing table' skillName = Some row' /\
    skill_name row' = skillName /\
    (skill_category row' = Value "technical"%string \/
     skill_category row' = Value "soft-skills"%string) /\
    total_xp row' = xp_of (counted skillName responses) /\
    current_xp row' = total_xp row' /\
    current_level row' = (total_xp row' / 100 + 1)%Z /\
    progress_history row' = [xp_of (counted skillName responses)].
Proof.
  intros H Hc Hrow. rewrite (existing_after _ _ _ skillName H), Hrow.
  pose proof (counted_credits _ _ Hc) as Hk.
  destruct (counted skillName responses) as [|r l] eqn:E; [congruence|].
  eexists. split; [reflexivity|]. simpl. repeat split.
  now apply known_skill_category.
Qed.

(** The theorem applies to "Technical Skills" for a user without skill
    rows. *)
Lemma updateUserSkills_inserts_witness :
  exists row', total_xp row' = 18%Z /\ current_xp row' = 18%Z.
Proof.
  destruct (updateUserSkills_inserts_missing_row
              [] Cases.first_skills Cases.three_responses
              "Technical Skills"
              eq_refl ltac:(vm_compute; discriminate) eq_refl)
    as (row' & _ & _ & _ & Ht & Hx & _).
  exists row'. rewrite Hx, Ht. split; reflexivity.
Defined.

(** X15. updateUserSkills keeps the table's invariants: if every row's
    total_xp is the sum of its progress history with its level computed
    from the total, and skill names are pairwise different, the same
    holds afterwards, and the rows that were there keep their places
    (new rows are appended). *)
Theorem updateUserSkills_keeps_rows_consistent
        (table table' : list SkillRow) (responses : list ResponseRow) :
  Forall row_consistent table ->
  NoDup (skill_names table) ->
  updateUserSkills table responses = Some table' ->
  Forall row_consistent table' /\
  NoDup (skill_names table') /\
  exists added, skill_names table' = skill_names table ++ added.
Proof.
  intros Hc Hn. unfold updateUserSkills.
  destruct (collect [] responses) as [m|]; [|discriminate].
  intros [= <-]. now apply write_all_keeps.
Qed.

(** The theorem applies to the sample rows and responses. *)
Lemma updateUserSkills_keeps_witness :
  NoDup (skill_names Cases.second_skills).
Proof.
  refine (proj1 (proj2 (updateUserSkills_keeps_rows_consistent
                          Cases.lone_skill Cases.second_skills
                          Cases.three_responses _ _ eq_refl))).
  - repeat constructor.
  - repeat constructor; simpl; intuition discriminate.
Defined.

Lemma collect_throws_update (table : list SkillRow)
      (rs : list ResponseRow) :
  updateUserSkills table rs = None
  <-> existsb (fun r => is_inherited (question_category r)) rs = true.
Proof.
  unfold updateUserSkills. rewrite <- (collect_throws rs []).
  destruct (collect [] rs); split; congruence.
Qed.

End SkillsFacts.

(** ** More on the interview-complete route *)

Module CompleteMore.

Import Complete.

Lemma fold_sum_le (f : ResponseRow -> Q) (c : Q) (rs : list ResponseRow) :
  Forall (fun r => f r <= c) rs ->
  forall acc,
    fold_left (fun sum r => sum + f r) rs acc
    <= acc + c * JS.of_nat (length rs).
Proof.
  induction 1 as [|r rs Hr _ IH]; intros acc.
  - change (JS.of_nat (length (@nil ResponseRow))) with 0. simpl. lra.
  - change (fold_left (fun sum r => sum + f r) (r :: rs) acc)
      with (fold_left (fun sum r => sum + f r) rs (acc + f r)).
    change (length (r :: rs)) with (S (length rs)).
    specialize (IH (acc + f r)).
    unfold JS.of_nat in *. rewrite Nat2Z.inj_succ.
    unfold Z.succ. rewrite inject_Z_plus. change (inject_Z 1) with 1.
    lra.
Qed.

Lemma of_nat_pos (rs : list ResponseRow) :
  rs <> [] -> 0 < JS.of_nat (length rs).
Proof.
  intros H. unfold JS.of_nat. change 0 with (inject_Z 0).
  rewrite <- Zlt_Qlt. destruct rs; [congruence | simpl; lia].
Qed.

(** The mean of scores between 0 and 100 lies between 0 and 100. *)
Lemma mean_score_range (rs : list ResponseRow) :
  rs <> [] ->
  Forall (fun r => 0 <= evaluation_score r /\ evaluation_score r <= 100) rs ->
  0 <= reduce_sum evaluation_score rs / JS.of_nat (length rs) /\
  reduce_sum evaluation_score rs / JS.of_nat (length rs) <= 100.
Proof.
  intros Hne Hv. pose proof (of_nat_pos rs Hne) as Hn. split.
  - apply Qle_shift_div_l; [exact Hn|]. rewrite Qmult_0_l.
    apply CompleteFacts.reduce_sum_nonneg.
    eapply Forall_impl; [|exact Hv]. intros r Hr. apply Hr.
  - apply Qle_shift_div_r; [exact Hn|].
    assert (Hle : Forall (fun r => evaluation_score r <= 100) rs)
      by (eapply Forall_impl; [|exact Hv]; intros r Hr; apply Hr).
    pose proof (fold_sum_le evaluation_score 100 rs Hle 0) as B.
    unfold reduce_sum. lra.
Qed.

(** X17. For a non-empty list of responses whose scores lie in [0,100],
    the overall score the complete route stores and returns lies in
    [0,100]. *)
Theorem overallScore_in_range (rs : list ResponseRow) :
  rs <> [] ->
  Forall (fun r => 0 <= evaluation_score r /\ evaluation_score r <= 100) rs ->
  (0 <= overallScore rs <= 100)%Z.
Proof.
  intros Hne Hv. unfold overallScore.
  destruct (mean_score_range rs Hne Hv) as [H0 H1].
  now apply JSFacts.round_range.
Qed.

(** The theorem applies to the two sample responses. *)
Lemma overallScore_witness :
  (0 <= overallScore Samples.two_responses <= 100)%Z.
Proof.
  apply (overallScore_in_range Samples.two_responses).
  - discriminate.
  - repeat constructor; simpl; lra.
Defined.

(** The sum of the integer difficulties. *)
Lemma difficultyBonus_int (rs : list ResponseRow) :
  Forall (fun r => question_difficulty r
                   == inject_Z (Qfloor (question_difficulty r))) rs ->
  difficultyBonus rs
  == 10 * inject_Z (fold_right
                      (fun r s => (Qfloor (question_difficulty r) + s)%Z)
                      0%Z rs).
Proof.
  intros H. unfold difficultyBonus, reduce_sum.
  assert (G : forall acc,
             fold_left (fun sum r => sum + question_difficulty r * 10) rs acc
             == acc + 10 * inject_Z
                             (fold_right
                                (fun r s =>
                                   (Qfloor (question_difficulty r) + s)%Z)
                                0%Z rs)).
  { induction H as [|r rs Hr _ IH]; intros acc; cbn [fold_left fold_right].
    - change (inject_Z 0) with 0. lra.
    - rewrite IH, inject_Z_plus. rewrite Hr at 1. lra. }
  rewrite G. lra.
Qed.

(** X18. When every question difficulty is an integer (the column is an
    integer column), the XP earned is exactly the overall score plus ten
    times the sum of the difficulties; no rounding is left. *)
Theorem xpEarned_is_score_plus_ten_per_difficulty (rs : list ResponseRow) :
  rs <> [] ->
  Forall (fun r => question_difficulty r
                   == inject_Z (Qfloor (question_difficulty r))) rs ->
  xpEarned rs
  = (overallScore rs
     + 10 * fold_right (fun r s => (Qfloor (question_difficulty r) + s)%Z)
                       0%Z rs)%Z.
Proof.
  intros _ H. unfold xpEarned. apply RoundFacts.round_int.
  rewrite (difficultyBonus_int rs H).
  unfold baseXP, scoreMultiplier.
  rewrite inject_Z_plus, inject_Z_mult. change (inject_Z 10) with 10.
  field.
Qed.

(** The theorem applies to the two sample responses, of difficulties 2
    and 4: 59 + 10 * 6. *)
Lemma xpEarned_witness : xpEarned Samples.two_responses = 119%Z.
Proof.
  rewrite (xpEarned_is_score_plus_ten_per_difficulty Samples.two_responses).
  - reflexivity.
  - discriminate.
  - repeat constructor.
Defined.

End CompleteMore.

(** ** The responses route and a whole interview *)

Module SessionFacts.

Import Session.

Lemma score_range (req : Responses.EvaluationRequest) :
  (0 <= Responses.score (Responses.evaluateAnswer req) <= 100)%Z.
Proof.
  change (Responses.score (Responses.evaluateAnswer req))
    with (Responses.overallScore (Responses.adjusted_scores req)).
  unfold Responses.overallScore, Responses.adjusted_scores.
  cbn [Responses.c_clarity Responses.c_relevance Responses.c_depth
       Responses.c_communication].
  set (m := Responses.difficultyMultiplier req).
  pose proof (ResponsesFacts.adjust_range m
                (Responses.c_clarity (Responses.base_scores req))) as Hc.
  pose proof (ResponsesFacts.adjust_range m
                (Responses.c_relevance (Responses.base_scores req))) as Hr.
  pose proof (ResponsesFacts.adjust_range m
                (Responses.c_depth (Responses.base_scores req))) as Hd.
  pose proof (ResponsesFacts.adjust_range m
                (Responses.c_communication (Responses.base_scores req)))
    as Hk.
  apply JSFacts.round_range;
    [apply Qle_shift_div_l | apply Qle_shift_div_r];
    try reflexivity; lra.
Qed.

Lemma missing_false (s : string) : missing s = false -> s <> EmptyString.
Proof. destruct s; [discriminate | discriminate]. Qed.

Lemma submit_keeps (env : SubmitEnv) (body : Responses.EvaluationRequest)
      (st : Submitted) :
  Forall well_stored (rows st) -> counters_agree st ->
  Forall well_stored (rows (snd (submit env body st))) /\
  counters_agree (snd (submit env body st)) /\
  (length (rows (snd (submit env body st))) <= S (length (rows st)))%nat.
Proof.
  intros Hw Hc. unfold submit.
  destruct (negb (submit_authorized env)); [simpl; auto|].
  destruct (missing (Responses.questionId body)) eqn:M1; [simpl; auto|].
  destruct (missing (Responses.questionText body)) eqn:M2; [simpl; auto|].
  destruct (missing (Responses.responseText body)) eqn:M3; [simpl; auto|].
  simpl. destruct (insertError env); [simpl; auto|].
  cbn [snd rows responses_count questions_count].
  split; [|split].
  - apply Forall_app. split; [exact Hw|]. constructor; [|constructor].
    unfold well_stored, store.
    cbn [question_id question_text question_category question_difficulty
         response_text response_time evaluation].
    split; [now apply missing_false|].
    split; [now apply missing_false|].
    split; [now apply missing_false|].
    split; [destruct body; reflexivity | apply score_range].
  - split; [reflexivity|]. destruct (countError env); auto.
  - rewrite length_app. simpl. lia.
Qed.

Lemma submit_all_keeps
      (requests : list (SubmitEnv * Responses.EvaluationRequest)) :
  forall st,
    Forall well_stored (rows st) -> counters_agree st ->
    Forall well_stored (rows (submit_all st requests)) /\
    counters_agree (submit_all st requests) /\
    (length (rows (submit_all st requests))
     <= length (rows st) + length requests)%nat.
Proof.
  induction requests as [|[env body] requests IH]; intros st Hw Hc.
  - simpl. repeat split; auto; try apply Hc. lia.
  - destruct (submit_keeps env body st Hw Hc) as (Hw' & Hc' & Hl).
    destruct (IH _ Hw' Hc') as (Hw2 & Hc2 & Hl2).
    change (submit_all st ((env, body) :: requests))
      with (submit_all (snd (submit env body st)) requests).
    split; [exact Hw2|]. split; [exact Hc2|]. simpl length. lia.
Qed.

Lemma submit_step (env : SubmitEnv) (body : Responses.EvaluationRequest)
      (st : Submitted) :
  snd (submit env body st)
  = if kept (env, body)
    then let rows' := rows st ++ [stored_row (env, body)] in
         let n := if countError env then 0%nat else length rows' in
         {| rows := rows'; responses_count := n; questions_count := n |}
    else st.
Proof.
  unfold submit, kept, stored_row. cbn [fst snd].
  destruct (submit_authorized env); [|reflexivity]. cbn [negb andb].
  destruct (missing (Responses.questionId body)
            || missing (Responses.questionText body)
            || missing (Responses.responseText body)); [reflexivity|].
  cbn [negb andb]. destruct (insertError env); reflexivity.
Qed.

Lemma submit_all_snoc
      (requests : list (SubmitEnv * Responses.EvaluationRequest))
      (er : SubmitEnv * Responses.EvaluationRequest) (st : Submitted) :
  submit_all st (requests ++ [er])
  = snd (submit (fst er) (snd er) (submit_all st requests)).
Proof. unfold submit_all. now rewrite fold_left_app. Qed.

Lemma submit_all_spec
      (requests : list (SubmitEnv * Responses.EvaluationRequest)) :
  let st := submit_all started requests in
  rows st = map stored_row (filter kept requests) /\
  questions_count st = responses_count st /\
  responses_count st = counted_last (filter kept requests).
Proof.
  induction requests as [|[env body] requests IH] using rev_ind.
  - repeat split.
  - cbn zeta in *. destruct IH as (Hr & Hq & Hn).
    rewrite submit_all_snoc, filter_app. cbn [fst snd filter].
    rewrite submit_step.
    destruct (kept (env, body)) eqn:K.
    + cbn [rows responses_count questions_count].
      rewrite Hr, map_app. split; [reflexivity|]. split; [reflexivity|].
      unfold counted_last. rewrite rev_app_distr. cbn [rev app fst].
      destruct (countError env); [reflexivity|].
      now rewrite !length_app, length_map.
    + rewrite app_nil_r. repeat split; assumption.
Qed.

(** X19. For every sequence of requests to the responses route of a new
    session: the rows stored are those of the requests that pass the
    token and field checks and whose insert succeeds, in order; every
    stored row has a non-empty question id, question text and response
    text and holds the evaluation of exactly its own fields, with a score
    in [0,100]; the session's two counters are equal, and they are the
    number of stored rows unless the count query of the last stored
    request gave no rows, in which case they are 0. *)
Theorem stored_responses_are_evaluated
        (requests : list (SubmitEnv * Responses.EvaluationRequest)) :
  let st := submit_all started requests in
  rows st = map stored_row (filter kept requests) /\
  Forall well_stored (rows st) /\
  questions_count st = responses_count st /\
  responses_count st = counted_last (filter kept requests).
Proof.
  intros st.
  destruct (submit_all_spec requests) as (Hr & Hq & Hn).
  destruct (submit_all_keeps requests started) as (Hw & _);
    [constructor | split; [reflexivity | now left] |].
  repeat split; assumption.
Qed.

Lemma complete_200 (env : Complete.Env) (dur : Q) (st st' : State)
      (os xp : Z) (n : nat) :
  complete env dur st = (Complete.Json200 os xp n, st') ->
  exists db', Complete.POST env dur (tables st)
              = (Complete.Json200 os xp n, db').
Proof.
  unfold complete.
  destruct (Complete.POST env dur (tables st)) as [resp db'].
  destruct resp as [| | |os' xp' n']; try discriminate.
  destruct (Complete.user db');
    [destruct (Skills.updateUserSkills _ _)|];
    intros H; inversion H; subst; now exists db'.
Qed.

(** X20. A session whose rows were all stored by the responses route
    completes, when it completes, with an overall score in [0,100] over
    at least one response. *)
Theorem interview_overall_score_in_range
        (requests : list (SubmitEnv * Responses.EvaluationRequest))
        (env : Complete.Env) (dur : Q) (st st' : State)
        (os xp : Z) (n : nat) :
  stored st = rows (submit_all started requests) ->
  complete env dur st = (Complete.Json200 os xp n, st') ->
  (0 <= os <= 100)%Z /\ (1 <= n)%nat /\ n = length (stored st).
Proof.
  intros Hs Hc. apply complete_200 in Hc. destruct Hc as (db' & HP).
  apply CompleteFacts.POST_success in HP.
  destruct HP as (Hne & Hos & _ & Hn & _).
  cbn [tables Complete.responses] in Hne, Hos, Hn.
  rewrite length_map in Hn.
  destruct (submit_all_keeps requests started) as (Hw & _);
    [constructor | split; [reflexivity | now left] |].
  rewrite <- Hs in Hw.
  split; [|split; [|exact Hn]].
  - rewrite Hos. unfold Complete.overallScore.
    assert (Hv : Forall (fun r => 0 <= Complete.evaluation_score r /\
                                  Complete.evaluation_score r <= 100)
                        (map scored (stored st))).
    { apply Forall_forall. intros r Hr. apply in_map_iff in Hr.
      destruct Hr as (s & <- & Hin). rewrite Forall_forall in Hw.
      destruct (Hw s Hin) as (_ & _ & _ & _ & H0 & H1).
      cbn [scored Complete.evaluation_score].
      split; [change 0 with (inject_Z 0) | change 100 with (inject_Z 100)];
        now rewrite <- Zle_Qle. }
    destruct (CompleteMore.mean_score_range _ Hne Hv) as [M0 M1].
    now apply JSFacts.round_range.
  - rewrite Hn. destruct (stored st); [now simpl in Hne | simpl; lia].
Qed.

(** The theorem applies to a session with the terse answer. *)
Lemma interview_overall_score_witness :
  exists st' os xp,
    complete Samples.healthy_env 300
             (Cases.state_of [Samples.terse_request])
    = (Complete.Json200 os xp 1, st') /\
    (0 <= os <= 100)%Z.
Proof.
  eexists. eexists. eexists. split; [reflexivity|].
  refine (proj1 (interview_overall_score_in_range
                   [(Cases.open_env, Samples.terse_request)]
                   Samples.healthy_env 300
                   (Cases.state_of [Samples.terse_request])
                   _ _ _ 1%nat eq_refl eq_refl)).
Defined.

Lemma skills_throw (st : State) :
  Skills.updateUserSkills (skills st) (map skilled (stored st)) = None
  <-> has_inherited_category st = true.
Proof.
  rewrite SkillsFacts.collect_throws_update. unfold has_inherited_category.
  induction (stored st) as [|r l IH]; simpl; [tauto|].
  rewrite !orb_true_iff, IH. tauto.
Qed.

(** On a body that is read, the handler is [complete]. *)
Lemma POST_Duration (env : Complete.Env) (dur : Q) (st : State) :
  POST env (Duration dur) st = complete env dur st.
Proof.
  unfold POST, complete, Complete.POST.
  now destruct (Complete.authorized env).
Qed.

Lemma complete_cases (env : Complete.Env) (dur : Q) (st : State) :
  match complete env dur st with
  | (Complete.Json401, st') => Complete.authorized env = false /\ st' = st
  | (Complete.Json400, st') =>
      (Complete.responsesError env = true \/ stored st = []) /\ st' = st
  | (Complete.Json500, st') =>
      (Complete.updateError env = true /\ st' = st) \/
      (Complete.updateError env = false /\
       has_inherited_category st = true /\
       Complete.completed (session_row st') = true /\
       skills st' = skills st /\
       exists u,
         profile st = Some u /\
         profile st'
         = Some (Complete.award
                   (Complete.xpEarned (map scored (stored st))) u))
  | (Complete.Json200 _ _ _, st') =>
      Complete.completed (session_row st') = true /\
      (profile st = None \/ has_inherited_category st = false)
  end.
Proof.
  unfold complete, Complete.POST.
  destruct (Complete.authorized env); cbn [negb]; [|now split].
  cbn [tables Complete.responses Complete.user Complete.session].
  destruct (Complete.responsesError env) eqn:R; cbn [orb];
    [split; [now left | reflexivity]|].
  destruct (length (map scored (stored st)) =? 0)%nat eqn:L.
  { split; [|reflexivity]. right.
    apply Nat.eqb_eq in L. rewrite length_map in L.
    now apply length_zero_iff_nil. }
  destruct (Complete.updateError env) eqn:U; [now left|].
  cbn [Complete.user Complete.session Complete.completed].
  destruct (profile st) as [u|] eqn:P; cbn [option_map].
  - destruct (Skills.updateUserSkills (skills st) (map skilled (stored st)))
      as [sk|] eqn:K.
    + split; [reflexivity|]. right.
      apply not_true_is_false. intros H. apply skills_throw in H.
      congruence.
    + right. split; [reflexivity|]. split; [now apply skills_throw|].
      split; [reflexivity|]. split; [reflexivity|].
      exists u. split; reflexivity.
  - split; [reflexivity | now left].
Qed.

(** X21. How a completion request can end, for a body that cannot be
    read or that carries a number as totalDuration. A 401 answer means
    the token named no user, a 400 answer that no response of the
    session was found; both change nothing. A 500 answer has one of
    three causes: the body could not be read (no JSON, or the value
    null), and nothing changed; or the session update failed, and nothing
    changed; or updateUserSkills threw on an inherited category name,
    and then the session is already marked completed and the XP already
    added to the profile, while the skills are untouched. A 200 answer
    means the session is marked completed and updateUserSkills did not
    run or did not throw. Which answer is given is decided in this
    order: the token, the body, the responses, the session update, the
    skills. *)
Theorem complete_failure_modes
        (env : Complete.Env) (body : CompleteBody) (st : State) :
  fst (POST env body st)
  = (if negb (Complete.authorized env) then Complete.Json401
     else if unreadable body then Complete.Json500
     else if Complete.responsesError env
             || (length (stored st) =? 0)%nat then Complete.Json400
     else if Complete.updateError env then Complete.Json500
     else if has_profile st && has_inherited_category st
          then Complete.Json500
     else Complete.Json200
            (Complete.overallScore (map scored (stored st)))
            (Complete.xpEarned (map scored (stored st)))
            (length (stored st))) /\
  match POST env body st with
  | (Complete.Json401, st') => Complete.authorized env = false /\ st' = st
  | (Complete.Json400, st') =>
      unreadable body = false /\
      (Complete.responsesError env = true \/ stored st = []) /\ st' = st
  | (Complete.Json500, st') =>
      (unreadable body = true /\ st' = st) \/
      (unreadable body = false /\
       Complete.updateError env = true /\ st' = st) \/
      (unreadable body = false /\
       Complete.updateError env = false /\
       has_inherited_category st = true /\
       Complete.completed (session_row st') = true /\
       skills st' = skills st /\
       exists u,
         profile st = Some u /\
         profile st'
         = Some (Complete.award
                   (Complete.xpEarned (map scored (stored st))) u))
  | (Complete.Json200 _ _ _, st') =>
      unreadable body = false /\
      Complete.completed (session_row st') = true /\
      (profile st = None \/ has_inherited_category st = false)
  end.
Proof.
  split.
  { unfold POST.
    destruct (Complete.authorized env) eqn:A; cbn [negb]; [|reflexivity].
    destruct body as [| |dur]; cbn [unreadable]; [reflexivity..|].
    unfold complete, Complete.POST. rewrite A. cbn [negb].
    cbn [tables Complete.responses Complete.user Complete.session].
    rewrite length_map.
    destruct (Complete.responsesError env
              || (length (stored st) =? 0)%nat); [reflexivity|].
    destruct (Complete.updateError env); [reflexivity|].
    cbn [Complete.user]. unfold has_profile.
    destruct (profile st) as [u|]; cbn [option_map andb]; [|reflexivity].
    pose proof (skills_throw st) as K.
    destruct (Skills.updateUserSkills (skills st) (map skilled (stored st)))
      as [sk|].
    - destruct (has_inherited_category st); [|reflexivity].
      destruct K as [_ K]. discriminate (K eq_refl).
    - destruct K as [K _]. now rewrite (K eq_refl). }
  unfold POST.
  destruct (Complete.authorized env) eqn:A; cbn [negb]; [|now split].
  destruct body as [| |dur]; cbn [unreadable]; [now left | now left |].
  pose proof (complete_cases env dur st) as H.
  destruct (complete env dur st) as [[| | |os xp n] st'].
  - destruct H. congruence.
  - destruct H as [H1 H2]. now repeat split.
  - destruct H as [[H1 H2]|H]; right; [left | right];
      (split; [reflexivity|assumption || now split]).
  - destruct H as [H1 H2]. now repeat split.
Qed.

(** The completion in which updateUserSkills throws. *)
Lemma complete_500_after_award (env : Complete.Env) (dur : Q)
      (st : State) (u : Complete.UserProfile) :
  Complete.authorized env = true ->
  Complete.responsesError env = false ->
  Complete.updateError env = false ->
  stored st <> [] ->
  profile st = Some u ->
  has_inherited_category st = true ->
  exists session' achievements',
    complete env dur st
    = (Complete.Json500,
       {| stored := stored st;
          session_row := session';
          profile :=
            Some (Complete.award
                    (Complete.xpEarned (map scored (stored st))) u);
          achievements := achievements';
          skills := skills st |}).
Proof.
  intros Ha He Hu Hne Hp Hi. unfold complete, Complete.POST.
  rewrite Ha, He, Hu. cbn [negb orb tables Complete.responses
                           Complete.user Complete.session].
  replace (length (map scored (stored st)) =? 0)%nat with false
    by (destruct (stored st); [congruence | reflexivity]).
  rewrite Hp. cbn [option_map Complete.user Complete.session].
  apply skills_throw in Hi. rewrite Hi.
  eexists. eexists. reflexivity.
Qed.

(** X22. The complete route is not atomic: when a completion was answered
    500 because updateUserSkills threw, sending the same request again
    is answered 500 again and adds the same XP to the profile a second
    time. *)
Theorem retry_after_skills_failure_awards_again
        (env : Complete.Env) (dur : Q) (st st1 : State)
        (u : Complete.UserProfile) :
  profile st = Some u ->
  Complete.updateError env = false ->
  complete env dur st = (Complete.Json500, st1) ->
  exists st2 u2,
    complete env dur st1 = (Complete.Json500, st2) /\
    profile st2 = Some u2 /\
    Complete.total_xp u2
    = (Complete.total_xp u
       + 2 * Complete.xpEarned (map scored (stored st)))%Z.
Proof.
  intros Hp Hu H1.
  assert (Ha : Complete.authorized env = true
               /\ Complete.responsesError env = false
               /\ stored st <> []).
  { revert H1. unfold complete, Complete.POST.
    destruct (Complete.authorized env); [|discriminate].
    cbn [negb tables Complete.responses].
    destruct (Complete.responsesError env); [discriminate|].
    destruct (stored st); [discriminate|].
    intros _. repeat split. discriminate. }
  destruct Ha as (Ha & He & Hne).
  pose proof (complete_cases env dur st) as F. rewrite H1 in F.
  destruct F as [[F _]|(_ & Hi & _)]; [congruence|].
  destruct (complete_500_after_award env dur st u Ha He Hu Hne Hp Hi)
    as (s1 & a1 & E1).
  rewrite E1 in H1. injection H1 as <-.
  destruct (complete_500_after_award
              env dur
              {| stored := stored st; session_row := s1;
                 profile :=
                   Some (Complete.award
                           (Complete.xpEarned (map scored (stored st))) u);
                 achievements := a1; skills := skills st |}
              (Complete.award (Complete.xpEarned (map scored (stored st))) u)
              Ha He Hu Hne eq_refl Hi)
    as (s2 & a2 & E2).
  eexists. eexists. split; [exact E2|]. split; [reflexivity|].
  unfold Complete.award. cbn [Complete.total_xp stored].
  generalize (Complete.xpEarned (map scored (stored st))). intros x. lia.
Qed.

(** The theorem applies to a session whose only response has the
    category "constructor". *)
Lemma retry_after_skills_failure_witness :
  exists st1 st2 u2,
    complete Samples.healthy_env 300
             (Cases.state_of [Cases.odd_request])
    = (Complete.Json500, st1) /\
    complete Samples.healthy_env 300 st1 = (Complete.Json500, st2) /\
    profile st2 = Some u2.
Proof.
  destruct (retry_after_skills_failure_awards_again
              Samples.healthy_env 300
              (Cases.state_of [Cases.odd_request]) _
              Complete.new_profile eq_refl eq_refl eq_refl)
    as (st2 & u2 & H1 & H2 & _).
  eexists. exists st2, u2. split; [reflexivity|]. split; [exact H1|exact H2].
Defined.

(** X23. After every completion answered 200 for a user with a profile,
    "first-interview" is unlocked; "high-scorer" is unlocked exactly when
    it was before or the overall score is at least 80, "level-5" exactly
    when it was before or the new total XP is at least 4000, and
    "level-10" likewise with 9000. *)
Theorem completion_unlocks_achievements
        (env : Complete.Env) (dur : Q) (st st' : State)
        (u : Complete.UserProfile) (os xp : Z) (n : nat) :
  profile st = Some u ->
  complete env dur st = (Complete.Json200 os xp n, st') ->
  Achievements.unlocked "first-interview" (achievements st') = true /\
  Achievements.unlocked "high-scorer" (achievements st')
  = Achievements.unlocked "high-scorer" (achievements st)
    || (80 <=? os)%Z /\
  Achievements.unlocked "level-5" (achievements st')
  = Achievements.unlocked "level-5" (achievements st)
    || (4000 <=? Complete.total_xp u + xp)%Z /\
  Achievements.unlocked "level-10" (achievements st')
  = Achievements.unlocked "level-10" (achievements st)
    || (9000 <=? Complete.total_xp u + xp)%Z.
Proof.
  intros Hp H.
  destruct (complete_200 _ _ _ _ _ _ _ H) as (db' & HP).
  pose proof (CompleteFacts.POST_success _ _ _ _ _ _ _ HP)
    as (Hne & _ & _ & Hn & Hu).
  cbn [tables Complete.responses Complete.user] in Hne, Hn, Hu.
  rewrite Hp in Hu. cbn [option_map] in Hu.
  revert H. unfold complete. rewrite HP, Hu.
  destruct (Skills.updateUserSkills (skills st) (map skilled (stored st)));
    [|discriminate].
  intros [= <-]. cbn [achievements].
  unfold Achievements.checkAndUnlockAchievements.
  destruct (AchievementsFacts.unlocked_candidates
              os n (JS.floor_div (Complete.total_xp u + xp) 1000 + 1))
    as (H1 & H2 & _ & H4 & H5).
  rewrite !AchievementsFacts.unlocked_fold, H1, H2, H4, H5.
  assert (Hpos : (1 <=? n)%nat = true).
  { apply Nat.leb_le. rewrite Hn.
    destruct (map scored (stored st)); [congruence | simpl; lia]. }
  rewrite Hpos, orb_true_r. unfold JS.floor_div.
  split; [reflexivity|]. split; [reflexivity|].
  pose proof (Z.div_mod (Complete.total_xp u + xp) 1000 ltac:(lia)).
  pose proof (Z.mod_pos_bound (Complete.total_xp u + xp) 1000 ltac:(lia)).
  split; f_equal; apply eq_true_iff_eq;
    rewrite !Z.leb_le; lia.
Qed.

(** The theorem applies to a session with the terse answer. *)
Lemma completion_unlocks_witness :
  exists st' os xp,
    complete Samples.healthy_env 300
             (Cases.state_of [Samples.terse_request])
    = (Complete.Json200 os xp 1, st') /\
    Achievements.unlocked "first-interview" (achievements st') = true.
Proof.
  eexists. eexists. eexists. split; [reflexivity|].
  refine (proj1 (completion_unlocks_achievements
                   Samples.healthy_env 300
                   (Cases.state_of [Samples.terse_request])
                   _ Complete.new_profile _ _ 1%nat eq_refl eq_refl)).
Defined.

End SessionFacts.

(** ** The evaluate route, the stats route and the streak *)

Module EvaluateFacts.

Import Evaluate.

Lemma bonuses_exclusive (req : EvaluationRequest) :
  technical_bonus req && communication_bonus req = false.
Proof.
  unfold technical_bonus, communication_bonus.
  destruct (String.eqb (category req) "Technical") eqn:E; [|reflexivity].
  apply String.eqb_eq in E. rewrite E. simpl.
  now rewrite andb_false_r.
Qed.

Lemma wordCount_pos (req : EvaluationRequest) : 1 <= JS.of_nat (wordCount req).
Proof.
  unfold wordCount, JS.split_length, JS.of_nat.
  change 1 with (inject_Z 1). rewrite <- Zle_Qle. lia.
Qed.

Lemma clarity_base_bounds (req : EvaluationRequest) :
  2 <= JS.min 100 ((JS.of_nat (wordCount req) / 50) * 100) /\
  JS.min 100 ((JS.of_nat (wordCount req) / 50) * 100) <= 100.
Proof.
  pose proof (wordCount_pos req) as H.
  assert (Hx : JS.of_nat (wordCount req) / 50 * 100
               == 2 * JS.of_nat (wordCount req)) by field.
  destruct (JSFacts.min_spec 100 ((JS.of_nat (wordCount req) / 50) * 100))
    as [[E L]|[E L]]; rewrite E; split; lra.
Qed.

Lemma clarity_base_full (req : EvaluationRequest) :
  (100 < wordCount req)%nat ->
  JS.min 100 ((JS.of_nat (wordCount req) / 50) * 100) == 100.
Proof.
  intros H.
  assert (Hq : 100 < JS.of_nat (wordCount req)).
  { unfold JS.of_nat. change 100 with (inject_Z 100).
    rewrite <- Zlt_Qlt. lia. }
  assert (Hx : JS.of_nat (wordCount req) / 50 * 100
               == 2 * JS.of_nat (wordCount req)) by field.
  destruct (JSFacts.min_spec 100 ((JS.of_nat (wordCount req) / 50) * 100))
    as [[E L]|[E L]]; rewrite E; [reflexivity|]. lra.
Qed.

Lemma scores_bounds (req : EvaluationRequest) :
  let c := scores req in
  2 <= Responses.c_clarity c /\ Responses.c_clarity c <= 105 /\
  60 <= Responses.c_relevance c /\ Responses.c_relevance c <= 95 /\
  70 <= Responses.c_depth c /\ Responses.c_depth c <= 95 /\
  60 <= Responses.c_communication c /\ Responses.c_communication c <= 95 /\
  192 <= Responses.c_clarity c + Responses.c_relevance c
         + Responses.c_depth c + Responses.c_communication c /\
  Responses.c_clarity c + Responses.c_relevance c
  + Responses.c_depth c + Responses.c_communication c <= 375.
Proof.
  intros c. subst c. unfold scores.
  cbn [Responses.c_clarity Responses.c_relevance Responses.c_depth
       Responses.c_communication].
  pose proof (clarity_base_bounds req) as [C0 C1].
  pose proof (bonuses_exclusive req) as X.
  set (cl := JS.min 100 _) in *.
  destruct (technical_bonus req), (communication_bonus req);
    try discriminate;
    destruct (hasTechnicalTerms req), (hasExamples req),
      (30 <? wordCount req)%nat; unfold Responses.add_if;
    repeat split; lra.
Qed.

(** X24. The evaluate route's scores are not clamped: its overall score
    always lies between 48 and 94, relevance in [60,95], depth in
    [70,95], communication in [60,95], and clarity in [2,105]; clarity
    is 105, above 100, exactly for a "Communication" answer of more than
    100 words. *)
Theorem evaluate_route_score_ranges (req : EvaluationRequest) :
  let r := evaluateAnswer req in
  (48 <= Responses.score r <= 94)%Z /\
  (2 <= Responses.clarity (Responses.detailedAnalysis r) <= 105)%Z /\
  (60 <= Responses.relevance (Responses.detailedAnalysis r) <= 95)%Z /\
  (70 <= Responses.depth (Responses.detailedAnalysis r) <= 95)%Z /\
  (60 <= Responses.communication (Responses.detailedAnalysis r) <= 95)%Z /\
  (Responses.clarity (Responses.detailedAnalysis r) = 105%Z
   <-> communication_bonus req = true).
Proof.
  intros r. subst r.
  pose proof (scores_bounds req)
    as (A1 & A2 & B1 & B2 & D1 & D2 & E1 & E2 & S1 & S2).
  unfold evaluateAnswer.
  cbn [Responses.score Responses.detailedAnalysis Responses.clarity
       Responses.relevance Responses.depth Responses.communication].
  unfold Responses.overallScore.
  assert (R : forall (lo hi : Z) (x : Q),
             inject_Z lo <= x -> x <= inject_Z hi ->
             (lo <= JS.round x <= hi)%Z).
  { intros lo hi x L U. split;
      [now apply RoundFacts.round_lower | now apply RoundFacts.round_upper]. }
  split; [|split; [|split; [|split; [|split]]]];
    try (apply R; assumption).
  - assert (48 <= (Responses.c_clarity (scores req)
                   + Responses.c_relevance (scores req)
                   + Responses.c_depth (scores req)
                   + Responses.c_communication (scores req)) / 4)
      by (apply Qle_shift_div_l; [reflexivity | lra]).
    assert ((Responses.c_clarity (scores req)
             + Responses.c_relevance (scores req)
             + Responses.c_depth (scores req)
             + Responses.c_communication (scores req)) / 4 <= 94)
      by (apply Qle_shift_div_r; [reflexivity | lra]).
    now apply R.
  - unfold scores. cbn [Responses.c_clarity].
    pose proof (clarity_base_bounds req) as [C0 C1].
    destruct (communication_bonus req) eqn:B; unfold Responses.add_if.
    + split; [reflexivity|]. intros _.
      apply RoundFacts.round_int.
      unfold communication_bonus in B. apply andb_true_iff in B.
      destruct B as [_ B]. apply Nat.ltb_lt in B.
      rewrite (clarity_base_full req B). reflexivity.
    + split; [|discriminate]. intros H. exfalso.
      destruct (R 2%Z 100%Z _ C0 C1) as [_ U]. lia.
Qed.

Lemma ltb_ge_false (x c : Q) : c <= x -> JS.ltb x c = false.
Proof.
  intros H. unfold JS.ltb. apply negb_false_iff. now apply Qle_bool_iff.
Qed.

(** X25. The evaluate route never advises "Provide specific examples from
    your experience": its depth score is at least 70 for every request. *)
Theorem evaluate_route_never_advises_depth (req : EvaluationRequest) :
  existsb (String.eqb advice_depth)
          (Responses.improvements (evaluateAnswer req)) = false.
Proof.
  pose proof (scores_bounds req) as (_ & _ & _ & _ & D1 & _).
  change (Responses.improvements (evaluateAnswer req))
    with (build_improvements (scores req)).
  unfold build_improvements. rewrite (ltb_ge_false _ _ D1).
  destruct (JS.ltb (Responses.c_clarity (scores req)) 70),
    (JS.ltb (Responses.c_relevance (scores req)) 70),
    (JS.ltb (Responses.c_communication (scores req)) 70);
    vm_compute; reflexivity.
Qed.

End EvaluateFacts.

Module StatsFacts.

Import Stats.

(** The rounded double percentage of every remainder from 0 to 999, by
    evaluation. *)
Lemma percent_table :
  forallb (fun n => match Double.round (percent (Z.of_nat n)) with
                    | Some p => (p =? shown (Z.of_nat n))%Z
                    | None => false
                    end) (seq 0 1000) = true.
Proof. vm_compute. reflexivity. Qed.

Lemma percent_shown (r : Z) :
  (0 <= r < 1000)%Z -> Double.round (percent r) = Some (shown r).
Proof.
  intros Hr. pose proof percent_table as T. rewrite forallb_forall in T.
  specialize (T (Z.to_nat r)). rewrite Z2Nat.id in T by lia.
  assert (Hin : In (Z.to_nat r) (seq 0 1000)) by (apply in_seq; lia).
  specialize (T Hin).
  destruct (Double.round (percent r)) as [p|]; [|discriminate].
  apply Z.eqb_eq in T. now rewrite T.
Qed.

Lemma shown_range (r : Z) :
  (0 <= r < 1000)%Z ->
  (0 <= shown r <= 100)%Z /\ (shown r = 100%Z <-> (995 <= r)%Z).
Proof.
  intros Hr. unfold shown.
  pose proof (Z.div_mod (r + 5) 10 ltac:(lia)) as D.
  pose proof (Z.mod_pos_bound (r + 5) 10 ltac:(lia)) as M.
  set (q := ((r + 5) / 10)%Z) in *.
  destruct (falls_short r) eqn:F.
  - unfold falls_short in F. cbn [existsb] in F.
    rewrite !orb_true_iff, !Z.eqb_eq in F. lia.
  - lia.
Qed.

(** X26. For a profile as the complete route writes it (level
    floor(total_xp / 1000) + 1) with a total from 0 up to the limit of
    its INTEGER column, the stats route reports that level and an
    xpForNextLevel above the total by at most 1000. Its rounded progress
    is computed in doubles: it is the percentage of the XP gained within
    the level rounded half up, except at 145, 285, 565 and 575 XP, where
    the double product falls below the half and the route shows one
    less (14, 28, 56, 57). It lies between 0 and 100 and is 100 exactly
    when at most 5 XP are missing. *)
Theorem stats_progress_matches_level (u : Complete.UserProfile) :
  Complete.level_consistent u ->
  (0 <= Complete.total_xp u < 2 ^ 31)%Z ->
  let gained := (Complete.total_xp u - (Complete.level u - 1) * 1000)%Z in
  currentLevel (Some u) = Complete.level u /\
  (totalXP (Some u) < xpForNextLevel (Some u) <= totalXP (Some u) + 1000)%Z /\
  progressToNextLevel (Some u) = Some (shown gained) /\
  (0 <= shown gained <= 100)%Z /\
  (shown gained = 100%Z
   <-> (xpForNextLevel (Some u) - totalXP (Some u) <= 5)%Z).
Proof.
  intros Hc [H0 _] gained.
  unfold Complete.level_consistent, JS.floor_div in Hc.
  pose proof (Z.div_mod (Complete.total_xp u) 1000 ltac:(lia)) as D.
  pose proof (Z.mod_pos_bound (Complete.total_xp u) 1000 ltac:(lia)) as M.
  assert (Hpos : (0 <= Complete.total_xp u / 1000)%Z)
    by (apply Z.div_pos; lia).
  assert (Hl : currentLevel (Some u) = Complete.level u).
  { unfold currentLevel.
    destruct (Complete.level u =? 0)%Z eqn:E; [|reflexivity].
    apply Z.eqb_eq in E. lia. }
  assert (Hg : gained = Z.rem (Complete.total_xp u) 1000).
  { rewrite Z.rem_mod_nonneg by lia. unfold gained. lia. }
  assert (Hr : (0 <= gained < 1000)%Z)
    by (rewrite Hg, Z.rem_mod_nonneg by lia; lia).
  destruct (shown_range gained Hr) as (B & F).
  unfold xpForNextLevel, progressToNextLevel. rewrite Hl.
  cbn [totalXP]. rewrite <- Hg, (percent_shown gained Hr).
  split; [reflexivity|]. split; [lia|]. split; [reflexivity|].
  split; [exact B|]. rewrite F. unfold gained. lia.
Qed.

(** The theorem applies to a profile with 1145 XP at level 2: the route
    shows 14 percent where the exact percentage, 14.5, rounds to 15. *)
Lemma stats_progress_witness :
  progressToNextLevel (Some {| Complete.total_xp := 1145;
                               Complete.level := 2 |})
  = Some 14%Z.
Proof.
  exact (proj1 (proj2 (proj2
           (stats_progress_matches_level
              {| Complete.total_xp := 1145; Complete.level := 2 |}
              eq_refl ltac:(simpl; lia))))).
Defined.

End StatsFacts.

Module StreakFacts.

Import Streak.

Lemma insert_desc_length (t : Z) (l : list Z) :
  length (insert_desc t l) = S (length l).
Proof.
  induction l as [|y l IH]; simpl; [reflexivity|].
  destruct (y <=? t)%Z; simpl; [reflexivity | now rewrite IH].
Qed.

Lemma sort_desc_length (l : list Z) : length (sort_desc l) = length l.
Proof.
  induction l as [|t l IH]; simpl; [reflexivity|].
  now rewrite insert_desc_length, IH.
Qed.

Lemma count_from_bounds (rest : list Z) :
  forall currentDate streak,
    (streak <= count_from currentDate rest streak
     <= streak + length rest)%nat.
Proof.
  induction rest as [|d rest IH]; intros c k; simpl; [lia|].
  destruct (JS.floor_div (c - d) day =? 1)%Z; [|lia].
  specialize (IH d (S k)). lia.
Qed.

Lemma one_day_apart (a b : Z) :
  (JS.floor_div (a - b) day =? 1)%Z = true
  <-> (day <= a - b < 2 * day)%Z.
Proof.
  rewrite Z.eqb_eq. unfold JS.floor_div.
  assert (Hd : (0 < day)%Z) by reflexivity.
  pose proof (Z.div_mod (a - b) day ltac:(lia)) as D.
  pose proof (Z.mod_pos_bound (a - b) day Hd) as M.
  split; intros H.
  - rewrite H in D. lia.
  - symmetry. apply Z.div_unique with (r := (a - b - day)%Z); lia.
Qed.

Lemma insert_desc_perm (t : Z) (l : list Z) :
  Permutation (insert_desc t l) (t :: l).
Proof.
  induction l as [|y l IH]; simpl; [reflexivity|].
  destruct (y <=? t)%Z; [reflexivity|].
  rewrite IH. apply perm_swap.
Qed.

Lemma sort_desc_perm (l : list Z) : Permutation (sort_desc l) l.
Proof.
  induction l as [|t l IH]; simpl; [reflexivity|].
  now rewrite insert_desc_perm, IH.
Qed.

Lemma insert_desc_sorted (t : Z) (l : list Z) :
  StronglySorted Z.ge l -> StronglySorted Z.ge (insert_desc t l).
Proof.
  induction 1 as [|y l Hs IH Hy]; simpl.
  - constructor; constructor.
  - destruct (y <=? t)%Z eqn:E.
    + apply Z.leb_le in E. constructor; [now constructor|].
      constructor; [lia|].
      eapply Forall_impl; [|exact Hy]. intros z Hz. lia.
    + apply Z.leb_gt in E. constructor; [exact IH|].
      apply (Permutation_Forall (Permutation_sym (insert_desc_perm t l))).
      constructor; [lia | exact Hy].
Qed.

Lemma sort_desc_sorted (l : list Z) : StronglySorted Z.ge (sort_desc l).
Proof.
  induction l as [|t l IH]; simpl; [constructor|].
  now apply insert_desc_sorted.
Qed.

Lemma count_from_daily (rest : list Z) :
  forall currentDate streak k,
    (streak + k <= count_from currentDate rest streak)%nat
    <-> daily (currentDate :: rest) k.
Proof.
  induction rest as [|d rest IH]; intros c s k.
  - destruct k; simpl; [split; [trivial | lia]|]. split; [lia | tauto].
  - destruct k as [|k].
    + pose proof (count_from_bounds (d :: rest) c s). simpl daily.
      split; [trivial | lia].
    + cbn [count_from daily].
      destruct (JS.floor_div (c - d) day =? 1)%Z eqn:G.
      * apply one_day_apart in G. rewrite <- (IH d (S s) k).
        split; [intros H; split; [exact G | lia] | intros [_ H]; lia].
      * split; [lia|]. intros [H _]. apply one_day_apart in H. congruence.
Qed.

(** X27. For sessions whose completed_at parses as a date. The times the
    streak reads are those of the completed sessions, each once, latest
    first. The streak is 0 exactly when no session is completed and never
    exceeds the number of completed sessions; it is more than k exactly
    when a session is completed and each of the k latest completions
    came at least 24 and less than 48 hours after the one before it. So
    it counts beyond the latest completed session exactly when the one
    before it was completed at least 24 and less than 48 hours earlier,
    and two interviews completed within 24 hours of each other give a
    streak of 1. *)
Theorem streak_counts_gaps_of_one_day (sessions : list SessionRow) :
  Permutation (completed_times sessions)
              (map completed_at (filter is_completed sessions)) /\
  StronglySorted Z.ge (completed_times sessions) /\
  (calculateStreak sessions = 0%nat <-> filter is_completed sessions = []) /\
  (calculateStreak sessions <= length (filter is_completed sessions))%nat /\
  (forall k,
      (S k <= calculateStreak sessions)%nat
      <-> completed_times sessions <> []
          /\ daily (completed_times sessions) k) /\
  (forall latest previous older,
      completed_times sessions = latest :: previous :: older ->
      ((2 <= calculateStreak sessions)%nat
       <-> (day <= latest - previous < 2 * day)%Z)).
Proof.
  split; [apply sort_desc_perm|]. split; [apply sort_desc_sorted|].
  assert (Hk : forall k,
             (S k <= calculateStreak sessions)%nat
             <-> completed_times sessions <> []
                 /\ daily (completed_times sessions) k).
  { intros k. unfold calculateStreak.
    destruct (completed_times sessions) as [|t rest].
    - split; [lia | intros [H _]; congruence].
    - rewrite <- (count_from_daily rest t 1 k).
      split; [intros H; split; [discriminate | exact H] | tauto]. }
  cut ((calculateStreak sessions = 0%nat
        <-> filter is_completed sessions = []) /\
       (calculateStreak sessions
        <= length (filter is_completed sessions))%nat /\
       (forall latest previous older,
           completed_times sessions = latest :: previous :: older ->
           ((2 <= calculateStreak sessions)%nat
            <-> (day <= latest - previous < 2 * day)%Z))).
  { intros (A & B & C).
    split; [exact A|]. split; [exact B|]. split; [exact Hk | exact C]. }
  clear Hk. unfold calculateStreak.
  assert (Hlen : length (completed_times sessions)
                 = length (filter is_completed sessions)).
  { unfold completed_times. now rewrite sort_desc_length, length_map. }
  split; [|split].
  - destruct (completed_times sessions) as [|t rest] eqn:E.
    + split; [|reflexivity]. intros _.
      destruct (filter is_completed sessions); [reflexivity|discriminate].
    + pose proof (count_from_bounds rest t 1) as B.
      split; [lia|]. intros H. rewrite H in Hlen. discriminate.
  - destruct (completed_times sessions) as [|t rest] eqn:E; [lia|].
    pose proof (count_from_bounds rest t 1) as B.
    rewrite <- Hlen. simpl. lia.
  - intros latest previous older E. rewrite E. simpl.
    destruct (JS.floor_div (latest - previous) day =? 1)%Z eqn:G.
    + pose proof (count_from_bounds older previous 2) as B.
      apply one_day_apart in G. split; [intros _; exact G | lia].
    + split; [lia|]. intros H. apply one_day_apart in H. congruence.
Qed.

End StreakFacts.
